(** * The paced sender and the acknowledging receiver of task3

    A shallow embedding of [task3/client.py] and [task3/server.py]: the
    socket-option step, the sender's paced send/acknowledge loop with its
    result record, and the receiver's read/acknowledge loop with its
    report.

    The programs talk to sockets, a clock and the console.  The outside
    world is an environment [Env] of oracles (what the n-th call of
    [time.time()], [sendall], [recv] ... answers); what the program does
    to the world is an event trace.  Python's local variables are a record
    threaded through a state-and-exception monad whose state survives a
    raise, as a frame's locals do.

    Python floats (clock readings, rates, ratios) are modelled as
    rationals [Q]; Python ints as [Z]; [bytes] as [list Byte.byte].  Where
    an int meets a float the int is converted, and an int or a quotient of
    ints that has no float raises [OverflowError] as in Python; the
    rounding of a number that has a float is not modelled, so what is
    stated of floats is their order and the values that rounding keeps. *)

From Stdlib Require Import ZArith QArith Qabs List Bool Lia RelationClasses.
From Stdlib Require Import Strings.Byte.
From Stdlib Require Strings.String Strings.Ascii DecimalString.
Import String.StringSyntax Ascii.AsciiSyntax.
Import ListNotations.

Delimit Scope string_scope with string.
Delimit Scope char_scope with char.
Bind Scope string_scope with String.string.
Bind Scope char_scope with Ascii.ascii.
Infix "++" := String.append (right associativity, at level 60) : string_scope.

Set Implicit Arguments.

Local Open Scope Z_scope.

(** ** Python values *)

Definition bytes := list Byte.byte.

(** [len(b)] *)
Definition len {A : Type} (l : list A) : Z := Z.of_nat (length l).

Fixpoint bytes_eqb (a b : bytes) : bool :=
  match a, b with
  | [], [] => true
  | x :: a', y :: b' => Byte.eqb x y && bytes_eqb a' b'
  | _, _ => false
  end.

(** The acknowledgment token [b'ACK']. *)
Definition ACK : bytes := [x41; x43; x4b]%byte.

(** A slice bound as Python normalises it: negative bounds count from the
    end, and every bound is clamped to [0, len]. *)
Definition slice_bound (n i : Z) : Z :=
  if i <? 0 then Z.max 0 (i + n) else Z.min i n.

(** [b[lo:hi]]: never raises; what lies beyond the end is cut off. *)
Definition py_slice {A : Type} (l : list A) (lo hi : Z) : list A :=
  let a := slice_bound (len l) lo in
  let b := slice_bound (len l) hi in
  firstn (Z.to_nat (b - a)) (skipn (Z.to_nat a) l).

(** Exceptions the modelled calls can raise.  [KeyboardInterrupt] is the
    one that is not an instance of [Exception]. *)
Inductive exn : Type :=
| socket_timeout
| ConnectionError
| AttributeError
| ZeroDivisionError
| ValueError
| OverflowError
| KeyboardInterrupt.

Definition is_Exception (e : exn) : bool :=
  match e with KeyboardInterrupt => false | _ => true end.

Definition is_socket_timeout (e : exn) : bool :=
  match e with socket_timeout => true | _ => false end.

Definition is_AttributeError (e : exn) : bool :=
  match e with AttributeError => true | _ => false end.

(** Whether a loop body ended normally or by [break]. *)
Inductive flow : Type := Continue | Break.

(** Comparisons on floats as booleans. *)
Definition Qltb (a b : Q) : bool := negb (Qle_bool b a).

(** The numbers that round to a finite float are those of magnitude
    below [2^1024 - 2^970], half a unit in the last place above the
    largest float.  An int beyond them cannot be converted, and a
    quotient of ints beyond them has no float: Python raises
    [OverflowError] for both. *)
Definition float_limit : Z := 2 ^ 1024 - 2 ^ 970.

Definition fits_float (x : Q) : bool :=
  Qltb (Qabs x) (inject_Z float_limit).

(** ** The world *)

Inductive sock : Type := client_sock | srv_socket | client_conn.

Inductive sockopt : Type := TCP_NODELAY | TCP_QUICKACK.

(** What a [recv] call does: hand back bytes (empty at end of stream) or
    raise. *)
Inductive recv_result : Type :=
| Received (data : bytes)
| RecvRaises (e : exn).

(** The sender's result dictionary. *)
Record Result : Type := mkResult {
  throughput : Q;
  goodput : Q;
  loss : Q;
  res_bytes : Z;
  packets : Z;
  acks : Z;
  time : Q
}.

(** What the programs print. *)
Inductive message : Type :=
| MsgQuickackNotSupportedOnPlatform
| MsgQuickackNotSupportedOnSystem
| MsgConnected
| MsgNagle (on : bool)
| MsgDelayedAck (on : bool)
| MsgScheduled (rate duration : Z)
| MsgTransmissionIssue (err : exn)
| MsgTransferFinished (r : Result)
| MsgServerStarted (port : Z)
| MsgIncoming
| MsgErrorOccurred (ex : exn)
| MsgSessionEnded (elapsed_time : Q) (total_data packet_num : Z)
                  (data_rate : Q) (max_size : Z).

(** What a program did to the world, oldest event first.  A call that
    raises leaves no event. *)
Inductive event : Type :=
| EvSocket (s : sock)
| EvSetsockopt (s : sock) (o : sockopt)
| EvConnect (s : sock)
| EvBind (s : sock) (port : Z)
| EvListen (s : sock)
| EvAccept (s : sock)
| EvSettimeout (s : sock) (t : Q)
| EvSendall (s : sock) (data : bytes)
| EvRecv (s : sock) (bufsize : Z) (data : bytes)
| EvSleep (secs : Q)
| EvClose (s : sock)
| EvPrint (m : message).

(** The oracles: the answer of the n-th call of each kind. *)
Record Env : Type := mkEnv {
  clock : nat -> Q;
  sendall_out : nat -> option exn;
  recv_out : nat -> recv_result;
  connect_out : option exn;
  bind_out : option exn;
  listen_out : option exn;
  accept_out : option exn;
  has_TCP_QUICKACK : bool
}.

(** How many calls of each kind were made, and the trace so far. *)
Record IO : Type := mkIO {
  n_time : nat;
  n_send : nat;
  n_recv : nat;
  trace : list event
}.

Definition io0 : IO := mkIO 0 0 0 [].

(** A running function: its locals [L] and the world. *)
Record State (L : Type) : Type := mkState {
  vars : L;
  io : IO
}.

(** ** The monad: state that survives exceptions *)

Inductive outcome (A : Type) : Type :=
| Ret (a : A)
| Raise (e : exn)
| OutOfFuel.

Arguments Raise {A} e.
Arguments OutOfFuel {A}.

Definition M (L A : Type) : Type := State L -> outcome A * State L.

Definition ret {L A} (a : A) : M L A := fun s => (Ret a, s).

Definition raise {L A} (e : exn) : M L A := fun s => (Raise e, s).

Definition bind {L A B} (m : M L A) (k : A -> M L B) : M L B :=
  fun s =>
    match m s with
    | (Ret a, s') => k a s'
    | (Raise e, s') => (Raise e, s')
    | (OutOfFuel, s') => (OutOfFuel, s')
    end.

Declare Scope py_scope.
Delimit Scope py_scope with py.
Notation "x <- m ;; k" := (bind m (fun x => k))
  (at level 100, m at next level, right associativity) : py_scope.
Notation "m ;; k" := (bind m (fun _ => k))
  (at level 100, right associativity) : py_scope.
Local Open Scope py_scope.

(** [try: body except <class>: handler]; [catches] is the class test. *)
Definition try_except {L A} (body : M L A) (catches : exn -> bool)
    (handler : exn -> M L A) : M L A :=
  fun s =>
    match body s with
    | (Raise e, s') => if catches e then handler e s' else (Raise e, s')
    | r => r
    end.

(** [try: body finally: fin] where [fin] has no [return]: a pending
    exception is raised again after [fin]. *)
Definition try_finally {L A} (body : M L A) (fin : M L unit) : M L A :=
  fun s =>
    match body s with
    | (OutOfFuel, s') => (OutOfFuel, s')
    | (r, s') =>
        match fin s' with
        | (Ret _, s'') => (r, s'')
        | (Raise e, s'') => (Raise e, s'')
        | (OutOfFuel, s'') => (OutOfFuel, s'')
        end
    end.

(** [try: body finally: ...; return v]: the [return] in the [finally]
    block discards whatever exception is pending. *)
Definition try_finally_return {L A B} (body : M L A) (fin : M L B) : M L B :=
  fun s =>
    match body s with
    | (OutOfFuel, s') => (OutOfFuel, s')
    | (_, s') => fin s'
    end.

Definition get_vars {L} : M L L := fun s => (Ret (vars s), s).

Definition set_vars {L} (v : L) : M L unit :=
  fun s => (Ret tt, mkState v (io s)).

(** An assignment to locals. *)
Definition assign {L} (f : L -> L) : M L unit :=
  fun s => (Ret tt, mkState (f (vars s)) (io s)).

Definition out_of_fuel {L A} : M L A := fun s => (OutOfFuel, s).

(** Python's [a % b] on ints (the sign follows the divisor, as
    [Z.modulo] does) and [a / b] on floats. *)
Definition py_mod {L} (a b : Z) : M L Z :=
  if b =? 0 then raise ZeroDivisionError else ret (a mod b).

Definition py_truediv {L} (a b : Q) : M L Q :=
  if Qeq_bool b 0 then raise ZeroDivisionError else ret (a / b)%Q.

(** [a / b] on ints: the quotient as a float. *)
Definition py_int_truediv {L} (a b : Z) : M L Q :=
  if b =? 0 then raise ZeroDivisionError
  else if fits_float (inject_Z a / inject_Z b)
       then ret (inject_Z a / inject_Z b)%Q
       else raise OverflowError.

(** An int operand of a float operation, converted to a float. *)
Definition py_float_of_int {L} (n : Z) : M L Q :=
  if fits_float (inject_Z n) then ret (inject_Z n) else raise OverflowError.

Definition emit {L} (e : event) : M L unit :=
  fun s => (Ret tt,
            mkState (vars s)
              (mkIO (n_time (io s)) (n_send (io s)) (n_recv (io s))
                    (trace (io s) ++ [e]))).

(** A call that either raises or happens and leaves its event. *)
Definition call {L} (out : option exn) (e : event) : M L unit :=
  match out with
  | Some err => raise err
  | None => emit e
  end.

Definition print {L} (m : message) : M L unit := emit (EvPrint m).

Section World.

Variable env : Env.

(** [time.time()] *)
Definition time_time {L} : M L Q :=
  fun s =>
    (Ret (clock env (n_time (io s))),
     mkState (vars s)
       (mkIO (S (n_time (io s))) (n_send (io s)) (n_recv (io s))
             (trace (io s)))).

(** [time.sleep(secs)]: a negative length is a [ValueError]. *)
Definition time_sleep {L} (secs : Q) : M L unit :=
  if Qltb secs 0 then raise ValueError else emit (EvSleep secs).

(** [sock.sendall(data)] *)
Definition sendall {L} (sk : sock) (data : bytes) : M L unit :=
  fun s =>
    let s1 := mkState (vars s)
                (mkIO (n_time (io s)) (S (n_send (io s))) (n_recv (io s))
                      (trace (io s))) in
    call (sendall_out env (n_send (io s))) (EvSendall sk data) s1.

(** [sock.recv(bufsize)] *)
Definition recv {L} (sk : sock) (bufsize : Z) : M L bytes :=
  fun s =>
    let s1 := mkState (vars s)
                (mkIO (n_time (io s)) (n_send (io s)) (S (n_recv (io s)))
                      (trace (io s))) in
    match recv_out env (n_recv (io s)) with
    | Received data => (emit (EvRecv sk bufsize data);; ret data) s1
    | RecvRaises e => (Raise e, s1)
    end.

Definition settimeout {L} (sk : sock) (t : Q) : M L unit :=
  emit (EvSettimeout sk t).

Definition close {L} (sk : sock) : M L unit := emit (EvClose sk).

Definition socket_socket {L} (sk : sock) : M L unit := emit (EvSocket sk).

(** Looking up [socket.TCP_QUICKACK]: an [AttributeError] where the
    platform's socket module has no such name. *)
Definition socket_TCP_QUICKACK {L} : M L sockopt :=
  if has_TCP_QUICKACK env then ret TCP_QUICKACK else raise AttributeError.

Definition setsockopt {L} (sk : sock) (o : sockopt) : M L unit :=
  emit (EvSetsockopt sk o).

(** ** The socket-option step, as each side has it *)

(** client.py, [set_client_options] *)
Definition set_client_options {L} (sk : sock) (use_nagle use_delayed_ack : bool)
    : M L unit :=
  (if negb use_nagle then setsockopt sk TCP_NODELAY else ret tt);;
  if negb use_delayed_ack then
    try_except
      (o <- socket_TCP_QUICKACK;; setsockopt sk o)
      is_AttributeError
      (fun _ => print MsgQuickackNotSupportedOnPlatform)
  else ret tt.

(** server.py, [adjust_socket_options] *)
Definition adjust_socket_options {L} (sk : sock)
    (use_nagle use_delayed_ack : bool) : M L unit :=
  (if negb use_nagle then setsockopt sk TCP_NODELAY else ret tt);;
  if negb use_delayed_ack then
    try_except
      (o <- socket_TCP_QUICKACK;; setsockopt sk o)
      is_AttributeError
      (fun _ => print MsgQuickackNotSupportedOnSystem)
  else ret tt.

(** ** The sender: client.py *)

Record ClientVars : Type := mkClientVars {
  total_bytes : Z;
  packet_count : Z;
  ack_count : Z;
  lost_count : Z;
  pos : Z
}.

Definition set_total_bytes (x : Z) (v : ClientVars) : ClientVars :=
  mkClientVars x (packet_count v) (ack_count v) (lost_count v) (pos v).
Definition set_packet_count (x : Z) (v : ClientVars) : ClientVars :=
  mkClientVars (total_bytes v) x (ack_count v) (lost_count v) (pos v).
Definition set_ack_count (x : Z) (v : ClientVars) : ClientVars :=
  mkClientVars (total_bytes v) (packet_count v) x (lost_count v) (pos v).
Definition set_lost_count (x : Z) (v : ClientVars) : ClientVars :=
  mkClientVars (total_bytes v) (packet_count v) (ack_count v) x (pos v).
Definition set_pos (x : Z) (v : ClientVars) : ClientVars :=
  mkClientVars (total_bytes v) (packet_count v) (ack_count v) (lost_count v) x.

Definition chunk_size : Z := 40.

(** Line 37: [sleep_interval = 1.0 / (rate / chunk_size)], the inner
    division on two ints, the outer one on floats. *)
Definition pacing_interval {L} (rate : Z) : M L Q :=
  r <- py_int_truediv rate chunk_size;;
  py_truediv 1 r.

(** Lines 50-56: the bounded wait for the acknowledgment. *)
Definition ack_wait : M ClientVars unit :=
  try_except
    (settimeout client_sock 1;;
     response <- recv client_sock 3;;
     if bytes_eqb response ACK
     then assign (fun v => set_ack_count (ack_count v + 1) v)
     else ret tt)
    is_socket_timeout
    (fun _ => assign (fun v => set_lost_count (lost_count v + 1) v)).

(** Lines 42-58: one pass through the body of the [while]. *)
Definition send_cycle (data_buffer : bytes) (sleep_interval : Q)
    : M ClientVars flow :=
  v <- get_vars;;
  let segment := py_slice data_buffer (pos v) (pos v + chunk_size) in
  match segment with
  | [] => ret Break
  | _ :: _ =>
      sendall client_sock segment;;
      assign (fun v => set_packet_count (packet_count v + 1) v);;
      assign (fun v => set_total_bytes (total_bytes v + len segment) v);;
      v <- get_vars;;
      p <- py_mod (pos v + chunk_size) (len data_buffer);;
      assign (set_pos p);;
      ack_wait;;
      time_sleep sleep_interval;;
      ret Continue
  end.

(** Lines 41-58: [while time.time() < finish: ...]. *)
Fixpoint send_loop (fuel : nat) (data_buffer : bytes)
    (finish sleep_interval : Q) : M ClientVars unit :=
  match fuel with
  | O => out_of_fuel
  | S fuel' =>
      now <- time_time;;
      if Qltb now finish then
        fl <- send_cycle data_buffer sleep_interval;;
        match fl with
        | Continue => send_loop fuel' data_buffer finish sleep_interval
        | Break => ret tt
        end
      else ret tt
  end.

(** Lines 62-65 and 77-85: the dictionary built from the counters and
    the measured time. *)
Definition trial_result (elapsed : Q) (v : ClientVars) : Result :=
  let achieved_rate :=
    if Qltb 0 elapsed then (inject_Z (total_bytes v) / elapsed)%Q else 0%Q in
  let effective_rate :=
    if Qltb 0 elapsed
    then (inject_Z (ack_count v * chunk_size) / elapsed)%Q else 0%Q in
  let loss_ratio :=
    if 0 <? packet_count v
    then (inject_Z (lost_count v) / inject_Z (packet_count v))%Q else 0%Q in
  mkResult achieved_rate effective_rate loss_ratio
           (total_bytes v) (packet_count v) (ack_count v) elapsed.

(** Lines 62-85: the [finally] block, which returns the dictionary. *)
Definition finalize (start : Q) : M ClientVars Result :=
  now <- time_time;;
  v <- get_vars;;
  let r := trial_result (now - start) v in
  print (MsgTransferFinished r);;
  close client_sock;;
  ret r.

(** Lines 40-85: the [try] statement. *)
Definition guarded_transfer (fuel : nat) (data_buffer : bytes)
    (start finish sleep_interval : Q) : M ClientVars Result :=
  try_finally_return
    (try_except
       (send_loop fuel data_buffer finish sleep_interval)
       is_Exception
       (fun err => print (MsgTransmissionIssue err)))
    (finalize start).

(** client.py, [transmit_data] *)
Definition transmit_data (fuel : nat) (data_buffer : bytes)
    (rate duration : Z) (use_nagle use_delayed_ack : bool)
    : M ClientVars Result :=
  socket_socket client_sock;;
  set_client_options client_sock use_nagle use_delayed_ack;;
  call (connect_out env) (EvConnect client_sock);;
  print MsgConnected;;
  print (MsgNagle use_nagle);;
  print (MsgDelayedAck use_delayed_ack);;
  print (MsgScheduled rate duration);;
  assign (set_total_bytes 0);;
  assign (set_packet_count 0);;
  assign (set_ack_count 0);;
  assign (set_lost_count 0);;
  start <- time_time;;
  (* line 35: [start + duration] converts the int [duration] *)
  d <- py_float_of_int duration;;
  let finish := (start + d)%Q in
  sleep_interval <- pacing_interval rate;;
  assign (set_pos 0);;
  guarded_transfer fuel data_buffer start finish sleep_interval.

(** ** The receiver: server.py *)

Record ServerVars : Type := mkServerVars {
  total_data : Z;
  packet_num : Z;
  max_size : Z
}.

(** Lines 20-25: [for packet in iter(lambda: client_conn.recv(4096), b'')]. *)
Fixpoint recv_loop (fuel : nat) : M ServerVars unit :=
  match fuel with
  | O => out_of_fuel
  | S fuel' =>
      packet <- recv client_conn 4096;;
      match packet with
      | [] => ret tt
      | _ :: _ =>
          let packet_len := len packet in
          assign (fun v => mkServerVars (total_data v + packet_len)
                                        (packet_num v) (max_size v));;
          assign (fun v => mkServerVars (total_data v) (packet_num v + 1)
                                        (max_size v));;
          assign (fun v => mkServerVars (total_data v) (packet_num v)
                             (if packet_len >? max_size v
                              then packet_len else max_size v));;
          sendall client_conn ACK;;
          recv_loop fuel'
      end
  end.

(** Lines 27-35: the report printed when the stream has ended. *)
Definition session_report (elapsed_time : Q) (v : ServerVars) : message :=
  let data_rate :=
    if Qltb 0 elapsed_time
    then (inject_Z (total_data v) / elapsed_time)%Q else 0%Q in
  MsgSessionEnded elapsed_time (total_data v) (packet_num v)
                  data_rate (max_size v).

(** server.py, [process_client] *)
Definition process_client (fuel : nat) : M ServerVars unit :=
  set_vars (mkServerVars 0 0 0);;
  session_start <- time_time;;
  recv_loop fuel;;
  now <- time_time;;
  v <- get_vars;;
  print (session_report (now - session_start) v).

(** Lines 50-56: the [try] statement around the session. *)
Definition guarded_session (fuel : nat) : M ServerVars unit :=
  try_finally
    (try_except (process_client fuel) is_Exception
       (fun ex => print (MsgErrorOccurred ex)))
    (close client_conn;; close srv_socket).

(** server.py, [launch_server] *)
Definition launch_server (fuel : nat) (socket_port : Z)
    (use_nagle use_delayed_ack : bool) : M ServerVars unit :=
  socket_socket srv_socket;;
  adjust_socket_options srv_socket use_nagle use_delayed_ack;;
  call (bind_out env) (EvBind srv_socket socket_port);;
  call (listen_out env) (EvListen srv_socket);;
  print (MsgServerStarted socket_port);;
  print (MsgNagle use_nagle);;
  print (MsgDelayedAck use_delayed_ack);;
  call (accept_out env) (EvAccept srv_socket);;
  print MsgIncoming;;
  guarded_session fuel.

End World.

(** ** Reading traces *)

Definition is_close (sk : sock) (e : event) : bool :=
  match e, sk with
  | EvClose client_sock, client_sock => true
  | EvClose srv_socket, srv_socket => true
  | EvClose client_conn, client_conn => true
  | _, _ => false
  end.

(** How often [sk.close()] was called. *)
Definition closes (sk : sock) (tr : list event) : nat :=
  length (filter (is_close sk) tr).

Definition is_session_report (e : event) : bool :=
  match e with EvPrint (MsgSessionEnded _ _ _ _ _) => true | _ => false end.

(** A state before anything happened; the locals are not bound yet, so
    their content is arbitrary. *)
Definition fresh {L} (v : L) : State L := mkState v io0.

(** The chunks written on a socket, in order. *)
Fixpoint sent_on (sk : sock) (tr : list event) : list bytes :=
  match tr with
  | [] => []
  | EvSendall sk' data :: tr' =>
      if is_close sk (EvClose sk') then data :: sent_on sk tr'
      else sent_on sk tr'
  | _ :: tr' => sent_on sk tr'
  end.

(** ** Sample worlds *)

(** A 4096-byte buffer whose byte at offset [i] is [i mod 256]. *)
Definition sample_buffer : bytes :=
  map (fun n => match Byte.of_nat (n mod 256) with
                | Some b => b
                | None => x00%byte
                end) (seq 0 4096).

(** A clock that advances one second per reading. *)
Definition ticking : nat -> Q := fun n => inject_Z (Z.of_nat n).

(** Every write succeeds and every wait sees the token. *)
Definition env_acked : Env :=
  mkEnv ticking (fun _ => None) (fun _ => Received ACK)
        None None None None true.

(** A stream of two chunks and then the end of the stream. *)
Definition env_session : Env :=
  mkEnv ticking (fun _ => None)
        (fun n => if (n <? 2)%nat then Received ACK else Received [])
        None None None None true.

(** Every wait ends at once with an empty read: the peer has shut down
    its side, and no token ever arrives. *)
Definition env_unanswered : Env :=
  mkEnv ticking (fun _ => None) (fun _ => Received [])
        None None None None true.

(** One chunk arrives, then the next read fails with a transport
    error. *)
Definition env_read_error : Env :=
  mkEnv ticking (fun _ => None)
        (fun n => match n with
                  | O => Received [x68; x69]%byte
                  | _ => RecvRaises ConnectionError
                  end)
        None None None None true.

(** No acknowledgment ever arrives: every wait times out. *)
Definition env_all_lost : Env :=
  mkEnv ticking (fun _ => None) (fun _ => RecvRaises socket_timeout)
        None None None None true.

(** The same world on a platform without [TCP_QUICKACK]. *)
Definition env_no_quickack : Env :=
  mkEnv ticking (fun _ => None) (fun _ => Received ACK)
        None None None None false.

Definition unbound_client : ClientVars := mkClientVars 0 0 0 0 0.
Definition unbound_server : ServerVars := mkServerVars 0 0 0.

(** ** Vocabulary for the statements *)

(** The state after the events [evs] happened. *)
Definition push {L} (evs : list event) (s : State L) : State L :=
  mkState (vars s)
    (mkIO (n_time (io s)) (n_send (io s)) (n_recv (io s))
          (trace (io s) ++ evs)).

(** What the option step does to a socket. *)
Definition option_events (env : Env) (sk : sock)
    (use_nagle use_delayed_ack : bool) (warning : message) : list event :=
  (if use_nagle then [] else [EvSetsockopt sk TCP_NODELAY])
  ++ (if use_delayed_ack then []
      else if has_TCP_QUICKACK env then [EvSetsockopt sk TCP_QUICKACK]
           else [EvPrint warning]).

(** Lines 21-28 of client.py as events. *)
Definition setup_events (env : Env) (rate duration : Z)
    (use_nagle use_delayed_ack : bool) : list event :=
  [EvSocket client_sock]
  ++ option_events env client_sock use_nagle use_delayed_ack
       MsgQuickackNotSupportedOnPlatform
  ++ [EvConnect client_sock; EvPrint MsgConnected;
      EvPrint (MsgNagle use_nagle); EvPrint (MsgDelayedAck use_delayed_ack);
      EvPrint (MsgScheduled rate duration)].

(** The state in which the pacing interval is computed: the counters are
    zero, [pos] is not assigned yet, and [start] was read. *)
Definition at_pacing (env : Env) (rate duration : Z)
    (use_nagle use_delayed_ack : bool) (s : State ClientVars)
    : State ClientVars :=
  mkState (mkClientVars 0 0 0 0 (pos (vars s)))
    (mkIO (S (n_time (io s))) (n_send (io s)) (n_recv (io s))
          (trace (io s)
           ++ setup_events env rate duration use_nagle use_delayed_ack)).

(** However [m] ends, its final state is related by [R] to its initial
    one. *)
Definition stable {L A} (R : State L -> State L -> Prop) (m : M L A) : Prop :=
  forall s o s', m s = (o, s') -> R s s'.

(** [same_closes sk]: the step did not call [sk.close()]. *)
Definition same_closes {L} (sk : sock) (s s' : State L) : Prop :=
  closes sk (trace (io s')) = closes sk (trace (io s)).

(** The state after one more reading of the clock. *)
Definition clock_read {L} (s : State L) : State L :=
  mkState (vars s)
    (mkIO (S (n_time (io s))) (n_send (io s)) (n_recv (io s))
          (trace (io s))).

(** Lines 38-49 of server.py as events. *)
Definition listen_events (env : Env) (socket_port : Z)
    (use_nagle use_delayed_ack : bool) : list event :=
  [EvSocket srv_socket]
  ++ option_events env srv_socket use_nagle use_delayed_ack
       MsgQuickackNotSupportedOnSystem
  ++ [EvBind srv_socket socket_port; EvListen srv_socket;
      EvPrint (MsgServerStarted socket_port); EvPrint (MsgNagle use_nagle);
      EvPrint (MsgDelayedAck use_delayed_ack); EvAccept srv_socket;
      EvPrint MsgIncoming].

(** Between two states of the sender: acknowledged and lost chunks only
    grow, and together they grew no more than the chunks sent. *)
Definition accounted (s s' : State ClientVars) : Prop :=
  ack_count (vars s) <= ack_count (vars s')
  /\ lost_count (vars s) <= lost_count (vars s')
  /\ (ack_count (vars s') - ack_count (vars s))
     + (lost_count (vars s') - lost_count (vars s))
     <= packet_count (vars s') - packet_count (vars s).

(** The same with equality: every chunk sent in between was counted as
    acknowledged or as lost. *)
Definition balanced (s s' : State ClientVars) : Prop :=
  ack_count (vars s) <= ack_count (vars s')
  /\ lost_count (vars s) <= lost_count (vars s')
  /\ (ack_count (vars s') - ack_count (vars s))
     + (lost_count (vars s') - lost_count (vars s))
     = packet_count (vars s') - packet_count (vars s).

(** A world in which every wait for an acknowledgment either sees the
    token or times out. *)
Definition ack_or_timeout (env : Env) : Prop :=
  forall n, recv_out env n = Received ACK
            \/ recv_out env n = RecvRaises socket_timeout.

(** What a finished run returned, if it returned. *)
Definition returned {L A} (run : outcome A * State L) : option A :=
  match fst run with
  | Ret a => Some a
  | _ => None
  end.

(** *** The receiver's session *)

(** Lines 21-24: what one received chunk does to the counters. *)
Definition count_chunk (v : ServerVars) (packet : bytes) : ServerVars :=
  mkServerVars (total_data v + len packet) (packet_num v + 1)
    (if len packet >? max_size v then len packet else max_size v).

(** The counters after the chunks [reads], from zero. *)
Definition tally (reads : list bytes) : ServerVars :=
  fold_left count_chunk reads (mkServerVars 0 0 0).

(** One read and its acknowledgment. *)
Definition chunk_events (packet : bytes) : list event :=
  [EvRecv client_conn 4096 packet; EvSendall client_conn ACK].

(** The state after [sendall] was called once more. *)
Definition send_called {L} (s : State L) : State L :=
  mkState (vars s)
    (mkIO (n_time (io s)) (S (n_send (io s))) (n_recv (io s))
          (trace (io s))).

(** The state after [recv] was called once more. *)
Definition recv_called {L} (s : State L) : State L :=
  mkState (vars s)
    (mkIO (n_time (io s)) (n_send (io s)) (S (n_recv (io s)))
          (trace (io s))).

(** The state after a chunk was read, counted and acknowledged. *)
Definition after_chunk (s : State ServerVars) (packet : bytes)
    : State ServerVars :=
  mkState (count_chunk (vars s) packet)
    (mkIO (n_time (io s)) (S (n_send (io s))) (S (n_recv (io s)))
          (trace (io s) ++ chunk_events packet)).

(** The state after a chunk was read and counted, and the write of its
    acknowledgment raised. *)
Definition ack_failed (s : State ServerVars) (packet : bytes)
    : State ServerVars :=
  mkState (count_chunk (vars s) packet)
    (mkIO (n_time (io s)) (S (n_send (io s))) (S (n_recv (io s)))
          (trace (io s) ++ [EvRecv client_conn 4096 packet])).

(** From the [nr]-th read and the [ns]-th write on, the world delivers the
    chunks [reads], none of them empty, and takes an acknowledgment for
    each. *)
Fixpoint fed (env : Env) (nr ns : nat) (reads : list bytes) : Prop :=
  match reads with
  | [] => True
  | packet :: reads' =>
      packet <> []
      /\ recv_out env nr = Received packet
      /\ sendall_out env ns = None
      /\ fed env (S nr) (S ns) reads'
  end.

(** The state in which [process_client] enters its loop. *)
Definition session_start (s : State ServerVars) : State ServerVars :=
  clock_read (mkState (mkServerVars 0 0 0) (io s)).


(** [same_time]: the step did not read the clock. *)
Definition same_time {L} (s s' : State L) : Prop :=
  n_time (io s') = n_time (io s).

(** [m] has no loop in it: it never stops for want of fuel. *)
Definition fuel_free {L A} (m : M L A) : Prop :=
  forall s, fst (m s) <> OutOfFuel.

(** ** More vocabulary: what goes over the connection *)

(** The data handed back by [recv] on a socket, in order. *)
Fixpoint received_on (sk : sock) (tr : list event) : list bytes :=
  match tr with
  | [] => []
  | EvRecv sk' _ data :: tr' =>
      if is_close sk (EvClose sk') then data :: received_on sk tr'
      else received_on sk tr'
  | _ :: tr' => received_on sk tr'
  end.

(** The options set on a socket, in order. *)
Fixpoint options_set (sk : sock) (tr : list event) : list sockopt :=
  match tr with
  | [] => []
  | EvSetsockopt sk' o :: tr' =>
      if is_close sk (EvClose sk') then o :: options_set sk tr'
      else options_set sk tr'
  | _ :: tr' => options_set sk tr'
  end.

(** The bytes in a list of chunks. *)
Definition total_len (chunks : list bytes) : Z :=
  fold_right Z.add 0 (map len chunks).

(** Lines 42 and 48 of client.py, iterated: the chunks that [n] passes of
    the loop cut from the buffer starting at [p], and the position they
    leave. *)
Fixpoint chunks_from (data_buffer : bytes) (p : Z) (n : nat) : list bytes :=
  match n with
  | O => []
  | S n' =>
      py_slice data_buffer p (p + chunk_size)
      :: chunks_from data_buffer ((p + chunk_size) mod len data_buffer) n'
  end.

Fixpoint pos_after (data_buffer : bytes) (p : Z) (n : nat) : Z :=
  match n with
  | O => p
  | S n' => pos_after data_buffer ((p + chunk_size) mod len data_buffer) n'
  end.

(** Between two states of the sender: the events in between wrote some
    chunks on [client_sock], none empty, cut from the buffer one after the
    other from the position of the first state; the position, the count
    of chunks and the count of bytes moved on accordingly. *)
Definition sending (data_buffer : bytes) (s s' : State ClientVars) : Prop :=
  exists (n : nat) (evs : list event),
    trace (io s') = trace (io s) ++ evs
    /\ sent_on client_sock evs = chunks_from data_buffer (pos (vars s)) n
    /\ Forall (fun c => c <> []) (sent_on client_sock evs)
    /\ pos (vars s') = pos_after data_buffer (pos (vars s)) n
    /\ packet_count (vars s') = packet_count (vars s) + Z.of_nat n
    /\ total_bytes (vars s')
       = total_bytes (vars s) + total_len (sent_on client_sock evs).

(** The state in which [transmit_data] enters its loop. *)
Definition loop_entry (env : Env) (rate duration : Z)
    (use_nagle use_delayed_ack : bool) (s : State ClientVars)
    : State ClientVars :=
  mkState (mkClientVars 0 0 0 0 0)
    (io (at_pacing env rate duration use_nagle use_delayed_ack s)).

(** What the [except] clause of the sender prints for the way the loop
    ended. *)
Definition issue_events (o : outcome unit) : list event :=
  match o with
  | Raise e =>
      if is_Exception e then [EvPrint (MsgTransmissionIssue e)] else []
  | _ => []
  end.

(** The pacing interval of a rate that is not zero. *)
Definition interval_of (rate : Z) : Q :=
  (1 / (inject_Z rate / inject_Z chunk_size))%Q.

(** A local of the sender that a step leaves as it was. *)
Definition keeps (f : ClientVars -> Z) (s s' : State ClientVars) : Prop :=
  f (vars s') = f (vars s).

(** A world in which no wait for an acknowledgment times out. *)
Definition no_timeout (env : Env) : Prop :=
  forall n e, recv_out env n = RecvRaises e -> is_socket_timeout e = false.

(** A world in which no wait returns the token. *)
Definition no_token (env : Env) : Prop :=
  forall n data, recv_out env n = Received data -> bytes_eqb data ACK = false.

(** A world in which every wait times out. *)
Definition all_lost (env : Env) : Prop :=
  forall n, recv_out env n = RecvRaises socket_timeout.


(** The arguments for which the two conversions before the [try]
    statement succeed: [duration] has a float, and so has
    [rate / chunk_size]. *)
Definition floatable (rate duration : Z) : Prop :=
  fits_float (inject_Z duration) = true
  /\ fits_float (inject_Z rate / inject_Z chunk_size) = true.

(** * The experiment controller of task3

    A shallow embedding of [task3/run_experiment.py]: [parse_output],
    which reads the metrics back from what the client printed, the figures
    [compile_report] computes from the metrics of the four
    configurations, and the loop of [execute_experiment] that joins the
    two.  The text the client prints is rendered from the [print] events
    of the sender's trace.

    A Python [str] is modelled as [String.string], a character being a
    code point below 256; a [dict] as an association list in insertion
    order, with one entry per key. *)

(** ** Python strings *)

(** [s.startswith(k)] *)
Fixpoint starts_with (k s : String.string) : bool :=
  match k, s with
  | String.EmptyString, _ => true
  | String.String _ _, String.EmptyString => false
  | String.String c k', String.String d s' =>
      Ascii.eqb c d && starts_with k' s'
  end.

(** [k in s] *)
Fixpoint py_in (k s : String.string) : bool :=
  starts_with k s ||
  match s with
  | String.EmptyString => false
  | String.String _ s' => py_in k s'
  end.

(** [c.isspace()] for a code point below 256: tab to carriage return,
    the four separators 28 to 31, the space, NEL and the no-break
    space. *)
Definition isspace (c : Ascii.ascii) : bool :=
  let n := Ascii.N_of_ascii c in
  (((9 <=? n) && (n <=? 13)) || ((28 <=? n) && (n <=? 32)) ||
   (n =? 133) || (n =? 160))%N.

Definition is_empty (s : String.string) : bool :=
  match s with String.EmptyString => true | _ => false end.

Fixpoint lstrip_by (drop : Ascii.ascii -> bool) (s : String.string)
    : String.string :=
  match s with
  | String.EmptyString => String.EmptyString
  | String.String c s' => if drop c then lstrip_by drop s' else s
  end.

Fixpoint rstrip_by (drop : Ascii.ascii -> bool) (s : String.string)
    : String.string :=
  match s with
  | String.EmptyString => String.EmptyString
  | String.String c s' =>
      let r := rstrip_by drop s' in
      if is_empty r && drop c then String.EmptyString else String.String c r
  end.

(** [s.strip()] *)
Definition strip (s : String.string) : String.string :=
  rstrip_by isspace (lstrip_by isspace s).

(** [s.rstrip(c)] for a one-character [c] *)
Definition rstrip_char (c : Ascii.ascii) (s : String.string) : String.string :=
  rstrip_by (Ascii.eqb c) s.

(** [s.split(sep)] for a one-character [sep]: one more field than there
    are separators. *)
Fixpoint split_on (sep : Ascii.ascii) (s : String.string)
    : list String.string :=
  match s with
  | String.EmptyString => [String.EmptyString]
  | String.String c s' =>
      if Ascii.eqb c sep then String.EmptyString :: split_on sep s'
      else
        match split_on sep s' with
        | field :: fields => String.String c field :: fields
        | [] => [String.String c String.EmptyString]
        end
  end.

(** [s.split()]: the maximal runs of characters that are not
    whitespace. *)
Fixpoint split_ws (s : String.string) : list String.string :=
  match s with
  | String.EmptyString => []
  | String.String c s' =>
      if isspace c then split_ws s'
      else
        match s' with
        | String.EmptyString => [String.String c String.EmptyString]
        | String.String d _ =>
            if isspace d then String.String c String.EmptyString :: split_ws s'
            else
              match split_ws s' with
              | word :: words => String.String c word :: words
              | [] => [String.String c String.EmptyString]
              end
        end
  end.

(** The line feed *)
Definition newline : String.string :=
  String.String "010"%char String.EmptyString.

(** [str(n)] of an int *)
Definition str_int (n : Z) : String.string :=
  DecimalString.NilZero.string_of_int (Z.to_int n).

(** ** Python dicts *)

Definition dict (V : Type) : Type := list (String.string * V).

(** [d.get(k, default)] *)
Fixpoint dict_get {V} (k : String.string) (d : dict V) (default : V) : V :=
  match d with
  | [] => default
  | (k', v) :: d' => if String.eqb k k' then v else dict_get k d' default
  end.

(** [d[k] = v] *)
Fixpoint dict_set {V} (k : String.string) (v : V) (d : dict V) : dict V :=
  match d with
  | [] => [(k, v)]
  | (k', v') :: d' =>
      if String.eqb k k' then (k, v) :: d' else (k', v') :: dict_set k v d'
  end.

(** [k in d] *)
Fixpoint has_key {V} (k : String.string) (d : dict V) : bool :=
  match d with
  | [] => false
  | (k', _) :: d' => String.eqb k k' || has_key k d'
  end.

(** A metric is a float or an int. *)
Inductive value : Type :=
| PyFloat (x : Q)
| PyInt (n : Z).

Definition number (v : value) : Q :=
  match v with PyFloat x => x | PyInt n => inject_Z n end.

Definition Metrics : Type := dict value.

(** Sequencing of pure code that may raise. *)
Definition and_then {A B} (o : outcome A) (k : A -> outcome B) : outcome B :=
  match o with
  | Ret a => k a
  | Raise e => Raise e
  | OutOfFuel => OutOfFuel
  end.

(** [float(v)] as an operand or a format needs it: an int beyond the
    floats raises [OverflowError]. *)
Definition as_float (v : value) : outcome Q :=
  match v with
  | PyFloat x => Ret x
  | PyInt n =>
      if fits_float (inject_Z n) then Ret (inject_Z n)
      else Raise OverflowError
  end.

(** [a + b]: exact on two ints; a float with anything is a float, the
    int converted first. *)
Definition py_add (a b : value) : outcome value :=
  match a, b with
  | PyInt m, PyInt n => Ret (PyInt (m + n))
  | _, _ =>
      and_then (as_float a) (fun x =>
      and_then (as_float b) (fun y => Ret (PyFloat (x + y))))
  end.

(** [sum(vs)]: from the int 0, one [+] after the other. *)
Definition py_sum (vs : list value) : outcome value :=
  fold_left (fun total v => and_then total (fun t => py_add t v)) vs
            (Ret (PyInt 0)).

(** [a / n] for an int [n]: the quotient of two ints as a float, or the
    division of a float by [n] converted. *)
Definition div_by_int (a : value) (n : Z) : outcome Q :=
  match a with
  | PyInt m =>
      if n =? 0 then Raise ZeroDivisionError
      else if fits_float (inject_Z m / inject_Z n)
           then Ret (inject_Z m / inject_Z n)%Q
           else Raise OverflowError
  | PyFloat x =>
      if fits_float (inject_Z n)
      then if n =? 0 then Raise ZeroDivisionError else Ret (x / inject_Z n)%Q
      else Raise OverflowError
  end.

(** ** run_experiment.py, [parse_output] *)

(** The labels [parse_output] looks for, in the order of its tests. *)
Definition metric_labels : list String.string :=
  ["Throughput:"; "Goodput:"; "Packet loss rate:"; "Bytes sent:";
   "Packets sent:"]%string.

Section Parsing.

(** [float(s)] and [int(s)]; [None] when the call raises [ValueError]. *)
Variable py_float : String.string -> option Q.
Variable py_int : String.string -> option Z.

(** [line.split(':')[1]]; [None] is the [IndexError]. *)
Definition after_colon (line : String.string) : option String.string :=
  nth_error (split_on ":"%char line) 1.

(** Lines 57 and 62: [float(line.split(':')[1].strip().split()[0])];
    [None] when the expression raises. *)
Definition first_float (line : String.string) : option Q :=
  match after_colon line with
  | None => None
  | Some field =>
      match nth_error (split_ws (strip field)) 0 with
      | None => None
      | Some word => py_float word
      end
  end.

(** Lines 67-68: the percentage. *)
Definition percentage (line : String.string) : option Q :=
  match after_colon line with
  | None => None
  | Some field =>
      let pl_val := rstrip_char "%"%char (strip field) in
      match py_float pl_val with
      | None => None
      | Some x => Some (x / 100)%Q
      end
  end.

(** Lines 73 and 78: [int(line.split(':')[1].strip())]. *)
Definition whole_field (line : String.string) : option Z :=
  match after_colon line with
  | None => None
  | Some field => py_int (strip field)
  end.

(** Lines 55-83: the body of the loop, for one line. *)
Definition parse_line (metrics : Metrics) (line : String.string) : Metrics :=
  if py_in "Throughput:" line then
    match first_float line with
    | Some x => dict_set "throughput" (PyFloat x) metrics
    | None => dict_set "throughput" (PyFloat 0) metrics
    end
  else if py_in "Goodput:" line then
    match first_float line with
    | Some x => dict_set "goodput" (PyFloat x) metrics
    | None => dict_set "goodput" (PyFloat 0) metrics
    end
  else if py_in "Packet loss rate:" line then
    match percentage line with
    | Some x => dict_set "packet_loss_rate" (PyFloat x) metrics
    | None => dict_set "packet_loss_rate" (PyFloat 0) metrics
    end
  else if py_in "Bytes sent:" line then
    match whole_field line with
    | Some n => dict_set "bytes_sent" (PyInt n) metrics
    | None => dict_set "bytes_sent" (PyInt 0) metrics
    end
  else if py_in "Packets sent:" line then
    match whole_field line with
    | Some pkt =>
        let metrics1 := dict_set "packets_sent" (PyInt pkt) metrics in
        if 0 <? pkt then
          match div_by_int (dict_get "bytes_sent" metrics1 (PyInt 0)) pkt with
          | Ret q => dict_set "avg_packet_size" (PyFloat q) metrics1
          | _ =>
              dict_set "avg_packet_size" (PyFloat 0)
                (dict_set "packets_sent" (PyInt 0) metrics1)
          end
        else dict_set "avg_packet_size" (PyFloat 0) metrics1
    | None =>
        dict_set "avg_packet_size" (PyFloat 0)
          (dict_set "packets_sent" (PyInt 0) metrics)
    end
  else metrics.

(** run_experiment.py, [parse_output] *)
Definition parse_output (raw_output : String.string) : Metrics :=
  fold_left parse_line (split_on "010"%char (strip raw_output)) [].

End Parsing.

(** ** What the client prints *)

Section ClientText.

(** The address as the f-string of line 25 shows it, the port, the
    formats [.2f] and [.2%] of a float, and [str(err)]. *)
Variable server_addr : String.string.
Variable port_number : Z.
Variable fmt_2f : Q -> String.string.
Variable fmt_pct : Q -> String.string.
Variable str_exn : exn -> String.string.

(** The text of each message of the client, as [print] gets it;
    [None] for the messages of the server. *)
Definition client_text (m : message) : option String.string :=
  match m with
  | MsgQuickackNotSupportedOnPlatform =>
      Some "TCP_QUICKACK not supported on this platform"%string
  | MsgConnected =>
      Some ("Connected to " ++ server_addr ++ ":" ++ str_int port_number)%string
  | MsgNagle on =>
      Some ("Nagle's algorithm is "
            ++ if on then "active" else "inactive")%string
  | MsgDelayedAck on =>
      Some ("Delayed ACK is " ++ if on then "active" else "inactive")%string
  | MsgScheduled rate duration =>
      Some ("Transfer scheduled at " ++ str_int rate ++ " B/s for "
            ++ str_int duration ++ " sec")%string
  | MsgTransmissionIssue err =>
      Some ("Transmission issue: " ++ str_exn err)%string
  | MsgTransferFinished r =>
      Some (newline ++ "Transfer finished" ++ newline
            ++ "Elapsed time: " ++ fmt_2f (time r) ++ " sec" ++ newline
            ++ "Total bytes sent: " ++ str_int (res_bytes r) ++ newline
            ++ "Packets transmitted: " ++ str_int (packets r) ++ newline
            ++ "ACKs confirmed: " ++ str_int (acks r) ++ newline
            ++ "Achieved throughput: " ++ fmt_2f (throughput r) ++ " B/s"
            ++ newline
            ++ "Effective goodput: " ++ fmt_2f (goodput r) ++ " B/s"
            ++ newline
            ++ "Packet loss: " ++ fmt_pct (loss r))%string
  | _ => None
  end.

(** The standard output of a client whose trace is [tr]: each [print]
    ends its text with a newline. *)
Fixpoint client_stdout (tr : list event) : String.string :=
  match tr with
  | [] => String.EmptyString
  | EvPrint m :: tr' =>
      match client_text m with
      | Some text => (text ++ newline ++ client_stdout tr')%string
      | None => client_stdout tr'
      end
  | _ :: tr' => client_stdout tr'
  end.

End ClientText.

(** ** run_experiment.py, [compile_report] *)

(** [a / b] on floats *)
Definition truediv (a b : Q) : outcome Q :=
  if Qeq_bool b 0 then Raise ZeroDivisionError else Ret (a / b)%Q.

(** [max(a, b)]: the first of the largest *)
Definition max2 (a b : Q) : Q := if Qltb a b then b else a.

(** [max(items, key=key)]: the first item with the largest key;
    [ValueError] on an empty sequence. *)
Fixpoint max_from {A} (key : A -> Q) (best : A) (items : list A) : A :=
  match items with
  | [] => best
  | x :: items' =>
      max_from key (if Qltb (key best) (key x) then x else best) items'
  end.

Definition max_by {A} (key : A -> Q) (items : list A) : outcome A :=
  match items with
  | [] => Raise ValueError
  | x :: items' => Ret (max_from key x items')
  end.

(** [stats.get(key, 0)] as a number *)
Definition stat (key : String.string) (stats : Metrics) : Q :=
  number (dict_get key stats (PyInt 0)).

(** Lines 98-99, 110-111: the configurations whose name contains
    [part]. *)
Definition named (part : String.string) (result_data : dict Metrics)
    : dict Metrics :=
  filter (fun kv => py_in part (fst kv)) result_data.

(** The keys whose values line 94-95 format as floats. *)
Definition formatted_keys : list String.string :=
  ["throughput"; "goodput"; "packet_loss_rate"; "avg_packet_size"]%string.

(** Lines 93-95: a row of the table; formatting converts each of the
    four values to a float. *)
Definition format_row (stats : Metrics) : outcome unit :=
  fold_left
    (fun done key =>
       and_then done (fun _ =>
       and_then (as_float (dict_get key stats (PyInt 0))) (fun _ => Ret tt)))
    formatted_keys (Ret tt).

Definition format_rows (result_data : dict Metrics) : outcome unit :=
  fold_left (fun done kv => and_then done (fun _ => format_row (snd kv)))
            result_data (Ret tt).

(** Lines 101-102, 113-114: the mean throughput of a selection, 0 for an
    empty one.  The length of a dict always has a float. *)
Definition avg_throughput (selection : dict Metrics) : outcome Q :=
  match selection with
  | [] => Ret 0%Q
  | _ =>
      and_then
        (py_sum (map (fun kv => dict_get "throughput" (snd kv) (PyInt 0))
                     selection))
        (fun total =>
           match total with
           | PyInt m =>
               div_by_int (PyInt m) (Z.of_nat (length selection))
           | PyFloat x =>
               truediv x (inject_Z (Z.of_nat (length selection)))
           end)
  end.

(** What the report says of an option. *)
Record Effect : Type := mkEffect {
  avg_on : Q;
  avg_off : Q;
  increases : bool;
  difference : Q;
  relative : Q
}.

(** Lines 98-107 and 110-119. *)
Definition effect_of (on off : String.string) (result_data : dict Metrics)
    : outcome Effect :=
  and_then (avg_throughput (named on result_data)) (fun a_on =>
  and_then (avg_throughput (named off result_data)) (fun a_off =>
  and_then (truediv (Qabs (a_on - a_off)) (max2 a_off (1 # 1000))) (fun rel =>
  Ret (mkEffect a_on a_off (Qltb a_off a_on) (Qabs (a_on - a_off)) rel)))).

(** The figures of the report. *)
Record Report : Type := mkReport {
  nagle_effect : Effect;
  delack_effect : Effect;
  best_config : String.string * Metrics
}.

(** run_experiment.py, [compile_report]: the figures it writes, after
    the rows of the table. *)
Definition compile_report (result_data : dict Metrics) : outcome Report :=
  and_then (format_rows result_data) (fun _ =>
  and_then (effect_of "nagle_on" "nagle_off" result_data) (fun nagle_part =>
  and_then (effect_of "delack_on" "delack_off" result_data) (fun delack_part =>
  and_then (max_by (fun kv => stat "goodput" (snd kv)) result_data) (fun best =>
  Ret (mkReport nagle_part delack_part best))))).

(** ** run_experiment.py, [execute_experiment] *)

Record Config : Type := mkConfig {
  nagle : Z;
  delayed_ack : Z;
  name : String.string
}.

(** Lines 152-157. *)
Definition config_list : list Config :=
  [mkConfig 1 1 "nagle_on_delack_on"; mkConfig 1 0 "nagle_on_delack_off";
   mkConfig 0 1 "nagle_off_delack_on"; mkConfig 0 0 "nagle_off_delack_off"].

Section Experiment.

Variable py_float : String.string -> option Q.
Variable py_int : String.string -> option Z.

(** What [cli_host.cmd] returns for a configuration. *)
Variable output : Config -> String.string.

(** Lines 45-50: the metrics of one configuration. *)
Definition run_single_config (conf : Config) : Metrics :=
  parse_output py_float py_int (output conf).

(** Lines 160-164. *)
Definition compiled_results : dict Metrics :=
  fold_left (fun results cfg => dict_set (name cfg) (run_single_config cfg) results)
            config_list [].

(** Lines 162-170: the figures of the report of the experiment. *)
Definition execute_experiment : outcome Report :=
  compile_report compiled_results.

End Experiment.

(** ** Vocabulary for texts *)

(** [c.isupper()] for an ASCII letter *)
Definition is_upper (c : Ascii.ascii) : bool :=
  let n := Ascii.N_of_ascii c in ((65 <=? n) && (n <=? 90))%N.

(** A text without capital letters. *)
Fixpoint no_upper (s : String.string) : bool :=
  match s with
  | String.EmptyString => true
  | String.String c s' => negb (is_upper c) && no_upper s'
  end.

(** A text that begins with a capital letter. *)
Definition starts_upper (s : String.string) : bool :=
  match s with
  | String.EmptyString => false
  | String.String c _ => is_upper c
  end.

(** [c in s] for a character *)
Fixpoint has_char (c : Ascii.ascii) (s : String.string) : bool :=
  match s with
  | String.EmptyString => false
  | String.String d s' => Ascii.eqb c d || has_char c s'
  end.

(** [k] and [s] differ at a position both have. *)
Fixpoint clash (k s : String.string) : bool :=
  match k, s with
  | String.String c k', String.String d s' =>
      if Ascii.eqb c d then clash k' s' else true
  | _, _ => false
  end.

(** No occurrence of [k] begins inside [a], whatever follows [a]. *)
Fixpoint no_overlap (k a : String.string) : bool :=
  match a with
  | String.EmptyString => true
  | String.String _ a' => clash k a && no_overlap k a'
  end.

(** The keys of a dict are told apart from [k]. *)
Definition same_keys {V} (d d' : dict V) : Prop :=
  forall k, has_key k d' = has_key k d.

(** No character of [s] is one [drop] takes. *)
Fixpoint none_of (drop : Ascii.ascii -> bool) (s : String.string) : bool :=
  match s with
  | String.EmptyString => true
  | String.String c s' => negb (drop c) && none_of drop s'
  end.

(** A number as a printed line shows it: one word, without a colon, a
    percent sign or a capital letter. *)
Definition is_word (w : String.string) : Prop :=
  w <> String.EmptyString /\ none_of isspace w = true
  /\ has_char ":"%char w = false /\ has_char "%"%char w = false
  /\ no_upper w = true.

(** The keys [parse_output] may set. *)
Definition metric_keys : list String.string :=
  ["throughput"; "goodput"; "packet_loss_rate"; "bytes_sent"; "packets_sent";
   "avg_packet_size"]%string.

(** A value that is a float or the int 0. *)
Definition float_or_zero (v : value) : bool :=
  match v with PyFloat _ => true | PyInt n => n =? 0 end.

(** Metrics whose formatted values are floats wherever they are present,
    as [parse_output] stores them. *)
Definition floats_only (stats : Metrics) : bool :=
  forallb (fun key => float_or_zero (dict_get key stats (PyInt 0)))
          formatted_keys.

(** An outcome of pure code that is a result or an [OverflowError]. *)
Definition overflow_or_ret {A} (o : outcome A) : Prop :=
  match o with
  | Ret _ => True
  | Raise e => e = OverflowError
  | OutOfFuel => False
  end.

(** * Properties *)

Lemma Qltb_lt a b : Qltb a b = true <-> (a < b)%Q.
Proof.
  unfold Qltb. rewrite negb_true_iff. split; intro H.
  - apply Qnot_le_lt. intro L. apply Qle_bool_iff in L. congruence.
  - destruct (Qle_bool b a) eqn:E; [|reflexivity].
    apply Qle_bool_iff in E. exfalso. exact (Qlt_not_le _ _ H E).
Qed.

Lemma Qltb_nlt a b : Qltb a b = false <-> ~ (a < b)%Q.
Proof.
  rewrite <- Qltb_lt. destruct (Qltb a b); split; congruence.
Qed.

(** Unfolds the monad's plumbing, so that a run computes. *)
Ltac run_py :=
  unfold bind, ret, raise, try_except, try_finally, try_finally_return,
    get_vars, set_vars, assign, out_of_fuel, call, print, emit, close,
    settimeout, setsockopt, socket_socket, time_time in *.

Lemma closes_app sk tr1 tr2 :
  closes sk (tr1 ++ tr2) = (closes sk tr1 + closes sk tr2)%nat.
Proof. unfold closes. now rewrite filter_app, length_app. Qed.

(** ** The socket-option step *)

(** C6. With delayed acknowledgments switched off on a platform that has
    no [TCP_QUICKACK], the option step of the sender and that of the
    receiver both return normally: the lookup's [AttributeError] is caught,
    a warning is printed, no quick-acknowledgment option is set, and the
    only other effect is the [TCP_NODELAY] option when Nagle is off. *)
Theorem quickack_unsupported_is_not_fatal
    (env : Env) (L : Type) (sk : sock) (use_nagle : bool) (s : State L) :
  has_TCP_QUICKACK env = false ->
  let nodelay := if use_nagle then [] else [EvSetsockopt sk TCP_NODELAY] in
  let after (warning : message) :=
    mkState (vars s)
      (mkIO (n_time (io s)) (n_send (io s)) (n_recv (io s))
            (trace (io s) ++ nodelay ++ [EvPrint warning])) in
  set_client_options env sk use_nagle false s
    = (Ret tt, after MsgQuickackNotSupportedOnPlatform)
  /\ adjust_socket_options env sk use_nagle false s
    = (Ret tt, after MsgQuickackNotSupportedOnSystem).
Proof.
  intros Hq.
  unfold set_client_options, adjust_socket_options, socket_TCP_QUICKACK.
  rewrite Hq.
  destruct use_nagle; run_py; cbn; rewrite <- ?app_assoc; split; reflexivity.
Qed.

Lemma quickack_unsupported_is_not_fatal_witness :
  set_client_options env_no_quickack client_sock false false
      (fresh unbound_client)
    = (Ret tt,
       mkState unbound_client
         (mkIO 0 0 0 [EvSetsockopt client_sock TCP_NODELAY;
                      EvPrint MsgQuickackNotSupportedOnPlatform]))
  /\ adjust_socket_options env_no_quickack srv_socket false false
      (fresh unbound_server)
    = (Ret tt,
       mkState unbound_server
         (mkIO 0 0 0 [EvSetsockopt srv_socket TCP_NODELAY;
                      EvPrint MsgQuickackNotSupportedOnSystem])).
Proof.
  split.
  - exact (proj1 (@quickack_unsupported_is_not_fatal env_no_quickack _
                    client_sock false (fresh unbound_client) eq_refl)).
  - exact (proj2 (@quickack_unsupported_is_not_fatal env_no_quickack _
                    srv_socket false (fresh unbound_server) eq_refl)).
Defined.

(** ** Running straight-line code *)

Lemma push_push L (a b : list event) (s : State L) :
  push b (push a s) = push (a ++ b) s.
Proof. unfold push. cbn. now rewrite app_assoc. Qed.

Lemma push_nil L (s : State L) : push [] s = s.
Proof. unfold push. rewrite app_nil_r. now destruct s as [v []]. Qed.

Lemma bind_of_ret L A B (m : M L A) (k : A -> M L B) s a s1 :
  m s = (Ret a, s1) -> bind m k s = k a s1.
Proof. intros H. unfold bind. now rewrite H. Qed.

Lemma bind_of_raise L A B (m : M L A) (k : A -> M L B) s e s1 :
  m s = (Raise e, s1) -> bind m k s = (Raise e, s1).
Proof. intros H. unfold bind. now rewrite H. Qed.

Lemma emit_runs L e (s : State L) : emit e s = (Ret tt, push [e] s).
Proof. reflexivity. Qed.


(** ** Relations that every step of a computation keeps *)

Section Stable.

Context {L : Type}.
Variable R : State L -> State L -> Prop.
Context {R_preorder : PreOrder R}.

Lemma stable_ret A (a : A) : stable R (ret a).
Proof. intros s o s' H. inversion H. reflexivity. Qed.

Lemma stable_raise A (e : exn) : stable R (@raise L A e).
Proof. intros s o s' H. inversion H. reflexivity. Qed.

Lemma stable_out_of_fuel A : stable R (@out_of_fuel L A).
Proof. intros s o s' H. inversion H. reflexivity. Qed.

Lemma stable_get_vars : stable R (@get_vars L).
Proof. intros s o s' H. inversion H. reflexivity. Qed.

Lemma stable_bind A B (m : M L A) (k : A -> M L B) :
  stable R m -> (forall a, stable R (k a)) -> stable R (bind m k).
Proof.
  intros Hm Hk s o s' H. unfold bind in H.
  destruct (m s) as [[a|e|] s1] eqn:E.
  - etransitivity; [eapply Hm; eassumption | eapply Hk; eassumption].
  - inversion H; subst. eapply Hm; eassumption.
  - inversion H; subst. eapply Hm; eassumption.
Qed.

Lemma stable_try_except A (body : M L A) catches handler :
  stable R body -> (forall e, stable R (handler e)) ->
  stable R (try_except body catches handler).
Proof.
  intros Hb Hh s o s' H. unfold try_except in H.
  destruct (body s) as [[a|e|] s1] eqn:E.
  - inversion H; subst. eapply Hb; eassumption.
  - destruct (catches e).
    + etransitivity; [eapply Hb; eassumption | eapply Hh; eassumption].
    + inversion H; subst. eapply Hb; eassumption.
  - inversion H; subst. eapply Hb; eassumption.
Qed.

Lemma stable_try_finally A (body : M L A) fin :
  stable R body -> stable R fin -> stable R (try_finally body fin).
Proof.
  intros Hb Hf s o s' H. unfold try_finally in H.
  destruct (body s) as [[a|e|] s1] eqn:E.
  3: inversion H; subst; eapply Hb; eassumption.
  all: destruct (fin s1) as [[u|e'|] s2] eqn:F; inversion H; subst;
    (etransitivity; [eapply Hb; eassumption | eapply Hf; eassumption]).
Qed.

Lemma stable_try_finally_return A B (body : M L A) (fin : M L B) :
  stable R body -> stable R fin -> stable R (try_finally_return body fin).
Proof.
  intros Hb Hf s o s' H. unfold try_finally_return in H.
  destruct (body s) as [[a|e|] s1] eqn:E.
  3: inversion H; subst; eapply Hb; eassumption.
  all: etransitivity; [eapply Hb; eassumption | eapply Hf; eassumption].
Qed.

End Stable.

Create HintDb stable.
#[export] Hint Resolve stable_ret stable_raise stable_out_of_fuel
  stable_get_vars stable_bind stable_try_except stable_try_finally
  stable_try_finally_return : stable.
#[export] Hint Extern 1 (PreOrder _) => exact _ : stable.

(** ** Relations kept by the calls into the world *)

Section Steps.

Context {L : Type}.
Variable R : State L -> State L -> Prop.
Context {R_preorder : PreOrder R}.

(** [R] does not look at events other than [close()], at the locals, or
    at how many writes and reads were made. *)
Hypothesis R_push :
  forall e s, (forall sk, e <> EvClose sk) -> R s (push [e] s).
Hypothesis R_assign : forall f s, R s (mkState (f (vars s)) (io s)).
Hypothesis R_send_called : forall s, R s (send_called s).
Hypothesis R_recv_called : forall s, R s (recv_called s).

Lemma step_emit e : (forall sk, e <> EvClose sk) -> stable R (@emit L e).
Proof using R_push.
  intros He s o s' H. inversion H; subst. now apply R_push.
Qed.

Lemma step_assign f : stable R (@assign L f).
Proof using R_assign. intros s o s' H. inversion H; subst. apply R_assign. Qed.

Lemma step_set_vars v : stable R (@set_vars L v).
Proof using R_assign.
  intros s o s' H. inversion H; subst. apply (R_assign (fun _ => v)).
Qed.

Lemma step_call out e :
  (forall sk, e <> EvClose sk) -> stable R (@call L out e).
Proof using R_push R_preorder.
  intros He. destruct out; cbn; [auto with stable | now apply step_emit].
Qed.

Lemma step_print m : stable R (@print L m).
Proof using R_push. apply step_emit. discriminate. Qed.

Lemma step_settimeout sk t : stable R (@settimeout L sk t).
Proof using R_push. apply step_emit. discriminate. Qed.

Lemma step_time_sleep secs : stable R (@time_sleep L secs).
Proof using R_push R_preorder.
  unfold time_sleep. destruct (Qltb secs 0); [auto with stable|].
  apply step_emit. discriminate.
Qed.

Lemma step_py_mod a b : stable R (@py_mod L a b).
Proof using R_preorder.
  unfold py_mod. destruct (b =? 0); auto with stable.
Qed.

Lemma step_sendall env sk data : stable R (@sendall env L sk data).
Proof using R_push R_send_called R_preorder.
  intros s o s' H. unfold sendall in H.
  transitivity (send_called s); [apply R_send_called|].
  eapply step_call; [|exact H]. discriminate.
Qed.

Lemma step_recv env sk n : stable R (@recv env L sk n).
Proof using R_push R_recv_called R_preorder.
  intros s o s' H. unfold recv in H.
  transitivity (recv_called s); [apply R_recv_called|].
  destruct (recv_out env (n_recv (io s))).
  - unfold bind in H. rewrite emit_runs in H. inversion H; subst.
    apply R_push. discriminate.
  - inversion H; subst. reflexivity.
Qed.

End Steps.

#[export] Hint Resolve step_assign step_set_vars step_print step_settimeout
  step_time_sleep step_py_mod step_sendall step_recv : stable.

(** The same for the two loops and what they are made of. *)
Section LoopSteps.

Variable env : Env.

Section Sender.

Variable R : State ClientVars -> State ClientVars -> Prop.
Context {R_preorder : PreOrder R}.
Hypothesis R_push :
  forall e s, (forall sk, e <> EvClose sk) -> R s (push [e] s).
Hypothesis R_assign : forall f s, R s (mkState (f (vars s)) (io s)).
Hypothesis R_send_called : forall s, R s (send_called s).
Hypothesis R_recv_called : forall s, R s (recv_called s).

Lemma step_ack_wait : stable R (ack_wait env).
Proof using R_push R_assign R_recv_called R_preorder.
  unfold ack_wait. apply stable_try_except; auto with stable.
  apply stable_bind; auto with stable. intros _.
  apply stable_bind; auto with stable. intros response.
  destruct (bytes_eqb response ACK); auto with stable.
Qed.

Lemma step_send_cycle data_buffer sleep_interval :
  stable R (send_cycle env data_buffer sleep_interval).
Proof using R_push R_assign R_send_called R_recv_called R_preorder.
  unfold send_cycle. apply stable_bind; auto with stable. intros v.
  destruct (py_slice _ _ _); auto with stable.
  pose proof step_ack_wait.
  repeat (apply stable_bind; auto with stable; intros).
Qed.

(** A relation kept by one pass and by reading the clock is kept by the
    whole loop. *)
Lemma stable_send_loop fuel data_buffer finish sleep_interval :
  stable R (send_cycle env data_buffer sleep_interval) ->
  (forall s, R s (clock_read s)) ->
  stable R (send_loop env fuel data_buffer finish sleep_interval).
Proof using R_preorder.
  intros R_cycle R_clock.
  induction fuel as [|fuel IH]; cbn [send_loop]; auto with stable.
  apply stable_bind; [exact _ | |].
  - intros s o s' H. inversion H; subst. apply R_clock.
  - intros now. destruct (Qltb now finish); auto with stable.
    apply stable_bind; [exact _ | apply R_cycle |].
    intros []; auto with stable.
Qed.

End Sender.

Section Receiver.

Variable R : State ServerVars -> State ServerVars -> Prop.
Context {R_preorder : PreOrder R}.
Hypothesis R_push :
  forall e s, (forall sk, e <> EvClose sk) -> R s (push [e] s).
Hypothesis R_assign : forall f s, R s (mkState (f (vars s)) (io s)).
Hypothesis R_send_called : forall s, R s (send_called s).
Hypothesis R_recv_called : forall s, R s (recv_called s).
Hypothesis R_clock : forall s, R s (clock_read s).

Lemma step_recv_loop fuel : stable R (recv_loop env fuel).
Proof using R_push R_assign R_send_called R_recv_called R_preorder.
  induction fuel as [|fuel IH]; cbn [recv_loop]; auto with stable.
  apply stable_bind; auto with stable. intros [|b packet]; auto with stable.
  all: repeat (apply stable_bind; auto with stable; intros).
Qed.

Lemma step_process_client fuel : stable R (process_client env fuel).
Proof using R_push R_assign R_send_called R_recv_called R_clock R_preorder.
  unfold process_client. pose proof (step_recv_loop fuel) as Hloop.
  assert (Hclock : stable R (@time_time env ServerVars)).
  { intros s o s' E. inversion E; subst. apply R_clock. }
  repeat (apply stable_bind; auto with stable; intros).
Qed.

End Receiver.

End LoopSteps.

(** ** Who closes what *)

#[export] Instance same_closes_preorder L sk : PreOrder (@same_closes L sk).
Proof.
  split.
  - intros s. reflexivity.
  - intros a b c. unfold same_closes. congruence.
Qed.

Lemma same_closes_push L sk e (s : State L) :
  (forall sk', e <> EvClose sk') -> same_closes sk s (push [e] s).
Proof.
  intros He. unfold same_closes, push. cbn [trace io].
  rewrite closes_app. unfold closes at 2. cbn [filter].
  replace (is_close sk e) with false; [cbn; lia|].
  destruct e; try reflexivity. exfalso. now apply (He s0).
Qed.

Lemma quiet_send_loop env sk fuel data_buffer finish sleep_interval :
  stable (same_closes sk)
         (send_loop env fuel data_buffer finish sleep_interval).
Proof.
  apply stable_send_loop; [exact _ | | reflexivity].
  intros. apply step_send_cycle; try exact _; try reflexivity.
  apply same_closes_push.
Qed.

Lemma quiet_process_client env sk fuel :
  stable (same_closes sk) (process_client env fuel).
Proof.
  apply step_process_client; try exact _; try reflexivity.
  apply same_closes_push.
Qed.

(** ** The option step and what it leaves in the trace *)

Lemma set_client_options_runs env L sk use_nagle use_delayed_ack
    (s : State L) :
  set_client_options env sk use_nagle use_delayed_ack s
  = (Ret tt,
     push (option_events env sk use_nagle use_delayed_ack
             MsgQuickackNotSupportedOnPlatform) s).
Proof.
  unfold set_client_options, option_events, socket_TCP_QUICKACK.
  destruct s as [v [nt ns nr tr]].
  destruct use_nagle, use_delayed_ack, (has_TCP_QUICKACK env); run_py;
    unfold push; cbn; rewrite <- ?app_assoc, ?app_nil_r; reflexivity.
Qed.

Lemma adjust_socket_options_runs env L sk use_nagle use_delayed_ack
    (s : State L) :
  adjust_socket_options env sk use_nagle use_delayed_ack s
  = (Ret tt,
     push (option_events env sk use_nagle use_delayed_ack
             MsgQuickackNotSupportedOnSystem) s).
Proof.
  unfold adjust_socket_options, option_events, socket_TCP_QUICKACK.
  destruct s as [v [nt ns nr tr]].
  destruct use_nagle, use_delayed_ack, (has_TCP_QUICKACK env); run_py;
    unfold push; cbn; rewrite <- ?app_assoc, ?app_nil_r; reflexivity.
Qed.

Lemma closes_option_events env sk sk' use_nagle use_delayed_ack warning :
  closes sk' (option_events env sk use_nagle use_delayed_ack warning) = 0%nat.
Proof.
  unfold option_events.
  destruct use_nagle, use_delayed_ack, (has_TCP_QUICKACK env); reflexivity.
Qed.

Lemma sent_on_option_events env sk sk' use_nagle use_delayed_ack warning :
  sent_on sk' (option_events env sk use_nagle use_delayed_ack warning) = [].
Proof.
  unfold option_events.
  destruct use_nagle, use_delayed_ack, (has_TCP_QUICKACK env); reflexivity.
Qed.

Lemma sent_on_app sk tr1 tr2 :
  sent_on sk (tr1 ++ tr2) = sent_on sk tr1 ++ sent_on sk tr2.
Proof.
  induction tr1 as [|e tr1 IH]; [reflexivity|].
  destruct e; cbn [sent_on app]; rewrite ?IH; try reflexivity.
  destruct (is_close _ _); reflexivity.
Qed.

(** ** The pacing interval *)

Lemma pacing_interval_zero (L : Type) (s : State L) :
  pacing_interval 0 s = (Raise ZeroDivisionError, s).
Proof. vm_compute. reflexivity. Qed.

Lemma pacing_interval_nonzero (L : Type) (rate : Z) (s : State L) :
  rate <> 0 ->
  fits_float (inject_Z rate / inject_Z chunk_size) = true ->
  pacing_interval rate s
  = (Ret (1 / (inject_Z rate / inject_Z chunk_size))%Q, s).
Proof.
  intros Hr Hf. unfold pacing_interval, py_int_truediv, py_truediv, bind.
  change (chunk_size =? 0) with false. cbv iota. rewrite Hf.
  unfold ret at 1.
  destruct (Qeq_bool (inject_Z rate / inject_Z chunk_size) 0) eqn:E.
  - apply Qeq_bool_eq in E. exfalso.
    unfold Qeq, Qdiv, Qmult, Qinv, inject_Z, chunk_size in E. simpl in E. lia.
  - reflexivity.
Qed.

Lemma pacing_interval_overflow (L : Type) (rate : Z) (s : State L) :
  fits_float (inject_Z rate / inject_Z chunk_size) = false ->
  pacing_interval rate s = (Raise OverflowError, s).
Proof.
  intros Hf. unfold pacing_interval, py_int_truediv, bind.
  change (chunk_size =? 0) with false. cbv iota. rewrite Hf. reflexivity.
Qed.

Lemma py_float_of_int_fits (L : Type) (n : Z) (s : State L) :
  fits_float (inject_Z n) = true ->
  py_float_of_int n s = (Ret (inject_Z n), s).
Proof. intros H. unfold py_float_of_int. rewrite H. reflexivity. Qed.

Lemma py_float_of_int_overflow (L : Type) (n : Z) (s : State L) :
  fits_float (inject_Z n) = false ->
  py_float_of_int n s = (Raise OverflowError, s).
Proof. intros H. unfold py_float_of_int. rewrite H. reflexivity. Qed.


(** ** The sender up to its [try] statement *)

Lemma transmit_data_setup env fuel data_buffer rate duration
    use_nagle use_delayed_ack (s : State ClientVars) :
  connect_out env = None ->
  let start := clock env (n_time (io s)) in
  transmit_data env fuel data_buffer rate duration use_nagle
                use_delayed_ack s
  = (d <- py_float_of_int duration;;
     sleep_interval <- pacing_interval rate;;
     assign (set_pos 0);;
     guarded_transfer env fuel data_buffer start (start + d) sleep_interval)%py
      (at_pacing env rate duration use_nagle use_delayed_ack s).
Proof.
  intros Hc start. unfold transmit_data.
  unfold socket_socket, print, call. rewrite Hc.
  erewrite bind_of_ret by apply emit_runs.
  erewrite bind_of_ret by apply set_client_options_runs.
  do 5 (erewrite bind_of_ret by apply emit_runs).
  rewrite !push_push.
  reflexivity.
Qed.

Lemma transmit_data_unfold env fuel data_buffer rate duration
    use_nagle use_delayed_ack (s : State ClientVars) :
  connect_out env = None ->
  fits_float (inject_Z duration) = true ->
  let start := clock env (n_time (io s)) in
  transmit_data env fuel data_buffer rate duration use_nagle
                use_delayed_ack s
  = (sleep_interval <- pacing_interval rate;;
     assign (set_pos 0);;
     guarded_transfer env fuel data_buffer start
       (start + inject_Z duration) sleep_interval)%py
      (at_pacing env rate duration use_nagle use_delayed_ack s).
Proof.
  intros Hc Hd start. rewrite transmit_data_setup by assumption.
  erewrite bind_of_ret by (apply py_float_of_int_fits; exact Hd).
  reflexivity.
Qed.

(** Past the connection, with a rate that is not zero, [transmit_data] is
    its [try] statement. *)
Lemma transmit_data_enters_try env fuel data_buffer rate duration
    use_nagle use_delayed_ack (s : State ClientVars) :
  connect_out env = None -> rate <> 0 -> floatable rate duration ->
  let start := clock env (n_time (io s)) in
  exists s1,
    transmit_data env fuel data_buffer rate duration use_nagle
                  use_delayed_ack s
    = guarded_transfer env fuel data_buffer start
        (start + inject_Z duration)
        (1 / (inject_Z rate / inject_Z chunk_size)) s1
    /\ vars s1 = mkClientVars 0 0 0 0 0
    /\ closes client_sock (trace (io s1)) = closes client_sock (trace (io s)).
Proof.
  intros Hc Hr [Hd Hf] start. rewrite transmit_data_unfold by assumption.
  erewrite bind_of_ret by (apply pacing_interval_nonzero; assumption).
  eexists. split; [reflexivity|]. split; [reflexivity|].
  cbn [trace io at_pacing]. rewrite closes_app. unfold setup_events.
  rewrite !closes_app, closes_option_events. cbn. lia.
Qed.






(** ** Chunks and the end of the buffer *)

(** C2. A run that sends 103 chunks from the 4096-byte sample buffer, each
    of them acknowledged: the 103rd chunk is the 16 bytes [4080:4096] and
    nothing more, so it is not the 40-byte chunk that continues with bytes
    [0:24]; the position then moves on to 24 all the same, and the
    dictionary counts 4096 bytes sent although its goodput counts 40 bytes
    for each of the 103 acknowledged chunks. *)
Theorem chunk_103_is_cut_at_the_end_of_the_buffer :
  let run := transmit_data env_acked 200 sample_buffer 40 104 true true
               (fresh unbound_client) in
  let sent := sent_on client_sock (trace (io (snd run))) in
  length sent = 103%nat
  /\ nth 102 sent [] = py_slice sample_buffer 4080 4096
  /\ len (nth 102 sent []) = 16
  /\ nth 102 sent []
     <> py_slice sample_buffer 4080 4096 ++ py_slice sample_buffer 0 24
  /\ pos (vars (snd run)) = 24
  /\ exists r, fst run = Ret r
               /\ res_bytes r = 4096 /\ acks r = 103
               /\ (throughput r < goodput r)%Q.
Proof.
  cbv zeta.
  split; [vm_compute; reflexivity|].
  split; [vm_compute; reflexivity|].
  split; [vm_compute; reflexivity|].
  split.
  { intro H. apply (f_equal (@length _)) in H. vm_compute in H.
    discriminate. }
  split; [vm_compute; reflexivity|].
  eexists. split; [vm_compute; reflexivity|].
  split; [reflexivity|]. split; reflexivity.
Qed.

(** ** How the two [try] statements end *)

Lemma finalize_runs env start (s : State ClientVars) :
  let r := trial_result (clock env (n_time (io s)) - start) (vars s) in
  finalize env start s
  = (Ret r,
     push [EvPrint (MsgTransferFinished r); EvClose client_sock]
          (clock_read s)).
Proof.
  cbv zeta. unfold finalize, print, close.
  erewrite bind_of_ret by reflexivity.
  erewrite bind_of_ret by reflexivity.
  do 2 (erewrite bind_of_ret by apply emit_runs).
  rewrite push_push. reflexivity.
Qed.

Lemma guarded_transfer_runs env fuel data_buffer start finish sleep_interval
    (s : State ClientVars) o1 s1 :
  send_loop env fuel data_buffer finish sleep_interval s = (o1, s1) ->
  guarded_transfer env fuel data_buffer start finish sleep_interval s
  = match o1 with
    | Ret _ => finalize env start s1
    | Raise e =>
        if is_Exception e
        then finalize env start (push [EvPrint (MsgTransmissionIssue e)] s1)
        else finalize env start s1
    | OutOfFuel => (OutOfFuel, s1)
    end.
Proof.
  intros H. unfold guarded_transfer, try_finally_return, try_except.
  rewrite H. destruct o1 as [u|e|]; try reflexivity.
  destruct (is_Exception e); reflexivity.
Qed.

Lemma guarded_session_runs env fuel (s : State ServerVars) o1 s1 :
  process_client env fuel s = (o1, s1) ->
  guarded_session env fuel s
  = match o1 with
    | Ret _ => (Ret tt, push [EvClose client_conn; EvClose srv_socket] s1)
    | Raise e =>
        if is_Exception e
        then (Ret tt,
              push [EvPrint (MsgErrorOccurred e);
                    EvClose client_conn; EvClose srv_socket] s1)
        else (Raise e, push [EvClose client_conn; EvClose srv_socket] s1)
    | OutOfFuel => (OutOfFuel, s1)
    end.
Proof.
  intros H. unfold guarded_session, try_finally, try_except.
  rewrite H. destruct o1 as [[]|e|]; [| destruct (is_Exception e) eqn:E |];
    unfold print, close; rewrite ?emit_runs;
    try erewrite (@bind_of_ret _ _ _ (emit (EvClose client_conn)))
      by apply emit_runs;
    rewrite ?emit_runs, ?push_push; reflexivity.
Qed.

Lemma launch_server_unfold env fuel socket_port use_nagle use_delayed_ack
    (s : State ServerVars) :
  bind_out env = None -> listen_out env = None -> accept_out env = None ->
  launch_server env fuel socket_port use_nagle use_delayed_ack s
  = guarded_session env fuel
      (push (listen_events env socket_port use_nagle use_delayed_ack) s).
Proof.
  intros Hb Hl Ha. unfold launch_server, socket_socket, print, call.
  rewrite Hb, Hl, Ha.
  erewrite bind_of_ret by apply emit_runs.
  erewrite bind_of_ret by apply adjust_socket_options_runs.
  do 7 (erewrite bind_of_ret by apply emit_runs).
  rewrite !push_push. reflexivity.
Qed.

Lemma closes_push L sk evs (s : State L) :
  closes sk (trace (io (push evs s)))
  = (closes sk (trace (io s)) + closes sk evs)%nat.
Proof. unfold push. cbn [trace io]. apply closes_app. Qed.

Lemma closes_listen_events env sk socket_port use_nagle use_delayed_ack :
  closes sk (listen_events env socket_port use_nagle use_delayed_ack) = 0%nat.
Proof.
  unfold listen_events. rewrite !closes_app, closes_option_events.
  reflexivity.
Qed.

(** C4, as the code has it.  Once the sender is connected, its rate is
    not zero and the two conversions before the [try] statement succeed
    ([duration] and [rate / chunk_size] are within the floats), every way
    [transmit_data] ends returns the dictionary and has called
    [client_sock.close()] exactly once more; once the receiver has
    accepted, every way [launch_server] ends has called [close()] exactly
    once more on the accepted connection and on the listening socket. *)
Theorem sockets_closed_once_on_every_exit
    (env : Env) (fuel : nat) (data_buffer : bytes) (rate duration : Z)
    (socket_port : Z) (use_nagle use_delayed_ack : bool)
    (cs : State ClientVars) (ss : State ServerVars) :
  connect_out env = None -> rate <> 0 -> floatable rate duration ->
  bind_out env = None -> listen_out env = None -> accept_out env = None ->
  (forall o s',
      transmit_data env fuel data_buffer rate duration use_nagle
                    use_delayed_ack cs = (o, s') ->
      o <> OutOfFuel ->
      (exists r, o = Ret r)
      /\ closes client_sock (trace (io s'))
         = S (closes client_sock (trace (io cs))))
  /\ (forall o s',
      launch_server env fuel socket_port use_nagle use_delayed_ack ss
        = (o, s') ->
      o <> OutOfFuel ->
      closes client_conn (trace (io s'))
        = S (closes client_conn (trace (io ss)))
      /\ closes srv_socket (trace (io s'))
        = S (closes srv_socket (trace (io ss)))).
Proof.
  intros Hc Hr Hfl Hb Hl Ha. split.
  - intros o s' Hrun Ho.
    destruct (@transmit_data_enters_try env fuel data_buffer rate duration
                use_nagle use_delayed_ack cs Hc Hr Hfl)
      as (s1 & Heq & _ & Hcl).
    rewrite Heq in Hrun. clear Heq.
    match type of Hrun with
    | guarded_transfer _ _ _ _ ?f ?si _ = _ =>
        destruct (send_loop env fuel data_buffer f si s1) as [o1 s2] eqn:Hloop
    end.
    pose proof (@quiet_send_loop _ client_sock _ _ _ _ _ _ _ Hloop) as Hq.
    unfold same_closes in Hq.
    erewrite guarded_transfer_runs in Hrun by exact Hloop.
    assert (Hfin : forall s3, closes client_sock (trace (io s3))
                              = closes client_sock (trace (io s2)) ->
                   finalize env (clock env (n_time (io cs))) s3 = (o, s') ->
                   (exists r, o = Ret r)
                   /\ closes client_sock (trace (io s'))
                      = S (closes client_sock (trace (io cs)))).
    { intros s3 H3 Hf. rewrite finalize_runs in Hf. inversion Hf; subst.
      split; [eexists; reflexivity|].
      rewrite closes_push. cbn [clock_read trace io]. rewrite H3, Hq, Hcl.
      cbn. lia. }
    destruct o1 as [u|e|].
    + eapply Hfin; [reflexivity | exact Hrun].
    + destruct (is_Exception e).
      * eapply Hfin; [|exact Hrun]. rewrite closes_push. cbn. lia.
      * eapply Hfin; [reflexivity | exact Hrun].
    + inversion Hrun; subst. congruence.
  - intros o s' Hrun Ho.
    rewrite launch_server_unfold in Hrun by assumption.
    destruct (process_client env fuel
                (push (listen_events env socket_port use_nagle
                         use_delayed_ack) ss)) as [o1 s1] eqn:Hp.
    pose proof (@quiet_process_client _ client_conn _ _ _ _ Hp) as Hq1.
    pose proof (@quiet_process_client _ srv_socket _ _ _ _ Hp) as Hq2.
    unfold same_closes in Hq1, Hq2.
    rewrite closes_push, closes_listen_events in Hq1, Hq2.
    erewrite guarded_session_runs in Hrun by exact Hp.
    destruct o1 as [[]|e|].
    2: destruct (is_Exception e).
    all: inversion Hrun; subst; try congruence.
    all: rewrite !closes_push, Hq1, Hq2; cbn; lia.
Qed.

Lemma sockets_closed_once_on_every_exit_witness :
  closes client_sock
    (trace (io (snd (transmit_data env_session 10 [x00; x01]%byte 40 3
                       true true (fresh unbound_client))))) = 1%nat
  /\ closes client_conn
       (trace (io (snd (launch_server env_session 10 5000 true true
                          (fresh unbound_server))))) = 1%nat
  /\ closes srv_socket
       (trace (io (snd (launch_server env_session 10 5000 true true
                          (fresh unbound_server))))) = 1%nat.
Proof.
  assert (Hfl : floatable 40 3) by (split; vm_compute; reflexivity).
  destruct (@sockets_closed_once_on_every_exit env_session 10
              [x00; x01]%byte 40 3 5000 true true (fresh unbound_client)
              (fresh unbound_server) eq_refl ltac:(discriminate) Hfl
              eq_refl eq_refl eq_refl) as [Hs Hr].
  split.
  - refine (proj2 (Hs _ _ (surjective_pairing _) _)).
    intro H. vm_compute in H. discriminate.
  - refine (Hr _ _ (surjective_pairing _) _).
    intro H. vm_compute in H. discriminate.
Defined.

(** C4 as stated fails: with [rate = 0] the call ends by a
    [ZeroDivisionError] raised after the connection was made, and
    [client_sock.close()] was never called. *)
Lemma zero_rate_exit_leaves_socket_open :
  let run := transmit_data env_acked 10 [x00; x01]%byte 0 10 true true
               (fresh unbound_client) in
  fst run = Raise ZeroDivisionError
  /\ In (EvConnect client_sock) (trace (io (snd run)))
  /\ closes client_sock (trace (io (snd run))) <> 1%nat.
Proof.
  vm_compute. split; [reflexivity|]. split; [|discriminate].
  right. left. reflexivity.
Qed.

(** ** The sender's counters *)

Lemma py_slice_nonempty A (l : list A) lo hi :
  py_slice l lo hi <> [] -> len l <> 0.
Proof.
  intros H Hl. apply H. unfold len in Hl.
  destruct l; [|discriminate].
  unfold py_slice. now rewrite skipn_nil, firstn_nil.
Qed.

(** One pass through the loop body either leaves the counters alone (the
    buffer gave nothing, or the write raised), or counts one chunk sent and
    lets the wait decide what else is counted. *)
Lemma send_cycle_counts env data_buffer sleep_interval s o s' :
  send_cycle env data_buffer sleep_interval s = (o, s') ->
  (packet_count (vars s') = packet_count (vars s)
   /\ ack_count (vars s') = ack_count (vars s)
   /\ lost_count (vars s') = lost_count (vars s))
  \/ (packet_count (vars s') = packet_count (vars s) + 1
      /\ match recv_out env (n_recv (io s)) with
         | Received data =>
             lost_count (vars s') = lost_count (vars s)
             /\ ack_count (vars s')
                = ack_count (vars s) + (if bytes_eqb data ACK then 1 else 0)
         | RecvRaises e =>
             ack_count (vars s') = ack_count (vars s)
             /\ lost_count (vars s')
                = lost_count (vars s) + (if is_socket_timeout e then 1 else 0)
         end).
Proof.
  unfold send_cycle. intros H.
  unfold bind at 1 in H. unfold get_vars at 1 in H.
  destruct (py_slice data_buffer (pos (vars s)) (pos (vars s) + chunk_size))
    as [|b seg] eqn:Hseg.
  { inversion H; subst. left. auto. }
  assert (Hlen : (len data_buffer =? 0) = false).
  { apply Z.eqb_neq. eapply py_slice_nonempty. rewrite Hseg. discriminate. }
  unfold ack_wait, sendall, recv, py_mod, time_sleep in H.
  rewrite Hlen in H. run_py.
  destruct (sendall_out env (n_send (io s))); cbn in H.
  { inversion H; subst. left. auto. }
  right.
  destruct (recv_out env (n_recv (io s))) as [data|e]; cbn in H.
  - destruct (bytes_eqb data ACK); cbn in H;
      destruct (Qltb sleep_interval 0); cbn in H;
      inversion H; subst; cbn; lia.
  - destruct (is_socket_timeout e); cbn in H;
      [destruct (Qltb sleep_interval 0); cbn in H|];
      inversion H; subst; cbn; lia.
Qed.

#[export] Instance accounted_preorder : PreOrder accounted.
Proof.
  split.
  - intros s. unfold accounted. lia.
  - intros a b c. unfold accounted. lia.
Qed.

#[export] Instance balanced_preorder : PreOrder balanced.
Proof.
  split.
  - intros s. unfold balanced. lia.
  - intros a b c. unfold balanced. lia.
Qed.

Lemma accounted_send_cycle env data_buffer sleep_interval :
  stable accounted (send_cycle env data_buffer sleep_interval).
Proof.
  intros s o s' H. apply send_cycle_counts in H. unfold accounted.
  destruct H as [H | [Hp H]]; [lia|].
  destruct (recv_out env (n_recv (io s))) as [data|e].
  - destruct (bytes_eqb data ACK); lia.
  - destruct (is_socket_timeout e); lia.
Qed.

Lemma balanced_send_cycle env data_buffer sleep_interval :
  ack_or_timeout env ->
  stable balanced (send_cycle env data_buffer sleep_interval).
Proof.
  intros Henv s o s' H. apply send_cycle_counts in H. unfold balanced.
  destruct H as [H | [Hp H]]; [lia|].
  destruct (Henv (n_recv (io s))) as [E | E]; rewrite E in H; cbn in H; lia.
Qed.

Lemma accounted_send_loop env fuel data_buffer finish sleep_interval :
  stable accounted (send_loop env fuel data_buffer finish sleep_interval).
Proof.
  apply stable_send_loop; [exact _ | intros; apply accounted_send_cycle |].
  intros s. unfold accounted. cbn. lia.
Qed.

Lemma balanced_send_loop env fuel data_buffer finish sleep_interval :
  ack_or_timeout env ->
  stable balanced (send_loop env fuel data_buffer finish sleep_interval).
Proof.
  intros Henv. apply stable_send_loop; [exact _ | |].
  - intros. now apply balanced_send_cycle.
  - intros s. unfold balanced. cbn. lia.
Qed.

(** ** Completed trials *)

Lemma transmit_data_returns_inv env fuel data_buffer rate duration
    use_nagle use_delayed_ack (s : State ClientVars) r s' :
  transmit_data env fuel data_buffer rate duration use_nagle
                use_delayed_ack s = (Ret r, s') ->
  connect_out env = None /\ rate <> 0 /\ floatable rate duration.
Proof.
  intros H. destruct (connect_out env) as [e|] eqn:Hc.
  - exfalso. unfold transmit_data, socket_socket, call in H.
    rewrite Hc in H.
    erewrite bind_of_ret in H by apply emit_runs.
    erewrite bind_of_ret in H by apply set_client_options_runs.
    erewrite bind_of_raise in H by reflexivity.
    discriminate.
  - split; [reflexivity|].
    destruct (fits_float (inject_Z duration)) eqn:Hd.
    2:{ exfalso. rewrite transmit_data_setup in H by assumption.
        erewrite bind_of_raise in H
          by (apply py_float_of_int_overflow; exact Hd).
        discriminate. }
    rewrite transmit_data_unfold in H by assumption.
    destruct (fits_float (inject_Z rate / inject_Z chunk_size)) eqn:Hf.
    2:{ exfalso.
        erewrite bind_of_raise in H
          by (apply pacing_interval_overflow; exact Hf).
        discriminate. }
    split; [|split; assumption].
    intros ->.
    erewrite bind_of_raise in H by apply pacing_interval_zero.
    discriminate.
Qed.

(** A call of [transmit_data] that returns went through the loop from
    zeroed counters, and its dictionary is built from the counters the loop
    left and from the last clock reading minus the first. *)
Lemma completed_trial env fuel data_buffer rate duration
    use_nagle use_delayed_ack (s : State ClientVars) r s' :
  transmit_data env fuel data_buffer rate duration use_nagle
                use_delayed_ack s = (Ret r, s') ->
  exists s1 o1 s2 finish sleep_interval,
    vars s1 = mkClientVars 0 0 0 0 0
    /\ send_loop env fuel data_buffer finish sleep_interval s1 = (o1, s2)
    /\ vars s' = vars s2
    /\ r = trial_result
             (clock env (pred (n_time (io s'))) - clock env (n_time (io s)))
             (vars s').
Proof.
  intros H. pose proof H as Hinv.
  apply transmit_data_returns_inv in Hinv. destruct Hinv as (Hc & Hr & Hfl).
  destruct (@transmit_data_enters_try env fuel data_buffer rate duration
              use_nagle use_delayed_ack s Hc Hr Hfl) as (s1 & Heq & Hv & _).
  rewrite Heq in H. clear Heq.
  match type of H with
  | guarded_transfer _ _ _ _ ?f ?si _ = _ =>
      destruct (send_loop env fuel data_buffer f si s1) as [o1 s2] eqn:Hloop;
      exists s1, o1, s2, f, si
  end.
  split; [exact Hv|]. split; [exact Hloop|].
  erewrite guarded_transfer_runs in H by exact Hloop.
  assert (Hfin : forall s3, vars s3 = vars s2 ->
                 finalize env (clock env (n_time (io s))) s3 = (Ret r, s') ->
                 vars s' = vars s2
                 /\ r = trial_result
                          (clock env (pred (n_time (io s')))
                           - clock env (n_time (io s))) (vars s')).
  { intros s3 H3 Hf. rewrite finalize_runs in Hf. inversion Hf; subst.
    cbn. rewrite H3. split; reflexivity. }
  destruct o1 as [u|e|].
  - apply (Hfin s2); [reflexivity | exact H].
  - destruct (is_Exception e).
    + eapply Hfin; [|exact H]. reflexivity.
    + apply (Hfin s2); [reflexivity | exact H].
  - discriminate.
Qed.

Lemma completed_trial_accounted env fuel data_buffer rate duration
    use_nagle use_delayed_ack (s : State ClientVars) r s' :
  transmit_data env fuel data_buffer rate duration use_nagle
                use_delayed_ack s = (Ret r, s') ->
  0 <= ack_count (vars s')
  /\ 0 <= lost_count (vars s')
  /\ ack_count (vars s') + lost_count (vars s') <= packet_count (vars s')
  /\ (ack_or_timeout env ->
      packet_count (vars s') = ack_count (vars s') + lost_count (vars s')).
Proof.
  intros H.
  apply completed_trial in H.
  destruct H as (s1 & o1 & s2 & f & si & Hv & Hloop & Hv' & _).
  pose proof Hloop as Ha. apply accounted_send_loop in Ha.
  unfold accounted in Ha. rewrite Hv', Hv in *. cbn in Ha.
  repeat split; try lia.
  intros Henv. pose proof Hloop as Hb.
  eapply balanced_send_loop in Hb; [|exact Henv]. unfold balanced in Hb. rewrite Hv in Hb. cbn in Hb. lia.
Qed.

Lemma returned_eq L A (run : outcome A * State L) a :
  returned run = Some a -> run = (Ret a, snd run).
Proof.
  unfold returned. destruct run as [[b|e|] s]; cbn; intros H;
    inversion H; reflexivity.
Qed.

(** C1, as the code has it.  When [transmit_data] returns, the chunks
    counted as acknowledged and as lost are together at most the chunks
    sent, and they are exactly the chunks sent when every wait for an
    acknowledgment either saw the token or timed out.  The dictionary's
    [packets] and [acks] are those final counters. *)
Theorem sent_chunks_acked_or_lost
    (env : Env) (fuel : nat) (data_buffer : bytes) (rate duration : Z)
    (use_nagle use_delayed_ack : bool) (s : State ClientVars)
    (r : Result) (s' : State ClientVars) :
  transmit_data env fuel data_buffer rate duration use_nagle
                use_delayed_ack s = (Ret r, s') ->
  ack_count (vars s') + lost_count (vars s') <= packet_count (vars s')
  /\ (ack_or_timeout env ->
      packet_count (vars s') = ack_count (vars s') + lost_count (vars s'))
  /\ packets r = packet_count (vars s')
  /\ acks r = ack_count (vars s').
Proof.
  intros H. pose proof H as Hacc. apply completed_trial_accounted in Hacc.
  apply completed_trial in H.
  destruct H as (_ & _ & _ & _ & _ & _ & _ & _ & ->).
  destruct Hacc as (_ & _ & Hle & Heq). auto.
Qed.

Lemma sent_chunks_acked_or_lost_witness :
  let run := transmit_data env_acked 10 [x00; x01]%byte 40 3 true true
               (fresh unbound_client) in
  packet_count (vars (snd run)) = 2
  /\ packet_count (vars (snd run))
     = ack_count (vars (snd run)) + lost_count (vars (snd run)).
Proof.
  intros run. split; [reflexivity|].
  assert (H : exists r, returned run = Some r)
    by (vm_compute; eexists; reflexivity).
  destruct H as [r H]. apply returned_eq in H.
  destruct (@sent_chunks_acked_or_lost env_acked 10 [x00; x01]%byte 40 3
              true true (fresh unbound_client) r (snd run) H)
    as (_ & Heq & _).
  apply Heq. intros n. left. reflexivity.
Defined.

(** C1 as stated fails: where the waits end with an empty read instead of
    the token, the trial completes with two chunks sent, none
    acknowledged and none counted as lost. *)
Lemma unanswered_chunks_are_not_counted :
  let run := transmit_data env_unanswered 10 [x00; x01]%byte 40 3 true true
               (fresh unbound_client) in
  (exists r, fst run = Ret r)
  /\ packet_count (vars (snd run)) = 2
  /\ ack_count (vars (snd run)) = 0
  /\ lost_count (vars (snd run)) = 0
  /\ packet_count (vars (snd run))
     <> ack_count (vars (snd run)) + lost_count (vars (snd run)).
Proof.
  vm_compute. split; [eexists; reflexivity|].
  repeat split; discriminate.
Qed.

(** ** The derived metrics *)

Lemma ratio_in_unit_interval (l p : Z) :
  0 <= l <= p -> 0 < p -> (0 <= inject_Z l / inject_Z p <= 1)%Q.
Proof.
  intros [H0 Hp] Hpos.
  assert (HpQ : (0 < inject_Z p)%Q).
  { change 0%Q with (inject_Z 0). rewrite <- Zlt_Qlt. exact Hpos. }
  split.
  - apply Qle_shift_div_l; [exact HpQ|]. rewrite Qmult_0_l.
    change 0%Q with (inject_Z 0). rewrite <- Zle_Qle. exact H0.
  - apply Qle_shift_div_r; [exact HpQ|]. rewrite Qmult_1_l.
    rewrite <- Zle_Qle. exact Hp.
Qed.

(** C7. When [transmit_data] returns, the loss ratio of the dictionary is
    between 0 and 1, and it is 0 when no chunk was sent and when no chunk
    was counted as lost. *)
Theorem loss_ratio_in_unit_interval
    (env : Env) (fuel : nat) (data_buffer : bytes) (rate duration : Z)
    (use_nagle use_delayed_ack : bool) (s : State ClientVars)
    (r : Result) (s' : State ClientVars) :
  transmit_data env fuel data_buffer rate duration use_nagle
                use_delayed_ack s = (Ret r, s') ->
  (0 <= loss r <= 1)%Q
  /\ (packet_count (vars s') = 0 -> (loss r == 0)%Q)
  /\ (lost_count (vars s') = 0 -> (loss r == 0)%Q).
Proof.
  intros H. pose proof H as Hacc. apply completed_trial_accounted in Hacc.
  destruct Hacc as (Ha & Hl & Hle & _).
  apply completed_trial in H.
  destruct H as (_ & _ & _ & _ & _ & _ & _ & _ & ->).
  unfold trial_result. cbn [loss].
  destruct (0 <? packet_count (vars s')) eqn:Hp.
  - apply Z.ltb_lt in Hp. split; [|split].
    + apply ratio_in_unit_interval; lia.
    + intros H0. lia.
    + intros ->. unfold Qdiv. apply Qmult_0_l.
  - split; [|split]; intros; try reflexivity.
    split; [apply Qle_refl | discriminate].
Qed.

Lemma loss_ratio_in_unit_interval_witness :
  let run := transmit_data env_acked 10 [x00; x01]%byte 40 3 true true
               (fresh unbound_client) in
  exists r, fst run = Ret r /\ (0 <= loss r <= 1)%Q.
Proof.
  intros run.
  assert (H : exists r, returned run = Some r)
    by (vm_compute; eexists; reflexivity).
  destruct H as [r H]. apply returned_eq in H.
  exists r. split; [rewrite H; reflexivity|].
  exact (proj1 (@loss_ratio_in_unit_interval env_acked 10 [x00; x01]%byte
                  40 3 true true (fresh unbound_client) r (snd run) H)).
Defined.

(** ** The loop ends when the clock passes [finish] *)

#[export] Instance same_time_preorder L : PreOrder (@same_time L).
Proof.
  split.
  - intros s. reflexivity.
  - intros a b c. unfold same_time. congruence.
Qed.

Lemma same_time_send_cycle env data_buffer sleep_interval :
  stable same_time (send_cycle env data_buffer sleep_interval).
Proof. apply step_send_cycle; try exact _; reflexivity. Qed.

Section FuelFree.

Context {L : Type}.

Lemma fuel_free_ret A (a : A) : fuel_free (@ret L A a).
Proof. intros s. discriminate. Qed.

Lemma fuel_free_raise A e : fuel_free (@raise L A e).
Proof. intros s. discriminate. Qed.

Lemma fuel_free_get_vars : fuel_free (@get_vars L).
Proof. intros s. discriminate. Qed.

Lemma fuel_free_assign f : fuel_free (@assign L f).
Proof. intros s. discriminate. Qed.

Lemma fuel_free_emit e : fuel_free (@emit L e).
Proof. intros s. discriminate. Qed.

Lemma fuel_free_bind A B (m : M L A) (k : A -> M L B) :
  fuel_free m -> (forall a, fuel_free (k a)) -> fuel_free (bind m k).
Proof.
  intros Hm Hk s. unfold bind. specialize (Hm s).
  destruct (m s) as [[a|e|] s1]; cbn in *;
    [apply Hk | discriminate | congruence].
Qed.

Lemma fuel_free_try_except A (body : M L A) catches handler :
  fuel_free body -> (forall e, fuel_free (handler e)) ->
  fuel_free (try_except body catches handler).
Proof.
  intros Hb Hh s. unfold try_except. specialize (Hb s).
  destruct (body s) as [[a|e|] s1]; cbn in *;
    [discriminate | | congruence].
  destruct (catches e); [apply Hh | discriminate].
Qed.

Lemma fuel_free_call out e : fuel_free (@call L out e).
Proof. destruct out; intros s; discriminate. Qed.

Lemma fuel_free_sendall env sk data : fuel_free (@sendall env L sk data).
Proof. intros s. unfold sendall. apply fuel_free_call. Qed.

Lemma fuel_free_recv env sk n : fuel_free (@recv env L sk n).
Proof.
  intros s. unfold recv.
  destruct (recv_out env (n_recv (io s))); discriminate.
Qed.

Lemma fuel_free_time_sleep secs : fuel_free (@time_sleep L secs).
Proof.
  unfold time_sleep. destruct (Qltb secs 0); intros s; discriminate.
Qed.

Lemma fuel_free_py_mod a b : fuel_free (@py_mod L a b).
Proof. unfold py_mod. destruct (b =? 0); intros s; discriminate. Qed.

End FuelFree.

Create HintDb fuel.
#[export] Hint Resolve fuel_free_ret fuel_free_raise fuel_free_get_vars
  fuel_free_assign fuel_free_emit fuel_free_bind fuel_free_try_except
  fuel_free_call fuel_free_sendall fuel_free_recv fuel_free_time_sleep
  fuel_free_py_mod : fuel.

Lemma fuel_free_ack_wait env : fuel_free (ack_wait env).
Proof.
  unfold ack_wait, settimeout.
  apply fuel_free_try_except; auto with fuel.
  apply fuel_free_bind; auto with fuel. intros _.
  apply fuel_free_bind; auto with fuel. intros response.
  destruct (bytes_eqb response ACK); auto with fuel.
Qed.

Lemma send_cycle_uses_no_fuel env data_buffer sleep_interval :
  fuel_free (send_cycle env data_buffer sleep_interval).
Proof.
  unfold send_cycle. apply fuel_free_bind; auto with fuel. intros v.
  destruct (py_slice _ _ _); auto with fuel.
  pose proof (fuel_free_ack_wait env).
  repeat (apply fuel_free_bind; auto with fuel; intros).
Qed.

(** If one of the next [fuel] clock readings is not before [finish], the
    loop ends with that much fuel. *)
Lemma send_loop_terminates env data_buffer finish sleep_interval :
  forall fuel (s : State ClientVars) k,
    (k < fuel)%nat ->
    ~ (clock env (n_time (io s) + k) < finish)%Q ->
    fst (send_loop env fuel data_buffer finish sleep_interval s)
    <> OutOfFuel.
Proof.
  induction fuel as [|fuel IH]; intros s k Hk Hlate; [lia|].
  cbn [send_loop]. erewrite bind_of_ret by reflexivity.
  destruct (Qltb (clock env (n_time (io s))) finish) eqn:Hnow;
    [|discriminate].
  destruct k as [|k].
  { exfalso. apply Hlate. rewrite Nat.add_0_r. now apply Qltb_lt. }
  match goal with
  | |- context [bind _ _ ?x] => change x with (clock_read s)
  end.
  pose proof (@send_cycle_uses_no_fuel env data_buffer sleep_interval
                (clock_read s)) as Hcycle.
  destruct (send_cycle env data_buffer sleep_interval (clock_read s))
    as [o s1] eqn:E.
  pose proof E as Ht. apply same_time_send_cycle in Ht.
  unfold same_time in Ht. cbn [clock_read n_time io] in Ht.
  unfold bind. rewrite E.
  destruct o as [[]|e|]; cbn in Hcycle |- *; try discriminate;
    [|congruence].
  apply (IH s1 k); [lia|].
  rewrite Ht. replace (S (n_time (io s)) + k)%nat
    with (n_time (io s) + S k)%nat by lia.
  exact Hlate.
Qed.

(** A connected sender with a rate that is not zero, whose arguments
    are within the floats, returns its dictionary as soon as the clock is
    seen to pass the end of the trial. *)
Lemma transmit_data_returns env fuel data_buffer rate duration
    use_nagle use_delayed_ack (s : State ClientVars) k :
  connect_out env = None -> rate <> 0 -> floatable rate duration ->
  (k < fuel)%nat ->
  ~ (clock env (S (n_time (io s)) + k)
     < clock env (n_time (io s)) + inject_Z duration)%Q ->
  exists r s',
    transmit_data env fuel data_buffer rate duration use_nagle
                  use_delayed_ack s = (Ret r, s').
Proof.
  intros Hc Hr [Hd Hf] Hk Hlate.
  rewrite transmit_data_unfold by assumption.
  erewrite bind_of_ret by (apply pacing_interval_nonzero; assumption).
  erewrite bind_of_ret by reflexivity.
  match goal with
  | |- context [guarded_transfer _ _ _ _ ?f ?si ?s1] =>
      pose proof (@send_loop_terminates env data_buffer f si fuel s1 k Hk
                    Hlate) as Hend;
      destruct (send_loop env fuel data_buffer f si s1) as [o1 s2] eqn:Hloop
  end.
  erewrite guarded_transfer_runs by exact Hloop.
  destruct o1 as [u|e|]; [| destruct (is_Exception e) |];
    cbn in Hend; try congruence;
    rewrite finalize_runs; do 2 eexists; reflexivity.
Qed.

(** ** The receiver's loop *)

Lemma recv_loop_step env fuel (s : State ServerVars) :
  recv_loop env (S fuel) s
  = match recv_out env (n_recv (io s)) with
    | Received [] =>
        (Ret tt, push [EvRecv client_conn 4096 []] (recv_called s))
    | Received (b :: p) =>
        match sendall_out env (n_send (io s)) with
        | None => recv_loop env fuel (after_chunk s (b :: p))
        | Some e => (Raise e, ack_failed s (b :: p))
        end
    | RecvRaises e => (Raise e, recv_called s)
    end.
Proof.
  cbn [recv_loop]. unfold bind at 1. unfold recv.
  destruct (recv_out env (n_recv (io s))) as [[|b p]|e]; try reflexivity.
  unfold sendall. run_py. cbn.
  destruct (sendall_out env (n_send (io s))); cbn.
  - reflexivity.
  - unfold after_chunk, chunk_events, count_chunk. cbn.
    rewrite <- app_assoc. reflexivity.
Qed.

Lemma fold_left_after_chunk_trace reads : forall s,
  trace (io (fold_left after_chunk reads s))
  = trace (io s) ++ flat_map chunk_events reads.
Proof.
  induction reads as [|p reads IH]; intros s; cbn [fold_left flat_map].
  - now rewrite app_nil_r.
  - rewrite IH. cbn [after_chunk trace io]. now rewrite <- app_assoc.
Qed.

Lemma fold_left_after_chunk_vars reads : forall s,
  vars (fold_left after_chunk reads s) = fold_left count_chunk reads (vars s).
Proof.
  induction reads as [|p reads IH]; intros s; cbn [fold_left];
    [reflexivity|]. now rewrite IH.
Qed.

Lemma fold_left_after_chunk_time reads : forall s,
  n_time (io (fold_left after_chunk reads s)) = n_time (io s).
Proof.
  induction reads as [|p reads IH]; intros s; cbn [fold_left];
    [reflexivity|]. now rewrite IH.
Qed.

Lemma fed_nonempty env reads : forall nr ns,
  fed env nr ns reads -> Forall (fun p => p <> []) reads.
Proof.
  induction reads as [|p reads IH]; intros nr ns H; constructor.
  - apply H.
  - eapply IH. apply H.
Qed.

(** Enough fuel takes the loop through every chunk the world delivers. *)
Lemma recv_loop_fed env reads : forall fuel (s : State ServerVars),
  fed env (n_recv (io s)) (n_send (io s)) reads ->
  recv_loop env (length reads + fuel) s
  = recv_loop env fuel (fold_left after_chunk reads s).
Proof.
  induction reads as [|p reads IH]; intros fuel s H; [reflexivity|].
  destruct H as (Hp & Hr & Hs & H).
  cbn [length Nat.add fold_left]. rewrite recv_loop_step, Hr, Hs.
  destruct p as [|b p]; [congruence|].
  apply IH. exact H.
Qed.

(** However the loop ends, it went through some chunks in strict
    alternation of read and acknowledgment, and stopped in one of four
    ways. *)
Lemma recv_loop_trace env fuel : forall (s : State ServerVars) o s',
  recv_loop env fuel s = (o, s') ->
  exists reads,
    fed env (n_recv (io s)) (n_send (io s)) reads
    /\ let s1 := fold_left after_chunk reads s in
       match o with
       | Ret _ =>
           recv_out env (n_recv (io s1)) = Received []
           /\ s' = push [EvRecv client_conn 4096 []] (recv_called s1)
       | Raise e =>
           (recv_out env (n_recv (io s1)) = RecvRaises e
            /\ s' = recv_called s1)
           \/ (exists p, p <> []
                         /\ recv_out env (n_recv (io s1)) = Received p
                         /\ sendall_out env (n_send (io s1)) = Some e
                         /\ s' = ack_failed s1 p)
       | OutOfFuel => s' = s1
       end.
Proof.
  induction fuel as [|fuel IH]; intros s o s' H.
  - inversion H; subst. exists []. split; [exact I | reflexivity].
  - rewrite recv_loop_step in H.
    destruct (recv_out env (n_recv (io s))) as [[|b p]|e] eqn:Hr.
    + inversion H; subst. exists []. split; [exact I|]. cbn. auto.
    + destruct (sendall_out env (n_send (io s))) as [e|] eqn:Hs.
      * inversion H; subst. exists []. split; [exact I|]. cbn.
        right. exists (b :: p). repeat split; auto. discriminate.
      * apply IH in H. destruct H as (reads & Hfed & H).
        exists ((b :: p) :: reads). split.
        -- cbn. repeat split; auto. discriminate.
        -- exact H.
    + inversion H; subst. exists []. split; [exact I|]. cbn. auto.
Qed.

Lemma fold_left_after_chunk_recv reads : forall s,
  n_recv (io (fold_left after_chunk reads s))
  = (n_recv (io s) + length reads)%nat.
Proof.
  induction reads as [|p reads IH]; intros s; cbn [fold_left length].
  - now rewrite Nat.add_0_r.
  - rewrite IH. cbn. lia.
Qed.

Lemma process_client_runs env fuel (s : State ServerVars) o1 s1 :
  recv_loop env fuel (session_start s) = (o1, s1) ->
  process_client env fuel s
  = match o1 with
    | Ret _ =>
        (Ret tt,
         push [EvPrint (session_report
                          (clock env (n_time (io s1))
                           - clock env (n_time (io s)))
                          (vars s1))]
              (clock_read s1))
    | Raise e => (Raise e, s1)
    | OutOfFuel => (OutOfFuel, s1)
    end.
Proof.
  intros H. unfold process_client.
  erewrite bind_of_ret by reflexivity.
  erewrite bind_of_ret by reflexivity.
  unfold bind at 1.
  match goal with
  | |- context [recv_loop env fuel ?x] => change x with (session_start s)
  end.
  rewrite H.
  destruct o1 as [[]|e|]; reflexivity.
Qed.

(** The counters after some chunks, in closed form. *)
Lemma fold_count_chunk_totals reads : forall v,
  0 <= max_size v ->
  let v' := fold_left count_chunk reads v in
  packet_num v' = packet_num v + len reads
  /\ total_data v' = total_data v + fold_right Z.add 0 (map len reads)
  /\ max_size v' = Z.max (max_size v) (fold_right Z.max 0 (map len reads)).
Proof.
  induction reads as [|p reads IH]; intros v Hv; cbn [fold_left map fold_right].
  - cbn. unfold len. cbn. lia.
  - assert (Hp : 0 <= len p) by (unfold len; lia).
    destruct (IH (count_chunk v p)) as (H1 & H2 & H3).
    + cbn. destruct (len p >? max_size v) eqn:E; lia.
    + cbv zeta. rewrite H1, H2, H3. cbn [count_chunk packet_num total_data
        max_size]. unfold len at 2. cbn [length]. rewrite Nat2Z.inj_succ.
      fold (len reads).
      destruct (len p >? max_size v) eqn:E;
        [apply Z.gtb_lt in E | rewrite Z.gtb_ltb in E; apply Z.ltb_ge in E];
        lia.
Qed.

Lemma tally_totals reads :
  packet_num (tally reads) = len reads
  /\ total_data (tally reads) = fold_right Z.add 0 (map len reads)
  /\ max_size (tally reads) = fold_right Z.max 0 (map len reads).
Proof.
  destruct (@fold_count_chunk_totals reads (mkServerVars 0 0 0))
    as (H1 & H2 & H3); [cbn; lia|].
  unfold tally. rewrite H1, H2, H3. cbn [packet_num total_data max_size].
  assert (0 <= fold_right Z.max 0 (map len reads)).
  { clear. induction reads; cbn; lia. }
  lia.
Qed.

(** ** Sessions of the receiver *)

Lemma after_chunks_of_session reads (s : State ServerVars) :
  let s1 := fold_left after_chunk reads (session_start s) in
  trace (io s1) = trace (io s) ++ flat_map chunk_events reads
  /\ vars s1 = tally reads
  /\ n_time (io s1) = S (n_time (io s))
  /\ n_recv (io s1) = (n_recv (io s) + length reads)%nat.
Proof.
  cbv zeta.
  rewrite fold_left_after_chunk_trace, fold_left_after_chunk_vars,
    fold_left_after_chunk_time, fold_left_after_chunk_recv.
  repeat split.
Qed.

(** C9. However [process_client] ends, what it did on the connection is a
    strict alternation: each non-empty read is counted (one more chunk, its
    length added, the maximum updated) and answered by [b'ACK'] before the
    next read.  When it returns, the last read was empty, was neither
    counted nor answered, and the report follows it. *)
Theorem read_acknowledge_alternation
    (env : Env) (fuel : nat) (s : State ServerVars)
    (o : outcome unit) (s' : State ServerVars) :
  process_client env fuel s = (o, s') ->
  exists reads,
    Forall (fun p => p <> []) reads
    /\ let chunks := trace (io s) ++ flat_map chunk_events reads in
       match o with
       | Ret _ =>
           trace (io s')
           = chunks
             ++ [EvRecv client_conn 4096 [];
                 EvPrint (session_report
                            (clock env (S (n_time (io s)))
                             - clock env (n_time (io s)))
                            (tally reads))]
           /\ vars s' = tally reads
           /\ packet_num (vars s') = len reads
           /\ total_data (vars s') = fold_right Z.add 0 (map len reads)
           /\ max_size (vars s') = fold_right Z.max 0 (map len reads)
       | Raise e =>
           (trace (io s') = chunks /\ vars s' = tally reads)
           \/ (exists p,
                  p <> []
                  /\ trace (io s') = chunks ++ [EvRecv client_conn 4096 p]
                  /\ vars s' = count_chunk (tally reads) p)
       | OutOfFuel => trace (io s') = chunks /\ vars s' = tally reads
       end.
Proof.
  intros H.
  destruct (recv_loop env fuel (session_start s)) as [o1 s1] eqn:Hloop.
  erewrite process_client_runs in H by exact Hloop.
  apply recv_loop_trace in Hloop. destruct Hloop as (reads & Hfed & Hend).
  exists reads. split; [eapply fed_nonempty; exact Hfed|].
  destruct (after_chunks_of_session reads s) as (Htr & Hv & Ht & _).
  cbv zeta in *.
  destruct o1 as [[]|e|]; inversion H; subst; clear H.
  - destruct Hend as [_ ->].
    cbn [push clock_read recv_called trace io vars n_time].
    rewrite Htr, Hv, Ht, <- !app_assoc.
    split; [reflexivity|]. split; [reflexivity|]. apply tally_totals.
  - destruct Hend as [[_ ->] | (p & Hp & _ & _ & ->)].
    + left. cbn [recv_called trace io vars]. auto.
    + right. exists p. cbn [ack_failed trace io vars].
      rewrite Htr, Hv. auto.
  - cbn. auto.
Qed.

Lemma read_acknowledge_alternation_witness :
  let run := process_client env_session 10 (fresh unbound_server) in
  fst run = Ret tt
  /\ trace (io (snd run))
     = chunk_events ACK ++ chunk_events ACK
       ++ [EvRecv client_conn 4096 [];
           EvPrint (session_report 1 (tally [ACK; ACK]))]
  /\ exists reads,
       Forall (fun p => p <> []) reads
       /\ match fst run with
          | Ret _ => vars (snd run) = tally reads
          | _ => False
          end.
Proof.
  intros run. split; [reflexivity|]. split; [reflexivity|].
  destruct (@read_acknowledge_alternation env_session 10
              (fresh unbound_server) (fst run) (snd run)
              (surjective_pairing run)) as (reads & Hne & H).
  exists reads. split; [exact Hne|].
  change (fst run) with (@Ret unit tt) in *. cbv zeta in H. apply H.
Defined.

(** C3, as the code has it.  When, after some chunks, a read on the
    accepted connection raises an error that is an [Exception], and the
    fuel suffices, [launch_server] returns normally: after the chunks the
    only events are the printed error and the two [close()] calls, so no
    report of the statistics is printed on this path. *)
Theorem read_error_goes_through_closing
    (env : Env) (fuel : nat) (socket_port : Z)
    (use_nagle use_delayed_ack : bool) (s : State ServerVars)
    (reads : list bytes) (e : exn) :
  bind_out env = None -> listen_out env = None -> accept_out env = None ->
  fed env (n_recv (io s)) (n_send (io s)) reads ->
  recv_out env (n_recv (io s) + length reads) = RecvRaises e ->
  is_Exception e = true ->
  (length reads < fuel)%nat ->
  exists s',
    launch_server env fuel socket_port use_nagle use_delayed_ack s
    = (Ret tt, s')
    /\ trace (io s')
       = trace (io s)
         ++ listen_events env socket_port use_nagle use_delayed_ack
         ++ flat_map chunk_events reads
         ++ [EvPrint (MsgErrorOccurred e);
             EvClose client_conn; EvClose srv_socket]
    /\ existsb is_session_report
         (flat_map chunk_events reads
          ++ [EvPrint (MsgErrorOccurred e);
              EvClose client_conn; EvClose srv_socket]) = false.
Proof.
  intros Hb Hl Ha Hfed Herr Hexc Hfuel.
  rewrite launch_server_unfold by assumption.
  set (s0 := push (listen_events env socket_port use_nagle use_delayed_ack) s).
  assert (Hloop : recv_loop env fuel (session_start s0)
                  = (Raise e,
                     recv_called
                       (fold_left after_chunk reads (session_start s0)))).
  { replace fuel with (length reads + S (fuel - length reads - 1))%nat by lia.
    rewrite recv_loop_fed by exact Hfed.
    rewrite recv_loop_step.
    destruct (after_chunks_of_session reads s0) as (_ & _ & _ & Hn).
    cbv zeta in Hn. rewrite Hn. cbn [s0 push n_recv io]. rewrite Herr.
    reflexivity. }
  assert (Hp : process_client env fuel s0
               = (Raise e,
                  recv_called
                    (fold_left after_chunk reads (session_start s0)))).
  { erewrite process_client_runs by exact Hloop. reflexivity. }
  erewrite guarded_session_runs by exact Hp.
  cbv beta iota. rewrite Hexc. eexists. split; [reflexivity|]. split.
  - destruct (after_chunks_of_session reads s0) as (Htr & _).
    cbv zeta in Htr. cbn [push recv_called trace io]. rewrite Htr.
    cbn [s0 push trace io]. now rewrite <- !app_assoc.
  - rewrite existsb_app. apply orb_false_iff. split; [|reflexivity].
    clear. induction reads as [|p reads IH]; [reflexivity|]. exact IH.
Qed.

Lemma read_error_goes_through_closing_witness :
  exists s',
    launch_server env_read_error 10 5000 true true (fresh unbound_server)
    = (Ret tt, s')
    /\ trace (io s')
       = listen_events env_read_error 5000 true true
         ++ chunk_events [x68; x69]%byte
         ++ [EvPrint (MsgErrorOccurred ConnectionError);
             EvClose client_conn; EvClose srv_socket].
Proof.
  assert (Hfed : fed env_read_error 0 0 [[x68; x69]%byte]).
  { cbn. repeat split. discriminate. }
  assert (Hfuel : (length [[x68; x69]%byte] < 10)%nat) by (cbn; lia).
  destruct (@read_error_goes_through_closing env_read_error 10 5000 true true
              (fresh unbound_server) [[x68; x69]%byte] ConnectionError
              eq_refl eq_refl eq_refl Hfed eq_refl eq_refl Hfuel)
    as (s' & Hrun & Htr & _).
  exists s'. split; [exact Hrun | exact Htr].
Defined.

(** C3 as stated fails: a session whose second read raises ends with the
    error printed and both sockets closed, and no statistics were
    reported. *)
Lemma read_error_skips_the_report :
  let run := launch_server env_read_error 10 5000 true true
               (fresh unbound_server) in
  fst run = Ret tt
  /\ In (EvRecv client_conn 4096 [x68; x69]%byte) (trace (io (snd run)))
  /\ In (EvPrint (MsgErrorOccurred ConnectionError)) (trace (io (snd run)))
  /\ closes client_conn (trace (io (snd run))) = 1%nat
  /\ closes srv_socket (trace (io (snd run))) = 1%nat
  /\ existsb is_session_report (trace (io (snd run))) = false.
Proof.
  vm_compute. repeat split; auto 20.
Qed.

(** C8. The sender's dictionary carries the final counters and the
    measured time (last clock reading minus the first); its throughput is
    bytes over time and its goodput is acknowledged chunks times the chunk
    size over time, both 0 when the time is 0.  The receiver's report,
    printed once after the empty read, carries its final counters, and its
    data rate is bytes over elapsed time, 0 when the elapsed time is 0.
    The sender and the receiver each run in a world of their own. *)
Theorem derived_metrics_follow_the_counters
    (cenv senv : Env) (fuel : nat) (data_buffer : bytes)
    (rate duration : Z)
    (use_nagle use_delayed_ack : bool) (cs : State ClientVars)
    (r : Result) (cs' : State ClientVars)
    (fuel' : nat) (ss ss' : State ServerVars) :
  transmit_data cenv fuel data_buffer rate duration use_nagle
                use_delayed_ack cs = (Ret r, cs') ->
  process_client senv fuel' ss = (Ret tt, ss') ->
  (res_bytes r = total_bytes (vars cs')
   /\ acks r = ack_count (vars cs')
   /\ time r
      = (clock cenv (pred (n_time (io cs')))
         - clock cenv (n_time (io cs)))%Q
   /\ ((0 < time r)%Q ->
       throughput r = (inject_Z (res_bytes r) / time r)%Q
       /\ goodput r = (inject_Z (acks r * chunk_size) / time r)%Q)
   /\ ((time r == 0)%Q -> throughput r = 0%Q /\ goodput r = 0%Q))
  /\ exists reads elapsed_time data_rate,
       trace (io ss')
       = trace (io ss) ++ flat_map chunk_events reads
         ++ [EvRecv client_conn 4096 [];
             EvPrint (MsgSessionEnded elapsed_time (total_data (vars ss'))
                        (packet_num (vars ss')) data_rate
                        (max_size (vars ss')))]
       /\ elapsed_time
          = (clock senv (S (n_time (io ss)))
             - clock senv (n_time (io ss)))%Q
       /\ ((0 < elapsed_time)%Q ->
           data_rate = (inject_Z (total_data (vars ss')) / elapsed_time)%Q)
       /\ ((elapsed_time == 0)%Q -> data_rate = 0%Q).
Proof.
  intros Hc Hs. split.
  - apply completed_trial in Hc.
    destruct Hc as (_ & _ & _ & _ & _ & _ & _ & _ & ->).
    unfold trial_result.
    cbn [res_bytes acks time throughput goodput].
    repeat split; try reflexivity.
    + apply Qltb_lt in H. now rewrite H.
    + apply Qltb_lt in H. now rewrite H.
    + assert (E : Qltb 0 (clock cenv (pred (n_time (io cs')))
                          - clock cenv (n_time (io cs))) = false).
      { apply Qltb_nlt. intros Hlt. rewrite H in Hlt. discriminate. }
      now rewrite E.
    + assert (E : Qltb 0 (clock cenv (pred (n_time (io cs')))
                          - clock cenv (n_time (io cs))) = false).
      { apply Qltb_nlt. intros Hlt. rewrite H in Hlt. discriminate. }
      now rewrite E.
  - destruct (recv_loop senv fuel' (session_start ss)) as [o1 s1] eqn:Hloop.
    erewrite process_client_runs in Hs by exact Hloop.
    apply recv_loop_trace in Hloop. destruct Hloop as (reads & _ & Hend).
    destruct (after_chunks_of_session reads ss) as (Htr & _ & Ht & _).
    cbv zeta in *.
    destruct o1 as [[]|e|]; inversion Hs; subst; clear Hs.
    destruct Hend as [_ ->].
    cbn [push clock_read recv_called trace io vars n_time].
    rewrite Htr, Ht. unfold session_report.
    exists reads. do 2 eexists.
    split; [rewrite <- !app_assoc; reflexivity|].
    split; [reflexivity|]. split.
    + intros H. apply Qltb_lt in H. now rewrite H.
    + intros H.
      assert (E : Qltb 0 (clock senv (S (n_time (io ss)))
                          - clock senv (n_time (io ss))) = false).
      { apply Qltb_nlt. intros Hlt. rewrite H in Hlt. discriminate. }
      now rewrite E.
Qed.

Lemma derived_metrics_follow_the_counters_witness :
  let crun := transmit_data env_all_lost 10 [x00; x01]%byte 40 3 true true
                (fresh unbound_client) in
  let srun := process_client env_session 10 (fresh unbound_server) in
  exists r,
    fst crun = Ret r
    /\ throughput r = (inject_Z (res_bytes r) / time r)%Q
    /\ exists reads elapsed_time data_rate,
         trace (io (snd srun))
         = flat_map chunk_events reads
           ++ [EvRecv client_conn 4096 [];
               EvPrint (MsgSessionEnded elapsed_time
                          (total_data (vars (snd srun)))
                          (packet_num (vars (snd srun))) data_rate
                          (max_size (vars (snd srun))))]
         /\ data_rate
            = (inject_Z (total_data (vars (snd srun))) / elapsed_time)%Q.
Proof.
  intros crun srun.
  assert (Hc : exists r, returned crun = Some r)
    by (vm_compute; eexists; reflexivity).
  destruct Hc as [r Hc]. pose proof Hc as Hr.
  apply returned_eq in Hc.
  assert (Hs : srun = (Ret tt, snd srun)) by (vm_compute; reflexivity).
  destruct (@derived_metrics_follow_the_counters env_all_lost env_session 10
              [x00; x01]%byte 40 3 true true (fresh unbound_client) r
              (snd crun) 10%nat (fresh unbound_server) (snd srun) Hc Hs)
    as ((_ & _ & Ht & Hpos & _) & reads & el & dr & Htr & Hel & Hdr & _).
  exists r. split; [rewrite Hc; reflexivity|]. split.
  - apply Hpos. rewrite Ht. vm_compute. reflexivity.
  - exists reads, el, dr. split; [exact Htr|].
    apply Hdr. rewrite Hel. vm_compute. reflexivity.
Defined.

(** ** A wait that times out *)



(** * Further properties of the sender *)

(** ** What a trial is made of *)

Lemma trial_anatomy env fuel data_buffer rate duration
    use_nagle use_delayed_ack (s : State ClientVars) r s' :
  transmit_data env fuel data_buffer rate duration use_nagle
                use_delayed_ack s = (Ret r, s') ->
  let start := clock env (n_time (io s)) in
  exists o1 s2,
    send_loop env fuel data_buffer (start + inject_Z duration)
              (interval_of rate)
              (loop_entry env rate duration use_nagle use_delayed_ack s)
    = (o1, s2)
    /\ o1 <> OutOfFuel
    /\ vars s' = vars s2
    /\ r = trial_result (clock env (n_time (io s2)) - start) (vars s2)
    /\ trace (io s')
       = trace (io s2) ++ issue_events o1
         ++ [EvPrint (MsgTransferFinished r); EvClose client_sock].
Proof.
  intros H start. pose proof H as Hinv.
  apply transmit_data_returns_inv in Hinv. destruct Hinv as (Hc & Hr & Hd & Hf).
  rewrite transmit_data_unfold in H by assumption.
  erewrite bind_of_ret in H by (apply pacing_interval_nonzero; assumption).
  erewrite bind_of_ret in H by reflexivity.
  fold (interval_of rate) in H. fold start in H.
  change (mkState (set_pos 0 (vars (at_pacing env rate duration use_nagle
                                      use_delayed_ack s))) _)
    with (loop_entry env rate duration use_nagle use_delayed_ack s) in H.
  destruct (send_loop env fuel data_buffer (start + inject_Z duration)
              (interval_of rate)
              (loop_entry env rate duration use_nagle use_delayed_ack s))
    as [o1 s2] eqn:Hloop.
  exists o1, s2. split; [reflexivity|].
  erewrite guarded_transfer_runs in H by exact Hloop.
  destruct o1 as [u|e|]; [| destruct (is_Exception e) eqn:He |];
    try discriminate;
    rewrite finalize_runs in H; inversion H; subst; clear H;
    cbn [issue_events]; rewrite ?He;
    (split; [discriminate|]); (split; [reflexivity|]);
    (split; [reflexivity|]);
    cbn [push clock_read trace io vars]; rewrite <- ?app_assoc; reflexivity.
Qed.

(** ** The chunks a trial writes *)

Lemma total_len_app a b : total_len (a ++ b) = total_len a + total_len b.
Proof.
  unfold total_len. induction a as [|c a IH]; cbn; [reflexivity|].
  rewrite IH. lia.
Qed.

Lemma chunks_from_app data_buffer n : forall p m,
  chunks_from data_buffer p (n + m)
  = chunks_from data_buffer p n
    ++ chunks_from data_buffer (pos_after data_buffer p n) m.
Proof.
  induction n as [|n IH]; intros p m; cbn; [reflexivity|].
  now rewrite IH.
Qed.

Lemma pos_after_add data_buffer n : forall p m,
  pos_after data_buffer p (n + m)
  = pos_after data_buffer (pos_after data_buffer p n) m.
Proof.
  induction n as [|n IH]; intros p m; cbn; [reflexivity|]. apply IH.
Qed.

#[export] Instance sending_preorder data_buffer :
  PreOrder (sending data_buffer).
Proof.
  split.
  - intros s. exists 0%nat, []. rewrite app_nil_r. cbn.
    repeat split; try lia. constructor.
  - intros a b c (n & e1 & Ht1 & Hs1 & Hne1 & Hp1 & Hc1 & Hb1)
                 (m & e2 & Ht2 & Hs2 & Hne2 & Hp2 & Hc2 & Hb2).
    exists (n + m)%nat, (e1 ++ e2).
    rewrite Ht2, Ht1, <- app_assoc, sent_on_app, chunks_from_app,
      pos_after_add, total_len_app, Hs1, <- Hp1, Hs2, Hp2.
    repeat split; try lia.
    + rewrite <- Hs1, <- Hs2. apply Forall_app. split; assumption.
    + rewrite Hb2, Hb1, Hs1, Hs2. lia.
Qed.

(** One pass of the loop, case by case: nothing to send, a write that
    raises, or a chunk written and counted whatever comes after. *)
Lemma send_cycle_cases env data_buffer sleep_interval s o s' :
  send_cycle env data_buffer sleep_interval s = (o, s') ->
  let segment :=
    py_slice data_buffer (pos (vars s)) (pos (vars s) + chunk_size) in
  (segment = [] /\ o = Ret Break /\ s' = s)
  \/ (segment <> []
      /\ exists e, sendall_out env (n_send (io s)) = Some e
                   /\ o = Raise e /\ s' = send_called s)
  \/ (segment <> []
      /\ sendall_out env (n_send (io s)) = None
      /\ exists evs,
           trace (io s') = trace (io s) ++ EvSendall client_sock segment :: evs
           /\ sent_on client_sock evs = []
           /\ closes client_sock evs = 0%nat
           /\ pos (vars s')
              = (pos (vars s) + chunk_size) mod len data_buffer
           /\ packet_count (vars s') = packet_count (vars s) + 1
           /\ total_bytes (vars s') = total_bytes (vars s) + len segment
           /\ (o = Ret Continue -> (0 <= sleep_interval)%Q)
           /\ ((sleep_interval < 0)%Q -> exists e, o = Raise e)).
Proof.
  intros H. cbv zeta. unfold send_cycle in H.
  unfold bind at 1 in H. unfold get_vars at 1 in H.
  destruct (py_slice data_buffer (pos (vars s)) (pos (vars s) + chunk_size))
    as [|b seg] eqn:Hseg.
  { inversion H; subst. left. auto. }
  right.
  assert (Hlen : (len data_buffer =? 0) = false).
  { apply Z.eqb_neq. eapply py_slice_nonempty. rewrite Hseg. discriminate. }
  unfold ack_wait, sendall, recv, py_mod, time_sleep in H.
  rewrite Hlen in H. run_py.
  destruct (sendall_out env (n_send (io s))) as [e|]; cbn in H.
  { inversion H; subst. left. split; [discriminate|].
    exists e. auto. }
  right. split; [discriminate|]. split; [reflexivity|].
  assert (Hq : Qltb sleep_interval 0 = true -> (sleep_interval < 0)%Q)
    by apply Qltb_lt.
  assert (Hq' : Qltb sleep_interval 0 = false -> (0 <= sleep_interval)%Q).
  { intros E. apply Qnot_lt_le. now apply Qltb_nlt. }
  destruct (recv_out env (n_recv (io s))) as [data|e]; cbn in H;
    [destruct (bytes_eqb data ACK); cbn in H;
       destruct (Qltb sleep_interval 0) eqn:Hs; cbn in H
    |destruct (is_socket_timeout e); cbn in H;
       [destruct (Qltb sleep_interval 0) eqn:Hs; cbn in H|]];
    inversion H; subst; cbn [trace io vars pos packet_count total_bytes];
    eexists; (split; [rewrite <- !app_assoc; reflexivity|]);
    do 5 (split; [reflexivity|]);
    (split;
     [intros Hc; first [discriminate Hc | auto]
     |intros Hneg;
      first [eexists; reflexivity
            |exfalso; apply (Qlt_not_le _ _ Hneg); auto]]).
Qed.

Lemma sending_send_cycle env data_buffer sleep_interval :
  stable (sending data_buffer) (send_cycle env data_buffer sleep_interval).
Proof.
  intros s o s' H. apply send_cycle_cases in H. cbv zeta in H.
  destruct H as [(_ & _ & ->) | [(_ & e & _ & _ & ->) | H]].
  - reflexivity.
  - exists 0%nat, []. cbn. rewrite app_nil_r.
    repeat split; try lia. constructor.
  - destruct H as (Hne & _ & evs & Ht & Hs & _ & Hp & Hc & Hb & _).
    exists 1%nat, (EvSendall client_sock
                     (py_slice data_buffer (pos (vars s))
                        (pos (vars s) + chunk_size)) :: evs).
    cbn [sent_on is_close chunks_from pos_after]. rewrite Hs.
    repeat split; try assumption; try lia.
    + constructor; [exact Hne | constructor].
    + rewrite Hb. unfold total_len. cbn. lia.
Qed.

Lemma sending_send_loop env fuel data_buffer finish sleep_interval :
  stable (sending data_buffer)
         (send_loop env fuel data_buffer finish sleep_interval).
Proof.
  apply stable_send_loop; [exact _ | intros; apply sending_send_cycle |].
  intros s. exists 0%nat, []. cbn. rewrite app_nil_r.
  repeat split; try lia. constructor.
Qed.

Lemma sent_on_setup_events env rate duration use_nagle use_delayed_ack sk :
  sent_on sk (setup_events env rate duration use_nagle use_delayed_ack) = [].
Proof.
  unfold setup_events. rewrite !sent_on_app, sent_on_option_events.
  reflexivity.
Qed.

Lemma sent_on_issue_events sk o : sent_on sk (issue_events o) = [].
Proof.
  destruct o as [u|e|]; try reflexivity. cbn.
  destruct (is_Exception e); reflexivity.
Qed.

(** The chunks a completed trial wrote are cut from the buffer one after
    the other from position 0, and the dictionary counts them. *)
Lemma trial_chunks env fuel data_buffer rate duration
    use_nagle use_delayed_ack (s : State ClientVars) r s' :
  transmit_data env fuel data_buffer rate duration use_nagle
                use_delayed_ack s = (Ret r, s') ->
  exists (n : nat) (evs : list event),
    trace (io s') = trace (io s) ++ evs
    /\ sent_on client_sock evs = chunks_from data_buffer 0 n
    /\ Forall (fun c => c <> []) (sent_on client_sock evs)
    /\ packets r = Z.of_nat n
    /\ res_bytes r = total_len (sent_on client_sock evs).
Proof.
  intros H. apply trial_anatomy in H. cbv zeta in H.
  destruct H as (o1 & s2 & Hloop & _ & _ & -> & Ht).
  apply sending_send_loop in Hloop.
  destruct Hloop as (n & evs & Ht2 & Hs & Hne & _ & Hc & Hb).
  cbn [loop_entry at_pacing trace io vars pos packet_count total_bytes]
    in Ht2, Hs, Hc, Hb.
  exists n.
  exists (setup_events env rate duration use_nagle use_delayed_ack
          ++ evs ++ issue_events o1
          ++ [EvPrint
                (MsgTransferFinished
                   (trial_result
                      (clock env (n_time (io s2)) - clock env (n_time (io s)))
                      (vars s2)));
              EvClose client_sock]).
  rewrite Ht, Ht2, !sent_on_app, sent_on_setup_events, sent_on_issue_events.
  cbn [sent_on app]. rewrite app_nil_r.
  split; [now rewrite <- !app_assoc|].
  cbn [trial_result packets res_bytes]. repeat split; try assumption; lia.
Qed.

(** ** A wait that times out, and the pass after it *)



(** ** Where the chunks come from *)

Lemma len_nonneg A (l : list A) : 0 <= len l.
Proof. unfold len. lia. Qed.

Lemma len_py_slice_le A (l : list A) lo c :
  0 <= lo -> 0 <= c -> len (py_slice l lo (lo + c)) <= c.
Proof.
  intros Hlo Hc. unfold py_slice, slice_bound, len.
  fold (len l). pose proof (len_nonneg l) as Hl.
  destruct (lo <? 0) eqn:E1; [apply Z.ltb_lt in E1; lia|].
  destruct (lo + c <? 0) eqn:E2; [apply Z.ltb_lt in E2; lia|].
  cbv zeta. rewrite length_firstn. lia.
Qed.

Lemma len_py_slice_inside A (l : list A) lo hi :
  0 <= lo <= hi -> hi <= len l -> len (py_slice l lo hi) = hi - lo.
Proof.
  intros Hlo Hhi. unfold py_slice, slice_bound.
  destruct (lo <? 0) eqn:E1; [apply Z.ltb_lt in E1; lia|].
  destruct (hi <? 0) eqn:E2; [apply Z.ltb_lt in E2; lia|].
  cbv zeta. rewrite !Z.min_l by lia.
  unfold len in *. rewrite length_firstn, length_skipn. lia.
Qed.

Lemma pos_after_mod data_buffer n : forall p,
  pos_after data_buffer (p mod len data_buffer) n
  = (p + chunk_size * Z.of_nat n) mod len data_buffer.
Proof.
  induction n as [|n IH]; intros p.
  - cbn [pos_after]. now rewrite Z.mul_0_r, Z.add_0_r.
  - cbn [pos_after]. rewrite Zplus_mod_idemp_l, IH. f_equal. lia.
Qed.

Lemma chunks_from_nth data_buffer n : forall p k,
  (k < n)%nat ->
  nth k (chunks_from data_buffer (p mod len data_buffer) n) []
  = let q := (p + chunk_size * Z.of_nat k) mod len data_buffer in
    py_slice data_buffer q (q + chunk_size).
Proof.
  induction n as [|n IH]; intros p k Hk; [lia|].
  cbn [chunks_from]. destruct k as [|k].
  - cbn [nth]. now rewrite Z.mul_0_r, Z.add_0_r.
  - cbn [nth]. rewrite Zplus_mod_idemp_l, IH by lia. cbv zeta.
    replace (p + chunk_size + chunk_size * Z.of_nat k)
      with (p + chunk_size * Z.of_nat (S k)) by lia.
    reflexivity.
Qed.

Lemma length_chunks_from data_buffer n : forall p,
  length (chunks_from data_buffer p n) = n.
Proof. induction n as [|n IH]; intros p; cbn; [reflexivity|]. now rewrite IH. Qed.

(** X1. When [transmit_data] returns, the [packets] and [bytes] of its
    dictionary are the number and the total length of the chunks it wrote
    on the socket during the call; each of these chunks is non-empty and
    at most [chunk_size] bytes long. *)
Theorem trial_counts_what_it_wrote
    (env : Env) (fuel : nat) (data_buffer : bytes) (rate duration : Z)
    (use_nagle use_delayed_ack : bool) (s : State ClientVars)
    (r : Result) (s' : State ClientVars) :
  transmit_data env fuel data_buffer rate duration use_nagle
                use_delayed_ack s = (Ret r, s') ->
  exists evs,
    trace (io s') = trace (io s) ++ evs
    /\ packets r = len (sent_on client_sock evs)
    /\ res_bytes r = total_len (sent_on client_sock evs)
    /\ Forall (fun c => c <> [] /\ 0 < len c <= chunk_size)
              (sent_on client_sock evs).
Proof.
  intros H. apply trial_chunks in H.
  destruct H as (n & evs & Ht & Hs & Hne & Hp & Hb).
  exists evs. split; [exact Ht|].
  split; [rewrite Hs; unfold len; now rewrite length_chunks_from|].
  split; [exact Hb|].
  assert (Hpos : exists p, 0 <= p /\ 0 = p) by (exists 0; lia).
  destruct Hpos as (p & Hp0 & Hpe). rewrite Hpe in Hs. clear Hpe.
  revert Hne. rewrite Hs. clear Hs Hp Hb Ht. revert p Hp0.
  induction n as [|n IH]; intros p Hp0 Hne; [constructor|].
  cbn [chunks_from] in *. inversion Hne as [|c cs Hc Hcs]; subst.
  assert (Hlen : len data_buffer <> 0) by (eapply py_slice_nonempty; eauto).
  pose proof (len_nonneg data_buffer).
  constructor.
  - split; [exact Hc|]. split.
    + pose proof (len_nonneg (py_slice data_buffer p (p + chunk_size))) as Hl.
      assert (len (py_slice data_buffer p (p + chunk_size)) <> 0); [|lia].
      unfold len. intros E. apply Hc.
      destruct (py_slice data_buffer p (p + chunk_size)); [reflexivity|].
      discriminate.
    + apply len_py_slice_le; [exact Hp0 | unfold chunk_size; lia].
  - apply IH; [|exact Hcs].
    apply Z.mod_pos_bound. lia.
Qed.

Lemma trial_counts_what_it_wrote_witness :
  let run := transmit_data env_acked 10 [x00; x01]%byte 40 3 true true
               (fresh unbound_client) in
  exists r evs,
    fst run = Ret r
    /\ trace (io (snd run)) = evs
    /\ packets r = len (sent_on client_sock evs)
    /\ res_bytes r = total_len (sent_on client_sock evs).
Proof.
  intros run.
  assert (H : exists r, returned run = Some r)
    by (vm_compute; eexists; reflexivity).
  destruct H as [r H]. apply returned_eq in H.
  destruct (@trial_counts_what_it_wrote env_acked 10 [x00; x01]%byte 40 3
              true true (fresh unbound_client) r (snd run) H)
    as (evs & Ht & Hp & Hb & _).
  exists r, evs. split; [rewrite H; reflexivity|].
  split; [exact Ht|]. split; assumption.
Defined.

(** X2. The k-th chunk a completed trial wrote (counting from 0) is the
    slice [data_buffer[p : p + 40]] at [p = (40 * k) mod len(data_buffer)]:
    the position wraps around the buffer, the slice itself does not. *)
Theorem chunks_are_cut_at_wrapping_positions
    (env : Env) (fuel : nat) (data_buffer : bytes) (rate duration : Z)
    (use_nagle use_delayed_ack : bool) (s : State ClientVars)
    (r : Result) (s' : State ClientVars) :
  transmit_data env fuel data_buffer rate duration use_nagle
                use_delayed_ack s = (Ret r, s') ->
  exists evs,
    trace (io s') = trace (io s) ++ evs
    /\ forall k,
         (k < length (sent_on client_sock evs))%nat ->
         let p := (chunk_size * Z.of_nat k) mod len data_buffer in
         nth k (sent_on client_sock evs) []
         = py_slice data_buffer p (p + chunk_size).
Proof.
  intros H. apply trial_chunks in H.
  destruct H as (n & evs & Ht & Hs & _).
  exists evs. split; [exact Ht|]. intros k Hk.
  rewrite Hs in *. rewrite length_chunks_from in Hk.
  pose proof (@chunks_from_nth data_buffer n 0 k Hk) as E.
  rewrite Zmod_0_l in E. rewrite E. cbv zeta. rewrite Z.add_0_l.
  reflexivity.
Qed.

Lemma chunks_are_cut_at_wrapping_positions_witness :
  let run := transmit_data env_acked 10 [x00; x01; x02]%byte 40 3 true true
               (fresh unbound_client) in
  sent_on client_sock (trace (io (snd run)))
  = [[x00; x01; x02]; [x01; x02]]%byte
  /\ exists evs,
       trace (io (snd run)) = evs
       /\ nth 1 (sent_on client_sock evs) []
          = py_slice [x00; x01; x02]%byte 1 41.
Proof.
  intros run. split; [reflexivity|].
  assert (H : exists r, returned run = Some r)
    by (vm_compute; eexists; reflexivity).
  destruct H as [r H]. apply returned_eq in H.
  destruct (@chunks_are_cut_at_wrapping_positions env_acked 10
              [x00; x01; x02]%byte 40 3 true true (fresh unbound_client) r
              (snd run) H) as (evs & Ht & Hk).
  exists evs. split; [exact Ht|].
  apply (Hk 1%nat). cbn [fresh io0 trace io app] in Ht. rewrite <- Ht.
  vm_compute. apply le_n.
Defined.

Lemma py_slice_nonempty_inside A (l : list A) p c :
  0 <= p -> py_slice l p (p + c) <> [] -> p < len l.
Proof.
  intros Hp H. destruct (Z_lt_ge_dec p (len l)) as [|Hge]; [assumption|].
  exfalso. apply H. unfold py_slice, slice_bound.
  destruct (p <? 0) eqn:E; [apply Z.ltb_lt in E; lia|]. cbv zeta.
  replace (Z.min p (len l)) with (len l) by lia.
  replace (Z.to_nat (len l)) with (length l) by (unfold len; lia).
  rewrite skipn_all. apply firstn_nil.
Qed.

Lemma whole_chunks data_buffer n : forall p,
  len data_buffer mod chunk_size = 0 ->
  0 <= p -> p mod chunk_size = 0 ->
  Forall (fun c => c <> []) (chunks_from data_buffer p n) ->
  Forall (fun c => len c = chunk_size) (chunks_from data_buffer p n).
Proof.
  induction n as [|n IH]; intros p Hdiv Hp Hpm Hne; [constructor|].
  cbn [chunks_from] in *. inversion Hne as [|c cs Hc Hcs]; subst.
  assert (Hlt : p < len data_buffer)
    by (eapply py_slice_nonempty_inside; eauto).
  unfold chunk_size in *.
  apply Z.mod_divide in Hdiv; [|lia]. destruct Hdiv as [a Ha].
  apply Z.mod_divide in Hpm; [|lia]. destruct Hpm as [b Hb].
  constructor.
  - rewrite len_py_slice_inside; lia.
  - apply IH; try assumption.
    + apply Z.mod_divide; [lia|]. exists a. exact Ha.
    + apply Z.mod_pos_bound. lia.
    + rewrite Z.mod_mod_divide by (exists a; exact Ha).
      apply Z.mod_divide; [lia|]. exists (b + 1). lia.
Qed.

Lemma total_len_whole chunks c :
  Forall (fun x => len x = c) chunks -> total_len chunks = c * len chunks.
Proof.
  unfold total_len, len. induction 1 as [|x xs Hx _ IH]; cbn [map fold_right length].
  - lia.
  - unfold len in Hx. rewrite IH, Hx. lia.
Qed.

(** X3. When the chunk size divides the length of the buffer, every chunk
    a completed trial wrote has exactly [chunk_size] bytes, the bytes sent
    are [chunk_size] times the packets sent, and the goodput of the
    dictionary is not above its throughput. *)
Theorem whole_chunks_when_the_chunk_size_divides_the_buffer
    (env : Env) (fuel : nat) (data_buffer : bytes) (rate duration : Z)
    (use_nagle use_delayed_ack : bool) (s : State ClientVars)
    (r : Result) (s' : State ClientVars) :
  len data_buffer mod chunk_size = 0 ->
  transmit_data env fuel data_buffer rate duration use_nagle
                use_delayed_ack s = (Ret r, s') ->
  (exists evs,
      trace (io s') = trace (io s) ++ evs
      /\ Forall (fun c => len c = chunk_size) (sent_on client_sock evs))
  /\ res_bytes r = chunk_size * packets r
  /\ (goodput r <= throughput r)%Q.
Proof.
  intros Hdiv H.
  pose proof H as Hacc. apply completed_trial_accounted in Hacc.
  pose proof H as Hres. apply completed_trial in Hres.
  destruct Hres as (_ & _ & _ & _ & _ & _ & _ & _ & Hr).
  apply trial_chunks in H.
  destruct H as (n & evs & Ht & Hs & Hne & Hp & Hb).
  assert (Hall : Forall (fun c => len c = chunk_size)
                        (sent_on client_sock evs)).
  { rewrite Hs in *. apply whole_chunks; try assumption; try lia.
    reflexivity. }
  assert (Hbytes : res_bytes r = chunk_size * packets r).
  { rewrite Hb, (total_len_whole Hall), Hp, Hs. unfold len.
    now rewrite length_chunks_from. }
  split; [exists evs; auto|]. split; [exact Hbytes|].
  rewrite Hr in Hbytes |- *. unfold trial_result in *.
  cbn [goodput throughput res_bytes packets] in *.
  destruct (Qltb 0 _) eqn:E; [|apply Qle_refl].
  apply Qltb_lt in E. unfold Qdiv. apply Qmult_le_compat_r.
  - rewrite <- Zle_Qle. rewrite Hbytes. unfold chunk_size. lia.
  - apply Qlt_le_weak. apply Qinv_lt_0_compat. exact E.
Qed.

Lemma whole_chunks_when_the_chunk_size_divides_the_buffer_witness :
  let buf := firstn 80 sample_buffer in
  let run := transmit_data env_session 10 buf 40 4 true true
               (fresh unbound_client) in
  exists r, fst run = Ret r
            /\ res_bytes r = chunk_size * packets r
            /\ (goodput r <= throughput r)%Q.
Proof.
  intros buf run.
  assert (H : exists r, returned run = Some r)
    by (vm_compute; eexists; reflexivity).
  destruct H as [r H]. apply returned_eq in H.
  destruct (@whole_chunks_when_the_chunk_size_divides_the_buffer
              env_session 10 buf 40 4 true true (fresh unbound_client) r
              (snd run) eq_refl H) as (_ & Hb & Hg).
  exists r. split; [rewrite H; reflexivity|]. split; assumption.
Defined.

(** ** How long a trial runs *)

(** With one of the next [fuel] clock readings not before [finish], the
    loop ends, and it sent at most one chunk for each reading before that
    one. *)
Lemma send_loop_bounded env data_buffer finish sleep_interval :
  forall fuel (s : State ClientVars) k o s',
    (k < fuel)%nat ->
    ~ (clock env (n_time (io s) + k) < finish)%Q ->
    send_loop env fuel data_buffer finish sleep_interval s = (o, s') ->
    o <> OutOfFuel
    /\ packet_count (vars s') - packet_count (vars s) <= Z.of_nat k.
Proof.
  induction fuel as [|fuel IH]; intros s k o s' Hk Hlate H; [lia|].
  cbn [send_loop] in H. erewrite bind_of_ret in H by reflexivity.
  destruct (Qltb (clock env (n_time (io s))) finish) eqn:Hnow.
  2:{ inversion H; subst. split; [discriminate | cbn; lia]. }
  destruct k as [|k].
  { exfalso. apply Hlate. rewrite Nat.add_0_r. now apply Qltb_lt. }
  match type of H with
  | context [bind _ _ ?x] => change x with (clock_read s) in H
  end.
  pose proof (@send_cycle_uses_no_fuel env data_buffer sleep_interval
                (clock_read s)) as Hcycle.
  destruct (send_cycle env data_buffer sleep_interval (clock_read s))
    as [o1 s1] eqn:E.
  pose proof E as Ht. apply same_time_send_cycle in Ht.
  unfold same_time in Ht. cbn [clock_read n_time io] in Ht.
  pose proof E as Hcnt. apply send_cycle_counts in Hcnt.
  assert (Hp : packet_count (vars s1) <= packet_count (vars s) + 1).
  { cbn [clock_read vars] in Hcnt. destruct Hcnt as [(-> & _) | (-> & _)]; lia. }
  unfold bind in H. rewrite E in H.
  destruct o1 as [[]|e|]; cbn in Hcycle; try congruence.
  - apply (IH s1 k) in H; [| lia |].
    + destruct H as [Ho Hle]. split; [exact Ho | lia].
    + rewrite Ht. replace (S (n_time (io s)) + k)%nat
        with (n_time (io s) + S k)%nat by lia.
      exact Hlate.
  - inversion H; subst. split; [discriminate | lia].
  - inversion H; subst. split; [discriminate | lia].
Qed.

(** X4. A connected sender with a rate that is not zero, whose
    [duration] and [rate / chunk_size] are within the floats, returns its
    dictionary once the clock is seen to have passed the end of the trial:
    if the (k+1)-th reading after [start] is not before [start + duration]
    and the fuel allows [k+1] passes, the call returns, and it has sent at
    most [k] chunks. *)
Theorem trial_ends_when_the_clock_passes
    (env : Env) (fuel : nat) (data_buffer : bytes) (rate duration : Z)
    (use_nagle use_delayed_ack : bool) (s : State ClientVars) (k : nat) :
  connect_out env = None -> rate <> 0 -> floatable rate duration ->
  (k < fuel)%nat ->
  ~ (clock env (S (n_time (io s)) + k)
     < clock env (n_time (io s)) + inject_Z duration)%Q ->
  exists r s',
    transmit_data env fuel data_buffer rate duration use_nagle
                  use_delayed_ack s = (Ret r, s')
    /\ packets r <= Z.of_nat k.
Proof.
  intros Hc Hr Hfl Hk Hlate.
  destruct (@transmit_data_returns env fuel data_buffer rate duration
              use_nagle use_delayed_ack s k Hc Hr Hfl Hk Hlate)
    as (r & s' & H).
  exists r, s'. split; [exact H|].
  apply trial_anatomy in H. cbv zeta in H.
  destruct H as (o1 & s2 & Hloop & _ & _ & -> & _).
  eapply send_loop_bounded in Hloop; [| exact Hk | exact Hlate].
  destruct Hloop as [_ Hle]. cbn in Hle |- *. lia.
Qed.

Lemma trial_ends_when_the_clock_passes_witness :
  exists r s',
    transmit_data env_acked 10 sample_buffer 40 3 true true
                  (fresh unbound_client) = (Ret r, s')
    /\ packets r <= 2.
Proof.
  apply (@trial_ends_when_the_clock_passes env_acked 10 sample_buffer 40 3
           true true (fresh unbound_client) 2%nat eq_refl).
  - discriminate.
  - split; vm_compute; reflexivity.
  - repeat constructor.
  - intros H. vm_compute in H. discriminate.
Defined.

(** ** Edge cases of a trial *)

Lemma transmit_data_from_the_loop env fuel data_buffer rate duration
    use_nagle use_delayed_ack (s : State ClientVars) o1 s2 :
  connect_out env = None -> rate <> 0 -> floatable rate duration ->
  send_loop env fuel data_buffer
            (clock env (n_time (io s)) + inject_Z duration)
            (interval_of rate)
            (loop_entry env rate duration use_nagle use_delayed_ack s)
  = (o1, s2) ->
  o1 <> OutOfFuel ->
  let r := trial_result (clock env (n_time (io s2))
                         - clock env (n_time (io s))) (vars s2) in
  transmit_data env fuel data_buffer rate duration use_nagle
                use_delayed_ack s
  = (Ret r,
     push (issue_events o1
           ++ [EvPrint (MsgTransferFinished r); EvClose client_sock])
          (clock_read s2)).
Proof.
  intros Hc Hr [Hd Hf] Hloop Ho r.
  rewrite transmit_data_unfold by assumption.
  erewrite bind_of_ret by (apply pacing_interval_nonzero; assumption).
  erewrite bind_of_ret by reflexivity.
  fold (interval_of rate).
  change (mkState (set_pos 0 (vars (at_pacing env rate duration use_nagle
                                      use_delayed_ack s))) _)
    with (loop_entry env rate duration use_nagle use_delayed_ack s).
  erewrite guarded_transfer_runs by exact Hloop.
  destruct o1 as [u|e|]; [| destruct (is_Exception e) eqn:He |];
    try congruence;
    rewrite finalize_runs; subst r; cbn [issue_events]; rewrite ?He;
    unfold push, clock_read;
    cbn [trace io vars n_time n_send n_recv app];
    rewrite <- ?app_assoc; reflexivity.
Qed.

Lemma py_slice_nil A lo hi : py_slice (@nil A) lo hi = [].
Proof. unfold py_slice. now rewrite skipn_nil, firstn_nil. Qed.

Lemma send_cycle_empty_buffer env sleep_interval (s : State ClientVars) :
  send_cycle env [] sleep_interval s = (Ret Break, s).
Proof.
  unfold send_cycle, bind, get_vars. rewrite py_slice_nil. reflexivity.
Qed.

Lemma send_loop_empty_buffer env fuel finish sleep_interval
    (s : State ClientVars) :
  send_loop env (S fuel) [] finish sleep_interval s
  = (Ret tt, clock_read s).
Proof.
  cbn [send_loop]. erewrite bind_of_ret by reflexivity.
  destruct (Qltb (clock env (n_time (io s))) finish); [|reflexivity].
  erewrite bind_of_ret by apply send_cycle_empty_buffer. reflexivity.
Qed.

(** X5. With an empty buffer a connected sender (rate not zero,
    [duration] and [rate / chunk_size] within the floats, fuel for one
    pass) returns at once: the first slice is empty, the loop is left by
    [break], nothing is written, and the dictionary has zero bytes,
    packets and acknowledgments and zero rates and loss. *)
Theorem empty_buffer_sends_nothing
    (env : Env) (fuel : nat) (rate duration : Z)
    (use_nagle use_delayed_ack : bool) (s : State ClientVars) :
  connect_out env = None -> rate <> 0 -> floatable rate duration ->
  exists r s',
    transmit_data env (S fuel) [] rate duration use_nagle use_delayed_ack s
    = (Ret r, s')
    /\ res_bytes r = 0 /\ packets r = 0 /\ acks r = 0
    /\ (throughput r == 0)%Q /\ (goodput r == 0)%Q /\ loss r = 0%Q
    /\ trace (io s')
       = trace (io s)
         ++ setup_events env rate duration use_nagle use_delayed_ack
         ++ [EvPrint (MsgTransferFinished r); EvClose client_sock].
Proof.
  intros Hc Hr Hfl.
  erewrite transmit_data_from_the_loop;
    [| assumption | assumption | assumption
     | apply send_loop_empty_buffer | discriminate].
  do 2 eexists. split; [reflexivity|].
  cbn [trial_result clock_read loop_entry at_pacing vars io res_bytes packets
       acks throughput goodput loss total_bytes packet_count ack_count
       lost_count issue_events push trace app].
  repeat split; try reflexivity.
  - destruct (Qltb 0 _); [|reflexivity]. unfold Qdiv. apply Qmult_0_l.
  - destruct (Qltb 0 _); [|reflexivity]. unfold Qdiv. apply Qmult_0_l.
  - now rewrite <- app_assoc.
Qed.

Lemma empty_buffer_sends_nothing_witness :
  exists r s',
    transmit_data env_acked 1 [] 40 3 true true (fresh unbound_client)
    = (Ret r, s')
    /\ packets r = 0 /\ sent_on client_sock (trace (io s')) = [].
Proof.
  assert (Hfl : floatable 40 3) by (split; vm_compute; reflexivity).
  destruct (@empty_buffer_sends_nothing env_acked 0 40 3 true true
              (fresh unbound_client) eq_refl ltac:(discriminate) Hfl)
    as (r & s' & H & _ & Hp & _ & _ & _ & _ & Ht).
  exists r, s'. split; [exact H|]. split; [exact Hp|].
  rewrite Ht. reflexivity.
Defined.

Lemma send_loop_first_write_fails env fuel data_buffer finish sleep_interval
    (s : State ClientVars) e :
  (clock env (n_time (io s)) < finish)%Q ->
  py_slice data_buffer (pos (vars s)) (pos (vars s) + chunk_size) <> [] ->
  sendall_out env (n_send (io s)) = Some e ->
  send_loop env (S fuel) data_buffer finish sleep_interval s
  = (Raise e, send_called (clock_read s)).
Proof.
  intros Hnow Hseg Hsend. apply Qltb_lt in Hnow.
  cbn [send_loop]. erewrite bind_of_ret by reflexivity. rewrite Hnow.
  erewrite bind_of_raise; [reflexivity|].
  unfold send_cycle, bind at 1, get_vars at 1. cbn [clock_read vars].
  destruct (py_slice data_buffer (pos (vars s)) (pos (vars s) + chunk_size))
    as [|b seg]; [congruence|].
  erewrite bind_of_raise; [reflexivity|].
  unfold sendall. cbn [n_send io]. rewrite Hsend. reflexivity.
Qed.

Lemma py_slice_first_chunk A (l : list A) :
  l <> [] -> py_slice l 0 (0 + chunk_size) <> [].
Proof.
  intros Hl E. apply (f_equal (@length A)) in E. revert E.
  unfold py_slice, slice_bound, chunk_size, len.
  change (0 <? 0) with false. change (0 + 40 <? 0) with false.
  cbv iota zeta. rewrite (Z.min_l 0) by lia. change (Z.to_nat 0) with 0%nat.
  rewrite length_firstn. cbn [skipn].
  destruct l as [|a l]; [congruence|]. cbn [length]. lia.
Qed.

(** X6. When the first write on the connection raises an error that is an
    [Exception] (the peer is gone), the trial ends there: the error is
    printed, the dictionary is returned with zero bytes, packets and
    acknowledgments, and the socket is closed.  Nothing was written.  The
    sender is connected, its rate is not zero, and [duration] and
    [rate / chunk_size] are within the floats. *)
Theorem failed_first_write_ends_the_trial
    (env : Env) (fuel : nat) (data_buffer : bytes) (rate duration : Z)
    (use_nagle use_delayed_ack : bool) (s : State ClientVars) (e : exn) :
  connect_out env = None -> rate <> 0 -> floatable rate duration ->
  data_buffer <> [] ->
  (clock env (S (n_time (io s)))
   < clock env (n_time (io s)) + inject_Z duration)%Q ->
  sendall_out env (n_send (io s)) = Some e ->
  is_Exception e = true ->
  exists r s',
    transmit_data env (S fuel) data_buffer rate duration use_nagle
                  use_delayed_ack s = (Ret r, s')
    /\ res_bytes r = 0 /\ packets r = 0 /\ acks r = 0
    /\ trace (io s')
       = trace (io s)
         ++ setup_events env rate duration use_nagle use_delayed_ack
         ++ [EvPrint (MsgTransmissionIssue e);
             EvPrint (MsgTransferFinished r); EvClose client_sock].
Proof.
  intros Hc Hr Hfl Hbuf Hnow Hsend Hexc.
  erewrite transmit_data_from_the_loop;
    [| assumption | assumption | assumption
     | apply send_loop_first_write_fails with (e := e) | discriminate].
  - do 2 eexists. split; [reflexivity|].
    cbn [issue_events]. rewrite Hexc.
    cbn [trial_result clock_read send_called loop_entry at_pacing vars io
         res_bytes packets acks total_bytes packet_count ack_count
         push trace app].
    repeat split; try reflexivity. now rewrite <- app_assoc.
  - exact Hnow.
  - cbn [loop_entry clock_read vars pos].
    now apply py_slice_first_chunk.
  - exact Hsend.
Qed.

Lemma failed_first_write_ends_the_trial_witness :
  let env := mkEnv ticking (fun _ => Some ConnectionError)
               (fun _ => Received ACK) None None None None true in
  exists r s',
    transmit_data env 1 [x00; x01]%byte 40 3 true true
                  (fresh unbound_client) = (Ret r, s')
    /\ packets r = 0
    /\ In (EvPrint (MsgTransmissionIssue ConnectionError)) (trace (io s')).
Proof.
  intros env.
  assert (Hfl : floatable 40 3) by (split; vm_compute; reflexivity).
  destruct (@failed_first_write_ends_the_trial env 0 [x00; x01]%byte 40 3
              true true (fresh unbound_client) ConnectionError
              eq_refl ltac:(discriminate) Hfl ltac:(discriminate)
              eq_refl eq_refl eq_refl)
    as (r & s' & H & _ & Hp & _ & Ht).
  exists r, s'. split; [exact H|]. split; [exact Hp|].
  rewrite Ht. apply in_or_app. right. apply in_or_app. right. now left.
Defined.

Lemma interval_of_negative rate : rate < 0 -> (interval_of rate < 0)%Q.
Proof.
  intros Hr. destruct rate as [|p|p]; try lia.
  unfold interval_of, chunk_size, Qlt. cbn. lia.
Qed.

(** X7. With a negative rate the pacing interval is negative and
    [time.sleep] raises: a connected sender with fuel for one pass, whose
    [duration] and [rate / chunk_size] are within the floats, returns its
    dictionary after at most one chunk, however long the trial was meant
    to last. *)
Theorem negative_rate_stops_after_one_chunk
    (env : Env) (fuel : nat) (data_buffer : bytes) (rate duration : Z)
    (use_nagle use_delayed_ack : bool) (s : State ClientVars) :
  connect_out env = None -> rate < 0 -> floatable rate duration ->
  exists r s',
    transmit_data env (S fuel) data_buffer rate duration use_nagle
                  use_delayed_ack s = (Ret r, s')
    /\ 0 <= packets r <= 1.
Proof.
  intros Hc Hr Hfl.
  assert (Hrate : rate <> 0) by lia.
  pose proof (interval_of_negative Hr) as Hneg.
  set (s0 := loop_entry env rate duration use_nagle use_delayed_ack s).
  set (finish := (clock env (n_time (io s)) + inject_Z duration)%Q).
  assert (Hloop : exists o1 s2,
             send_loop env (S fuel) data_buffer finish (interval_of rate) s0
             = (o1, s2)
             /\ o1 <> OutOfFuel
             /\ 0 <= packet_count (vars s2) <= 1).
  { cbn [send_loop]. erewrite bind_of_ret by reflexivity.
    destruct (Qltb (clock env (n_time (io s0))) finish).
    2:{ do 2 eexists. split; [reflexivity|]. split; [discriminate|].
        cbn. lia. }
    match goal with
    | |- context [bind _ _ ?x] => change x with (clock_read s0)
    end.
    destruct (send_cycle env data_buffer (interval_of rate) (clock_read s0))
      as [o s1] eqn:E.
    pose proof E as Hcases. apply send_cycle_cases in Hcases.
    cbv zeta in Hcases. unfold bind. rewrite E.
    destruct Hcases as [(_ & -> & ->) | [(_ & e & _ & -> & ->) | Hsent]].
    - do 2 eexists. split; [reflexivity|]. split; [discriminate|].
      cbn. lia.
    - do 2 eexists. split; [reflexivity|]. split; [discriminate|].
      cbn. lia.
    - destruct Hsent as (_ & _ & evs & _ & _ & _ & _ & Hp & _ & _ & Hraise).
      destruct (Hraise Hneg) as [e ->].
      do 2 eexists. split; [reflexivity|]. split; [discriminate|].
      rewrite Hp. cbn. lia. }
  destruct Hloop as (o1 & s2 & Hloop & Ho & Hp).
  erewrite transmit_data_from_the_loop; try eassumption.
  do 2 eexists. split; [reflexivity|]. exact Hp.
Qed.

Lemma negative_rate_stops_after_one_chunk_witness :
  exists r s',
    transmit_data env_acked 1 sample_buffer (-5) 100 true true
                  (fresh unbound_client) = (Ret r, s')
    /\ 0 <= packets r <= 1.
Proof.
  assert (Hfl : floatable (-5) 100) by (split; vm_compute; reflexivity).
  exact (@negative_rate_stops_after_one_chunk env_acked 0 sample_buffer (-5)
           100 true true (fresh unbound_client) eq_refl eq_refl Hfl).
Defined.

Lemma prints_of_option_events env sk use_nagle use_delayed_ack warning m :
  In (EvPrint m) (option_events env sk use_nagle use_delayed_ack warning) ->
  m = warning /\ use_delayed_ack = false /\ has_TCP_QUICKACK env = false.
Proof.
  unfold option_events.
  destruct use_nagle, use_delayed_ack, (has_TCP_QUICKACK env); cbn;
    intros H; repeat (destruct H as [H|H]; [try discriminate|]);
    try contradiction; inversion H; repeat split.
Qed.

(** X8. When [connect] raises, [transmit_data] raises the same error to
    its caller: the socket was created and its options were set, nothing
    was sent, the socket is not closed, and the only line that can have
    been printed is the warning of the option step, on a platform without
    [TCP_QUICKACK] with delayed acknowledgment switched off. *)
Theorem connect_error_propagates
    (env : Env) (fuel : nat) (data_buffer : bytes) (rate duration : Z)
    (use_nagle use_delayed_ack : bool) (s : State ClientVars) (e : exn) :
  connect_out env = Some e ->
  let evs :=
    EvSocket client_sock
    :: option_events env client_sock use_nagle use_delayed_ack
         MsgQuickackNotSupportedOnPlatform in
  transmit_data env fuel data_buffer rate duration use_nagle
                use_delayed_ack s
  = (Raise e, push evs s)
  /\ closes client_sock evs = 0%nat
  /\ sent_on client_sock evs = []
  /\ (forall m, In (EvPrint m) evs ->
        m = MsgQuickackNotSupportedOnPlatform
        /\ use_delayed_ack = false /\ has_TCP_QUICKACK env = false)
  /\ (use_delayed_ack = false -> has_TCP_QUICKACK env = false ->
      In (EvPrint MsgQuickackNotSupportedOnPlatform) evs).
Proof.
  intros Hc evs. subst evs. split; [|split; [|split; [|split]]].
  - unfold transmit_data, socket_socket, call. rewrite Hc.
    erewrite bind_of_ret by apply emit_runs.
    erewrite bind_of_ret by apply set_client_options_runs.
    erewrite bind_of_raise by reflexivity.
    rewrite push_push. reflexivity.
  - change (EvSocket client_sock :: ?l) with ([EvSocket client_sock] ++ l).
    rewrite closes_app, closes_option_events. reflexivity.
  - change (EvSocket client_sock :: ?l) with ([EvSocket client_sock] ++ l).
    rewrite sent_on_app, sent_on_option_events. reflexivity.
  - intros m [H|H]; [discriminate|].
    eapply prints_of_option_events. exact H.
  - intros -> Hq. right. unfold option_events. rewrite Hq.
    destruct use_nagle; cbn; auto.
Qed.

Lemma connect_error_propagates_witness :
  let env := mkEnv ticking (fun _ => None) (fun _ => Received ACK)
               (Some ConnectionError) None None None true in
  fst (transmit_data env 5 sample_buffer 40 3 false true
         (fresh unbound_client)) = Raise ConnectionError.
Proof.
  intros env.
  destruct (@connect_error_propagates env 5 sample_buffer 40 3 false
              true (fresh unbound_client) ConnectionError eq_refl)
    as [H _].
  rewrite H. reflexivity.
Defined.

(** ** What the two counters of the wait count *)

#[export] Instance keeps_preorder f : PreOrder (keeps f).
Proof.
  split.
  - intros s. reflexivity.
  - intros a b c. unfold keeps. congruence.
Qed.

Lemma keeps_lost_send_loop env fuel data_buffer finish sleep_interval :
  no_timeout env ->
  stable (keeps lost_count)
         (send_loop env fuel data_buffer finish sleep_interval).
Proof.
  intros Henv. apply stable_send_loop; [exact _ | | reflexivity].
  intros s o s' H. apply send_cycle_counts in H. unfold keeps.
  destruct H as [H | [_ H]]; [apply H|].
  destruct (recv_out env (n_recv (io s))) as [data|e] eqn:E; [apply H|].
  rewrite (Henv _ _ E) in H. lia.
Qed.

Lemma keeps_ack_send_loop env fuel data_buffer finish sleep_interval :
  no_token env ->
  stable (keeps ack_count)
         (send_loop env fuel data_buffer finish sleep_interval).
Proof.
  intros Henv. apply stable_send_loop; [exact _ | | reflexivity].
  intros s o s' H. apply send_cycle_counts in H. unfold keeps.
  destruct H as [H | [_ H]]; [apply H|].
  destruct (recv_out env (n_recv (io s))) as [data|e] eqn:E; [|apply H].
  rewrite (Henv _ _ E) in H. lia.
Qed.

Lemma counters_count_only env fuel data_buffer rate duration
    use_nagle use_delayed_ack (s : State ClientVars) r s' :
  transmit_data env fuel data_buffer rate duration use_nagle
                use_delayed_ack s = (Ret r, s') ->
  (no_timeout env -> lost_count (vars s') = 0 /\ (loss r == 0)%Q)
  /\ (no_token env -> acks r = 0 /\ (goodput r == 0)%Q).
Proof.
  intros H. apply trial_anatomy in H. cbv zeta in H.
  destruct H as (o1 & s2 & Hloop & _ & -> & -> & _).
  unfold trial_result. cbn [loss acks goodput].
  split; intros Henv.
  - eapply keeps_lost_send_loop in Hloop; [|exact Henv].
    unfold keeps in Hloop. cbn in Hloop. rewrite Hloop.
    split; [reflexivity|].
    destruct (0 <? packet_count (vars s2)); [|reflexivity].
    unfold Qdiv. apply Qmult_0_l.
  - eapply keeps_ack_send_loop in Hloop; [|exact Henv].
    unfold keeps in Hloop. cbn in Hloop. rewrite Hloop.
    split; [reflexivity|].
    destruct (Qltb 0 _); [|reflexivity].
    unfold Qdiv. apply Qmult_0_l.
Qed.


(** X9. The two counters count what their names say: in a world where no
    wait times out a completed trial has counted no chunk as lost and its
    loss ratio is 0; in a world where no wait returns the token it has
    counted no acknowledgment and its goodput is 0. *)
Theorem counters_count_timeouts_and_tokens
    (env : Env) (fuel : nat) (data_buffer : bytes) (rate duration : Z)
    (use_nagle use_delayed_ack : bool) (s : State ClientVars)
    (r : Result) (s' : State ClientVars) :
  transmit_data env fuel data_buffer rate duration use_nagle
                use_delayed_ack s = (Ret r, s') ->
  (no_timeout env -> lost_count (vars s') = 0 /\ (loss r == 0)%Q)
  /\ (no_token env -> acks r = 0 /\ (goodput r == 0)%Q).
Proof. apply counters_count_only. Qed.

Lemma counters_count_timeouts_and_tokens_witness :
  let run := transmit_data env_unanswered 10 [x00; x01]%byte 40 3 true true
               (fresh unbound_client) in
  exists r, fst run = Ret r
            /\ lost_count (vars (snd run)) = 0 /\ acks r = 0.
Proof.
  intros run.
  assert (H : exists r, returned run = Some r)
    by (vm_compute; eexists; reflexivity).
  destruct H as [r H]. apply returned_eq in H.
  destruct (@counters_count_timeouts_and_tokens env_unanswered 10
              [x00; x01]%byte 40 3 true true (fresh unbound_client) r
              (snd run) H) as [Hl Ha].
  exists r. split; [rewrite H; reflexivity|]. split.
  - apply Hl. intros n e E. discriminate.
  - apply Ha. intros n data E. inversion E. reflexivity.
Defined.

Lemma dictionary_fields env fuel data_buffer rate duration
    use_nagle use_delayed_ack (s : State ClientVars) r s' :
  transmit_data env fuel data_buffer rate duration use_nagle
                use_delayed_ack s = (Ret r, s') ->
  packets r = packet_count (vars s')
  /\ acks r = ack_count (vars s')
  /\ res_bytes r = total_bytes (vars s')
  /\ loss r = (if 0 <? packet_count (vars s')
              then inject_Z (lost_count (vars s'))
                   / inject_Z (packet_count (vars s'))
              else 0)%Q.
Proof.
  intros H. apply completed_trial in H.
  destruct H as (_ & _ & _ & _ & _ & _ & _ & _ & ->).
  repeat split.
Qed.

Lemma all_lost_ack_or_timeout env : all_lost env -> ack_or_timeout env.
Proof. intros H n. right. apply H. Qed.

Lemma all_lost_no_token env : all_lost env -> no_token env.
Proof. intros H n data E. rewrite H in E. discriminate. Qed.

(** X10. When every wait for an acknowledgment times out, a completed
    trial has no acknowledgment, has counted every chunk it sent as lost,
    has goodput 0, and has loss ratio 1 as soon as one chunk was sent. *)
Theorem all_acknowledgments_lost
    (env : Env) (fuel : nat) (data_buffer : bytes) (rate duration : Z)
    (use_nagle use_delayed_ack : bool) (s : State ClientVars)
    (r : Result) (s' : State ClientVars) :
  all_lost env ->
  transmit_data env fuel data_buffer rate duration use_nagle
                use_delayed_ack s = (Ret r, s') ->
  acks r = 0
  /\ lost_count (vars s') = packets r
  /\ (goodput r == 0)%Q
  /\ (0 < packets r -> (loss r == 1)%Q).
Proof.
  intros Henv H.
  pose proof H as Hacc. apply completed_trial_accounted in Hacc.
  destruct Hacc as (_ & _ & _ & Hbal).
  specialize (Hbal (all_lost_ack_or_timeout Henv)).
  pose proof H as Hcnt. apply counters_count_only in Hcnt.
  destruct Hcnt as [_ Hcnt].
  destruct (Hcnt (all_lost_no_token Henv)) as (Hack & Hgood).
  apply dictionary_fields in H. destruct H as (Hp & Ha & _ & Hl).
  split; [exact Hack|]. split; [lia|]. split; [exact Hgood|].
  intros Hpos. rewrite Hl. rewrite Hp in Hpos.
  pose proof Hpos as Hb. apply Z.ltb_lt in Hb. rewrite Hb.
  replace (lost_count (vars s')) with (packet_count (vars s')) by lia.
  apply Qmult_inv_r. intros E. unfold Qeq in E. cbn in E. lia.
Qed.

Lemma all_acknowledgments_lost_witness :
  let run := transmit_data env_all_lost 10 [x00; x01]%byte 40 3 true true
               (fresh unbound_client) in
  exists r, fst run = Ret r /\ acks r = 0 /\ packets r = 2
            /\ (loss r == 1)%Q.
Proof.
  intros run.
  assert (H : exists r, returned run = Some r)
    by (vm_compute; eexists; reflexivity).
  destruct H as [r H]. pose proof H as Hret. apply returned_eq in H.
  destruct (@all_acknowledgments_lost env_all_lost 10 [x00; x01]%byte 40 3
              true true (fresh unbound_client) r (snd run)
              (fun n => eq_refl) H) as (Ha & _ & _ & Hl).
  assert (Hp : packets r = 2) by (vm_compute in Hret; now inversion Hret).
  exists r. split; [rewrite H; reflexivity|]. split; [exact Ha|].
  split; [exact Hp|]. apply Hl. rewrite Hp. reflexivity.
Defined.

(** * Further properties of the receiver *)

Lemma fold_left_after_chunk_send reads : forall s,
  n_send (io (fold_left after_chunk reads s))
  = (n_send (io s) + length reads)%nat.
Proof.
  induction reads as [|p reads IH]; intros s; cbn [fold_left length].
  - now rewrite Nat.add_0_r.
  - rewrite IH. cbn. lia.
Qed.

(** With fuel for one more pass than the chunks the world delivers, the
    loop goes through them and ends as the next read decides. *)
Lemma recv_loop_after_fed env fuel (s : State ServerVars) reads :
  fed env (n_recv (io s)) (n_send (io s)) reads ->
  (length reads < fuel)%nat ->
  let s1 := fold_left after_chunk reads s in
  recv_loop env fuel s
  = match recv_out env (n_recv (io s) + length reads) with
    | Received [] =>
        (Ret tt, push [EvRecv client_conn 4096 []] (recv_called s1))
    | Received (b :: p) =>
        match sendall_out env (n_send (io s) + length reads) with
        | None => recv_loop env (fuel - length reads - 1)
                            (after_chunk s1 (b :: p))
        | Some e => (Raise e, ack_failed s1 (b :: p))
        end
    | RecvRaises e => (Raise e, recv_called s1)
    end.
Proof.
  intros Hfed Hfuel s1.
  replace fuel with (length reads + S (fuel - length reads - 1))%nat at 1
    by lia.
  rewrite recv_loop_fed by exact Hfed. fold s1.
  rewrite recv_loop_step. subst s1.
  rewrite fold_left_after_chunk_recv, fold_left_after_chunk_send.
  reflexivity.
Qed.

(** [launch_server] past [accept], by the way its read loop ends. *)
Lemma launch_server_session env fuel socket_port use_nagle use_delayed_ack
    (s : State ServerVars) o1 s1 :
  bind_out env = None -> listen_out env = None -> accept_out env = None ->
  recv_loop env fuel
    (session_start
       (push (listen_events env socket_port use_nagle use_delayed_ack) s))
  = (o1, s1) ->
  launch_server env fuel socket_port use_nagle use_delayed_ack s
  = match o1 with
    | Ret _ =>
        (Ret tt,
         push [EvPrint (session_report
                          (clock env (n_time (io s1))
                           - clock env (n_time (io s)))
                          (vars s1));
               EvClose client_conn; EvClose srv_socket]
              (clock_read s1))
    | Raise e =>
        if is_Exception e
        then (Ret tt,
              push [EvPrint (MsgErrorOccurred e);
                    EvClose client_conn; EvClose srv_socket] s1)
        else (Raise e, push [EvClose client_conn; EvClose srv_socket] s1)
    | OutOfFuel => (OutOfFuel, s1)
    end.
Proof.
  intros Hb Hl Ha Hloop.
  rewrite launch_server_unfold by assumption.
  apply process_client_runs in Hloop.
  destruct o1 as [[]|e|];
    (erewrite guarded_session_runs by exact Hloop); cbv beta iota;
    try reflexivity.
  rewrite push_push. reflexivity.
Qed.

(** X11. An orderly session: when the world delivers some chunks, none
    empty, and then the end of the stream, a receiver with enough fuel
    returns normally; after the setup it did nothing but read and
    acknowledge each chunk in turn, read the end of the stream, print the
    report with the tally of the chunks, and close both sockets. *)
Theorem orderly_session_reports_and_closes
    (env : Env) (fuel : nat) (socket_port : Z)
    (use_nagle use_delayed_ack : bool) (s : State ServerVars)
    (reads : list bytes) :
  bind_out env = None -> listen_out env = None -> accept_out env = None ->
  fed env (n_recv (io s)) (n_send (io s)) reads ->
  recv_out env (n_recv (io s) + length reads) = Received [] ->
  (length reads < fuel)%nat ->
  exists s',
    launch_server env fuel socket_port use_nagle use_delayed_ack s
    = (Ret tt, s')
    /\ vars s' = tally reads
    /\ trace (io s')
       = trace (io s)
         ++ listen_events env socket_port use_nagle use_delayed_ack
         ++ flat_map chunk_events reads
         ++ [EvRecv client_conn 4096 [];
             EvPrint (session_report
                        (clock env (S (n_time (io s)))
                         - clock env (n_time (io s)))
                        (tally reads));
             EvClose client_conn; EvClose srv_socket].
Proof.
  intros Hb Hl Ha Hfed Heof Hfuel.
  set (s0 := push (listen_events env socket_port use_nagle use_delayed_ack) s).
  pose proof (@recv_loop_after_fed env fuel (session_start s0) reads Hfed
                Hfuel) as Hloop.
  cbv zeta in Hloop. cbn [s0 session_start push clock_read n_recv io] in Hloop.
  rewrite Heof in Hloop.
  erewrite launch_server_session; try eassumption.
  destruct (after_chunks_of_session reads s0) as (Htr & Hv & Ht & _).
  cbv zeta in Htr, Hv, Ht.
  eexists. split; [reflexivity|].
  cbn [push clock_read recv_called trace io vars n_time].
  fold s0. rewrite Htr, Hv, Ht. cbn [s0 push trace io n_time].
  split; [reflexivity|]. now rewrite <- !app_assoc.
Qed.

Lemma orderly_session_reports_and_closes_witness :
  exists s',
    launch_server env_session 5 5000 true true (fresh unbound_server)
    = (Ret tt, s')
    /\ vars s' = tally [ACK; ACK].
Proof.
  assert (Hfed : fed env_session 0 0 [ACK; ACK]).
  { cbn. repeat split; discriminate. }
  assert (Hfuel : (length [ACK; ACK] < 5)%nat) by (cbn; lia).
  destruct (@orderly_session_reports_and_closes env_session 5 5000 true true
              (fresh unbound_server) [ACK; ACK]
              eq_refl eq_refl eq_refl Hfed eq_refl Hfuel)
    as (s' & H & Hv & _).
  exists s'. split; assumption.
Defined.

(** X12. When the write of an acknowledgment raises an error that is an
    [Exception], the chunk just read stays unanswered: the receiver
    prints the error, closes both sockets and returns normally, without a
    report. *)
Theorem failed_acknowledgment_ends_the_session
    (env : Env) (fuel : nat) (socket_port : Z)
    (use_nagle use_delayed_ack : bool) (s : State ServerVars)
    (reads : list bytes) (packet : bytes) (e : exn) :
  bind_out env = None -> listen_out env = None -> accept_out env = None ->
  fed env (n_recv (io s)) (n_send (io s)) reads ->
  packet <> [] ->
  recv_out env (n_recv (io s) + length reads) = Received packet ->
  sendall_out env (n_send (io s) + length reads) = Some e ->
  is_Exception e = true ->
  (length reads < fuel)%nat ->
  exists s',
    launch_server env fuel socket_port use_nagle use_delayed_ack s
    = (Ret tt, s')
    /\ vars s' = count_chunk (tally reads) packet
    /\ trace (io s')
       = trace (io s)
         ++ listen_events env socket_port use_nagle use_delayed_ack
         ++ flat_map chunk_events reads
         ++ [EvRecv client_conn 4096 packet;
             EvPrint (MsgErrorOccurred e);
             EvClose client_conn; EvClose srv_socket].
Proof.
  intros Hb Hl Ha Hfed Hne Hrecv Hsend Hexc Hfuel.
  set (s0 := push (listen_events env socket_port use_nagle use_delayed_ack) s).
  pose proof (@recv_loop_after_fed env fuel (session_start s0) reads Hfed
                Hfuel) as Hloop.
  cbv zeta in Hloop.
  cbn [s0 session_start push clock_read n_recv n_send io] in Hloop.
  rewrite Hrecv, Hsend in Hloop.
  destruct packet as [|b p]; [congruence|].
  erewrite launch_server_session; try eassumption.
  cbv beta iota. rewrite Hexc.
  destruct (after_chunks_of_session reads s0) as (Htr & Hv & _).
  cbv zeta in Htr, Hv.
  eexists. split; [reflexivity|].
  cbn [push ack_failed trace io vars].
  fold s0. rewrite Htr, Hv. cbn [s0 push trace io].
  split; [reflexivity|]. now rewrite <- !app_assoc.
Qed.

Lemma failed_acknowledgment_ends_the_session_witness :
  let env := mkEnv ticking (fun _ => Some ConnectionError)
               (fun _ => Received ACK) None None None None true in
  exists s',
    launch_server env 5 5000 true true (fresh unbound_server) = (Ret tt, s')
    /\ vars s' = mkServerVars 3 1 3.
Proof.
  intros env.
  assert (Hfuel : (length (@nil bytes) < 5)%nat) by (cbn; lia).
  destruct (@failed_acknowledgment_ends_the_session env 5 5000 true true
              (fresh unbound_server) [] ACK ConnectionError
              eq_refl eq_refl eq_refl I ltac:(discriminate) eq_refl eq_refl
              eq_refl Hfuel)
    as (s' & H & Hv & _).
  exists s'. split; [exact H | exact Hv].
Defined.

(** X13. An error in the session that is not an [Exception] (a
    [KeyboardInterrupt] while reading) is not caught by the handler: it
    leaves [launch_server], nothing is printed for it, and both sockets
    have been closed on the way out. *)
Theorem interrupt_leaves_after_closing
    (env : Env) (fuel : nat) (socket_port : Z)
    (use_nagle use_delayed_ack : bool) (s : State ServerVars)
    (reads : list bytes) (e : exn) :
  bind_out env = None -> listen_out env = None -> accept_out env = None ->
  fed env (n_recv (io s)) (n_send (io s)) reads ->
  recv_out env (n_recv (io s) + length reads) = RecvRaises e ->
  is_Exception e = false ->
  (length reads < fuel)%nat ->
  exists s',
    launch_server env fuel socket_port use_nagle use_delayed_ack s
    = (Raise e, s')
    /\ trace (io s')
       = trace (io s)
         ++ listen_events env socket_port use_nagle use_delayed_ack
         ++ flat_map chunk_events reads
         ++ [EvClose client_conn; EvClose srv_socket].
Proof.
  intros Hb Hl Ha Hfed Herr Hexc Hfuel.
  set (s0 := push (listen_events env socket_port use_nagle use_delayed_ack) s).
  pose proof (@recv_loop_after_fed env fuel (session_start s0) reads Hfed
                Hfuel) as Hloop.
  cbv zeta in Hloop.
  cbn [s0 session_start push clock_read n_recv n_send io] in Hloop.
  rewrite Herr in Hloop.
  erewrite launch_server_session; try eassumption.
  cbv beta iota. rewrite Hexc.
  destruct (after_chunks_of_session reads s0) as (Htr & _).
  cbv zeta in Htr.
  eexists. split; [reflexivity|].
  cbn [push recv_called trace io].
  fold s0. rewrite Htr. cbn [s0 push trace io]. now rewrite <- !app_assoc.
Qed.

Lemma interrupt_leaves_after_closing_witness :
  let env := mkEnv ticking (fun _ => None)
               (fun _ => RecvRaises KeyboardInterrupt)
               None None None None true in
  exists s',
    launch_server env 5 5000 true true (fresh unbound_server)
    = (Raise KeyboardInterrupt, s')
    /\ closes srv_socket (trace (io s')) = 1%nat.
Proof.
  intros env.
  assert (Hfuel : (length (@nil bytes) < 5)%nat) by (cbn; lia).
  destruct (@interrupt_leaves_after_closing env 5 5000 true true
              (fresh unbound_server) [] KeyboardInterrupt
              eq_refl eq_refl eq_refl I eq_refl eq_refl Hfuel)
    as (s' & H & Ht).
  exists s'. split; [exact H|]. rewrite Ht. reflexivity.
Defined.

(** X14. When [bind], [listen] or [accept] raises, [launch_server] raises
    that error to its caller before any read, and the listening socket is
    not closed. *)
Theorem server_setup_error_propagates
    (env : Env) (fuel : nat) (socket_port : Z)
    (use_nagle use_delayed_ack : bool) (s : State ServerVars) (e : exn) :
  bind_out env = Some e
  \/ (bind_out env = None /\ listen_out env = Some e)
  \/ (bind_out env = None /\ listen_out env = None
      /\ accept_out env = Some e) ->
  exists evs,
    launch_server env fuel socket_port use_nagle use_delayed_ack s
    = (Raise e, push evs s)
    /\ closes srv_socket evs = 0%nat
    /\ closes client_conn evs = 0%nat
    /\ received_on client_conn evs = []
    /\ ~ In (EvAccept srv_socket) evs.
Proof.
  intros H. unfold launch_server, socket_socket, print, call.
  erewrite bind_of_ret by apply emit_runs.
  erewrite bind_of_ret by apply adjust_socket_options_runs.
  assert (Hopt : forall sk,
             closes sk (option_events env srv_socket use_nagle
                          use_delayed_ack MsgQuickackNotSupportedOnSystem)
             = 0%nat) by (intros; apply closes_option_events).
  assert (Hin : forall evs,
             ~ In (EvAccept srv_socket) evs ->
             ~ In (EvAccept srv_socket)
                  ([EvSocket srv_socket]
                   ++ option_events env srv_socket use_nagle use_delayed_ack
                        MsgQuickackNotSupportedOnSystem ++ evs)).
  { intros evs Hevs Hi. apply in_app_or in Hi.
    destruct Hi as [[Hi|[]]|Hi]; [discriminate|].
    apply in_app_or in Hi. destruct Hi as [Hi|Hi]; [|now apply Hevs].
    unfold option_events in Hi.
    destruct use_nagle, use_delayed_ack, (has_TCP_QUICKACK env);
      cbn in Hi; intuition discriminate. }
  assert (Hrecv : forall evs,
             received_on client_conn evs = [] ->
             received_on client_conn
               ([EvSocket srv_socket]
                ++ option_events env srv_socket use_nagle use_delayed_ack
                     MsgQuickackNotSupportedOnSystem ++ evs) = []).
  { intros evs Hevs. unfold option_events.
    destruct use_nagle, use_delayed_ack, (has_TCP_QUICKACK env);
      cbn; exact Hevs. }
  destruct H as [Hb | [(Hb & Hl) | (Hb & Hl & Ha)]].
  - rewrite Hb. erewrite bind_of_raise by reflexivity.
    rewrite push_push.
    eexists. split; [reflexivity|].
    rewrite !closes_app, !Hopt.
    split; [reflexivity|]. split; [reflexivity|].
    split; [rewrite <- (app_nil_r (option_events _ _ _ _ _));
            apply Hrecv; reflexivity|].
    rewrite <- (app_nil_r (option_events _ _ _ _ _)). apply Hin. intros [].
  - rewrite Hb, Hl. erewrite bind_of_ret by apply emit_runs.
    erewrite bind_of_raise by reflexivity.
    rewrite !push_push, <- ?app_assoc.
    eexists. split; [reflexivity|].
    rewrite !closes_app, !Hopt.
    split; [reflexivity|]. split; [reflexivity|].
    split; [apply Hrecv; reflexivity|].
    apply Hin. cbn. intuition discriminate.
  - rewrite Hb, Hl, Ha. do 5 (erewrite bind_of_ret by apply emit_runs).
    erewrite bind_of_raise by reflexivity.
    rewrite !push_push, <- ?app_assoc.
    eexists. split; [reflexivity|].
    rewrite !closes_app, !Hopt.
    split; [reflexivity|]. split; [reflexivity|].
    split; [apply Hrecv; reflexivity|].
    apply Hin. cbn. intuition discriminate.
Qed.

Lemma server_setup_error_propagates_witness :
  let env := mkEnv ticking (fun _ => None) (fun _ => Received [])
               None (Some ConnectionError) None None true in
  fst (launch_server env 5 5000 true true (fresh unbound_server))
  = Raise ConnectionError.
Proof.
  intros env.
  destruct (@server_setup_error_propagates env 5 5000 true true
              (fresh unbound_server) ConnectionError (or_introl eq_refl))
    as (evs & H & _).
  rewrite H. reflexivity.
Defined.

(** ** The receiver's counters *)

Lemma tally_snoc reads p : tally (reads ++ [p]) = count_chunk (tally reads) p.
Proof. unfold tally. now rewrite fold_left_app. Qed.

(** Whatever way [process_client] ends, its counters are the tally of some
    non-empty chunks, and what it did is the trace of a session. *)
Lemma session_counters env fuel (s : State ServerVars) o s' :
  process_client env fuel s = (o, s') ->
  exists reads, Forall (fun p => p <> []) reads /\ vars s' = tally reads.
Proof.
  intros H.
  destruct (recv_loop env fuel (session_start s)) as [o1 s1] eqn:Hloop.
  erewrite process_client_runs in H by exact Hloop.
  apply recv_loop_trace in Hloop. destruct Hloop as (reads & Hfed & Hend).
  apply fed_nonempty in Hfed.
  destruct (after_chunks_of_session reads s) as (_ & Hv & _).
  cbv zeta in *.
  destruct o1 as [[]|e|]; inversion H; subst; clear H.
  - destruct Hend as [_ ->]. exists reads. split; [exact Hfed|]. exact Hv.
  - destruct Hend as [[_ ->] | (p & Hp & _ & _ & ->)].
    + exists reads. split; [exact Hfed|]. exact Hv.
    + exists (reads ++ [p]). split.
      * apply Forall_app. split; [exact Hfed|]. constructor; [exact Hp|].
        constructor.
      * rewrite tally_snoc. cbn [ack_failed vars]. now rewrite Hv.
  - exists reads. split; [exact Hfed|]. exact Hv.
Qed.

Lemma count_chunk_bounds reads : forall v,
  Forall (fun p => p <> []) reads ->
  0 <= packet_num v <= total_data v ->
  0 <= max_size v <= total_data v ->
  total_data v <= packet_num v * max_size v ->
  let v' := fold_left count_chunk reads v in
  0 <= packet_num v' <= total_data v'
  /\ 0 <= max_size v' <= total_data v'
  /\ total_data v' <= packet_num v' * max_size v'.
Proof.
  induction reads as [|p reads IH]; intros v Hne H1 H2 H3;
    cbn [fold_left]; [auto|].
  inversion Hne as [|q qs Hp Hqs]; subst.
  assert (Hl : 1 <= len p).
  { unfold len. destruct p; [congruence|]. cbn [length]. lia. }
  apply IH; [exact Hqs | | |]; unfold count_chunk;
    cbn [total_data packet_num max_size];
    destruct (len p >? max_size v) eqn:E;
    try (apply Z.gtb_lt in E); try (rewrite Z.gtb_ltb in E; apply Z.ltb_ge in E);
    try lia; nia.
Qed.

(** X15. However a session ends, the receiver's counters bound each
    other: there are at most as many chunks as bytes, the largest chunk is
    at most the total, and the total is at most the number of chunks times
    the largest chunk. *)
Theorem receiver_counters_bound_each_other
    (env : Env) (fuel : nat) (s : State ServerVars)
    (o : outcome unit) (s' : State ServerVars) :
  process_client env fuel s = (o, s') ->
  0 <= packet_num (vars s') <= total_data (vars s')
  /\ 0 <= max_size (vars s') <= total_data (vars s')
  /\ total_data (vars s') <= packet_num (vars s') * max_size (vars s').
Proof.
  intros H. apply session_counters in H. destruct H as (reads & Hne & ->).
  unfold tally. apply count_chunk_bounds; cbn; try lia. exact Hne.
Qed.

Lemma receiver_counters_bound_each_other_witness :
  let s' := snd (process_client env_read_error 5 (fresh unbound_server)) in
  0 <= packet_num (vars s') <= total_data (vars s')
  /\ 0 <= max_size (vars s') <= total_data (vars s')
  /\ total_data (vars s') <= packet_num (vars s') * max_size (vars s').
Proof.
  intros s'.
  exact (@receiver_counters_bound_each_other env_read_error 5
           (fresh unbound_server) _ s' (surjective_pairing _)).
Defined.

(** * Sender and receiver together *)

Lemma returned_session env fuel (s : State ServerVars) s' :
  process_client env fuel s = (Ret tt, s') ->
  exists reads report,
    Forall (fun p => p <> []) reads
    /\ vars s' = tally reads
    /\ trace (io s')
       = trace (io s) ++ flat_map chunk_events reads
         ++ [EvRecv client_conn 4096 []; EvPrint report].
Proof.
  intros H.
  destruct (recv_loop env fuel (session_start s)) as [o1 s1] eqn:Hloop.
  erewrite process_client_runs in H by exact Hloop.
  apply recv_loop_trace in Hloop. destruct Hloop as (reads & Hfed & Hend).
  apply fed_nonempty in Hfed.
  destruct (after_chunks_of_session reads s) as (Htr & Hv & _).
  cbv zeta in *.
  destruct o1 as [[]|e|]; inversion H; subst; clear H.
  destruct Hend as [_ ->].
  exists reads. eexists. split; [exact Hfed|].
  cbn [push clock_read recv_called trace io vars].
  rewrite Htr, Hv, <- !app_assoc. split; reflexivity.
Qed.

Lemma received_on_app sk tr1 tr2 :
  received_on sk (tr1 ++ tr2) = received_on sk tr1 ++ received_on sk tr2.
Proof.
  induction tr1 as [|e tr1 IH]; [reflexivity|].
  destruct e; cbn [received_on app]; rewrite ?IH; try reflexivity.
  destruct (is_close _ _); reflexivity.
Qed.

Lemma received_on_chunks reads :
  received_on client_conn (flat_map chunk_events reads) = reads.
Proof.
  induction reads as [|p reads IH]; [reflexivity|].
  cbn. now rewrite IH.
Qed.

Lemma sent_on_chunks reads :
  sent_on client_conn (flat_map chunk_events reads)
  = map (fun _ => ACK) reads.
Proof.
  induction reads as [|p reads IH]; [reflexivity|].
  cbn. now rewrite IH.
Qed.

Lemma len_concat (chunks : list bytes) : len (concat chunks) = total_len chunks.
Proof.
  unfold total_len, len. induction chunks as [|c chunks IH]; [reflexivity|].
  cbn [concat map fold_right]. rewrite length_app, Nat2Z.inj_add, IH.
  reflexivity.
Qed.

Lemma tally_total reads : total_data (tally reads) = total_len reads.
Proof. unfold total_len. apply tally_totals. Qed.

(** X16. A completed trial against a session that returned: when the
    bytes the receiver read, put end to end, are the bytes the sender
    wrote, however the transport cut them into reads, the receiver's byte
    count is the sender's; when moreover each read was one chunk, the
    receiver's chunk count is the sender's packet count.  The receiver
    wrote one [b'ACK'] for each chunk it counted. *)
Theorem receiver_counts_the_bytes_the_sender_wrote
    (cenv senv : Env) (fuel : nat) (data_buffer : bytes) (rate duration : Z)
    (use_nagle use_delayed_ack : bool) (cs : State ClientVars)
    (r : Result) (cs' : State ClientVars)
    (fuel' : nat) (ss ss' : State ServerVars) (cevs sevs : list event) :
  transmit_data cenv fuel data_buffer rate duration use_nagle
                use_delayed_ack cs = (Ret r, cs') ->
  process_client senv fuel' ss = (Ret tt, ss') ->
  trace (io cs') = trace (io cs) ++ cevs ->
  trace (io ss') = trace (io ss) ++ sevs ->
  (concat (received_on client_conn sevs) = concat (sent_on client_sock cevs)
   -> total_data (vars ss') = res_bytes r)
  /\ (received_on client_conn sevs = sent_on client_sock cevs ++ [[]]
      -> packet_num (vars ss') = packets r)
  /\ sent_on client_conn sevs
     = repeat ACK (Z.to_nat (packet_num (vars ss'))).
Proof.
  intros Hc Hs Hct Hst.
  apply trial_chunks in Hc.
  destruct Hc as (n & evs & Ht & Hsent & _ & Hp & Hb).
  rewrite Ht in Hct. apply app_inv_head in Hct. subst evs.
  apply returned_session in Hs.
  destruct Hs as (reads & report & Hne & Hv & Htr).
  rewrite Htr in Hst. apply app_inv_head in Hst. subst sevs.
  rewrite received_on_app, received_on_chunks, sent_on_app, sent_on_chunks.
  cbn [received_on sent_on is_close app].
  rewrite Hv, tally_total, Hb, app_nil_r.
  split; [|split].
  - intros E. rewrite concat_app in E. cbn [concat] in E.
    rewrite !app_nil_r in E. rewrite <- !len_concat. now rewrite E.
  - intros E. apply app_inj_tail in E. destruct E as [E _].
    destruct (tally_totals reads) as [-> _]. rewrite Hp, E, Hsent.
    unfold len. now rewrite length_chunks_from.
  - destruct (tally_totals reads) as [-> _]. unfold len.
    rewrite Nat2Z.id. clear. induction reads as [|p reads IH];
      [reflexivity|]. cbn. now rewrite IH.
Qed.

Lemma receiver_counts_the_bytes_the_sender_wrote_witness :
  let chunk := [x00; x01]%byte in
  let senv := mkEnv ticking (fun _ => None)
                (fun n => if (n <? 2)%nat then Received chunk
                          else Received [])
                None None None None true in
  let crun := transmit_data env_acked 10 chunk 40 3 true true
                (fresh unbound_client) in
  let srun := process_client senv 10 (fresh unbound_server) in
  exists r, fst crun = Ret r
            /\ total_data (vars (snd srun)) = res_bytes r
            /\ packet_num (vars (snd srun)) = packets r.
Proof.
  intros chunk senv crun srun.
  assert (Hc : exists r, returned crun = Some r)
    by (vm_compute; eexists; reflexivity).
  destruct Hc as [r Hc]. apply returned_eq in Hc.
  assert (Hs : srun = (Ret tt, snd srun)) by (vm_compute; reflexivity).
  destruct (@receiver_counts_the_bytes_the_sender_wrote env_acked senv 10
              chunk 40 3 true true (fresh unbound_client) r (snd crun)
              10%nat (fresh unbound_server) (snd srun)
              (trace (io (snd crun))) (trace (io (snd srun)))
              Hc Hs eq_refl eq_refl) as (Hb & Hp & _).
  exists r. split; [rewrite Hc; reflexivity|]. split.
  - apply Hb. vm_compute. reflexivity.
  - apply Hp. vm_compute. reflexivity.
Defined.

(** * The option step on both sides *)

Lemma options_set_option_events env sk use_nagle use_delayed_ack warning :
  options_set sk (option_events env sk use_nagle use_delayed_ack warning)
  = (if use_nagle then [] else [TCP_NODELAY])
    ++ (if use_delayed_ack then []
        else if has_TCP_QUICKACK env then [TCP_QUICKACK] else []).
Proof.
  unfold option_events.
  destruct sk, use_nagle, use_delayed_ack, (has_TCP_QUICKACK env);
    reflexivity.
Qed.

(** X17. The option step of the sender and that of the receiver never
    raise and set the same options on their socket, whatever the flags and
    the platform: [TCP_NODELAY] exactly when Nagle is off, then
    [TCP_QUICKACK] exactly when delayed acknowledgment is off and the
    platform has the option.  They leave the clock, the locals and the
    counts of reads and writes alone, and with both flags on they do
    nothing at all. *)
Theorem option_steps_agree
    (env : Env) (L : Type) (sk : sock) (use_nagle use_delayed_ack : bool)
    (s : State L) :
  exists cevs sevs,
    set_client_options env sk use_nagle use_delayed_ack s
    = (Ret tt, push cevs s)
    /\ adjust_socket_options env sk use_nagle use_delayed_ack s
       = (Ret tt, push sevs s)
    /\ options_set sk cevs = options_set sk sevs
    /\ options_set sk cevs
       = (if use_nagle then [] else [TCP_NODELAY])
         ++ (if use_delayed_ack then []
             else if has_TCP_QUICKACK env then [TCP_QUICKACK] else [])
    /\ (use_nagle = true -> use_delayed_ack = true ->
        cevs = [] /\ sevs = []).
Proof.
  do 2 eexists.
  split; [apply set_client_options_runs|].
  split; [apply adjust_socket_options_runs|].
  rewrite !options_set_option_events.
  split; [reflexivity|]. split; [reflexivity|].
  intros -> ->. split; reflexivity.
Qed.

(** * The controller reads what the client printed *)

(** ** Strings *)

Lemma starts_with_trans (a b c : String.string) :
  starts_with a b = true -> starts_with b c = true -> starts_with a c = true.
Proof.
  revert b c. induction a as [|x a IH]; intros b c Hab Hbc; [reflexivity|].
  destruct b as [|y b]; [discriminate|].
  destruct c as [|z c]; [discriminate|].
  cbn in *. apply andb_true_iff in Hab as [Hxy Hab].
  apply andb_true_iff in Hbc as [Hyz Hbc].
  apply Ascii.eqb_eq in Hxy, Hyz. subst.
  rewrite Ascii.eqb_refl. cbn. eauto.
Qed.

Lemma starts_with_refl (s : String.string) : starts_with s s = true.
Proof.
  induction s as [|c s IH]; [reflexivity|].
  cbn. rewrite Ascii.eqb_refl. exact IH.
Qed.

Lemma py_in_unfold (k s : String.string) :
  py_in k s =
  starts_with k s ||
  match s with
  | String.EmptyString => false
  | String.String _ s' => py_in k s'
  end.
Proof. destruct s; reflexivity. Qed.

Lemma py_in_empty (s : String.string) : py_in String.EmptyString s = true.
Proof. destruct s; reflexivity. Qed.

Lemma py_in_nowhere (k : String.string) :
  py_in k String.EmptyString = true -> k = String.EmptyString.
Proof. destruct k; [reflexivity|discriminate]. Qed.

Lemma py_in_cons (k : String.string) (c : Ascii.ascii) (s : String.string) :
  py_in k s = true -> py_in k (String.String c s) = true.
Proof. intros H. rewrite py_in_unfold, H. apply orb_true_r. Qed.

(** What is found in a prefix of a text is found in the text. *)
Lemma py_in_of_prefix (k p s : String.string) :
  starts_with p s = true -> py_in k p = true -> py_in k s = true.
Proof.
  revert s. induction p as [|c p IH]; intros s Hp Hk.
  - apply py_in_nowhere in Hk. subst. apply py_in_empty.
  - destruct s as [|d s]; [discriminate|].
    cbn in Hp. apply andb_true_iff in Hp as [Hcd Hp].
    apply Ascii.eqb_eq in Hcd. subst d.
    rewrite py_in_unfold in Hk. apply orb_true_iff in Hk as [Hk|Hk].
    + rewrite py_in_unfold.
      rewrite (@starts_with_trans k (String.String c p) (String.String c s));
        [reflexivity|exact Hk|].
      cbn. rewrite Ascii.eqb_refl. exact Hp.
    + apply py_in_cons. eauto.
Qed.

Lemma py_in_lstrip_by (drop : Ascii.ascii -> bool) (k s : String.string) :
  py_in k (lstrip_by drop s) = true -> py_in k s = true.
Proof.
  induction s as [|c s IH]; intros H; [exact H|].
  cbn in H. destruct (drop c); [|exact H].
  apply py_in_cons. auto.
Qed.

Lemma rstrip_by_prefix (drop : Ascii.ascii -> bool) (s : String.string) :
  starts_with (rstrip_by drop s) s = true.
Proof.
  induction s as [|c s IH]; [reflexivity|].
  cbn. destruct (is_empty (rstrip_by drop s) && drop c); [reflexivity|].
  cbn. rewrite Ascii.eqb_refl. exact IH.
Qed.

(** What is found in the stripped text is found in the text. *)
Lemma py_in_strip (k s : String.string) :
  py_in k (strip s) = true -> py_in k s = true.
Proof.
  intros H. apply (@py_in_lstrip_by isspace).
  eapply py_in_of_prefix; [apply rstrip_by_prefix|exact H].
Qed.

Lemma split_on_head (sep : Ascii.ascii) (s : String.string) :
  exists field fields,
    split_on sep s = field :: fields /\ starts_with field s = true.
Proof.
  induction s as [|c s (field & fields & E & Hp)].
  - exists String.EmptyString, []. split; reflexivity.
  - cbn. destruct (Ascii.eqb c sep).
    + exists String.EmptyString, (split_on sep s). split; reflexivity.
    + rewrite E. exists (String.String c field), fields.
      split; [reflexivity|]. cbn. rewrite Ascii.eqb_refl. exact Hp.
Qed.

(** What is found in a field of a split text is found in the text. *)
Lemma py_in_split_on (sep : Ascii.ascii) (k s field : String.string) :
  In field (split_on sep s) -> py_in k field = true -> py_in k s = true.
Proof.
  revert field. induction s as [|c s IH]; intros field Hin Hk.
  - destruct Hin as [<-|[]]. exact Hk.
  - cbn in Hin. destruct (Ascii.eqb c sep).
    + destruct Hin as [<-|Hin].
      * apply py_in_nowhere in Hk. subst. apply py_in_empty.
      * apply py_in_cons. eauto.
    + destruct (split_on_head sep s) as (f & fs & E & Hp).
      rewrite E in Hin, IH. destruct Hin as [<-|Hin].
      * apply (@py_in_of_prefix k (String.String c f)); [|exact Hk].
        cbn. rewrite Ascii.eqb_refl. exact Hp.
      * apply py_in_cons. apply (IH field); [right; exact Hin|exact Hk].
Qed.

(** A line of a text without the label has not got it either. *)
Lemma line_without (k raw line : String.string) :
  py_in k raw = false ->
  In line (split_on "010"%char (strip raw)) -> py_in k line = false.
Proof.
  intros Hraw Hin. destruct (py_in k line) eqn:E; [|reflexivity].
  eapply py_in_split_on in E; [|exact Hin]. apply py_in_strip in E. congruence.
Qed.

Lemma parse_line_without_labels
    (py_float : String.string -> option Q) (py_int : String.string -> option Z)
    (metrics : Metrics) (line : String.string) :
  (forall k, In k metric_labels -> py_in k line = false) ->
  parse_line py_float py_int metrics line = metrics.
Proof.
  intros H. unfold parse_line.
  rewrite !H by (cbn; tauto). reflexivity.
Qed.

Lemma parse_lines_without_labels
    (py_float : String.string -> option Q) (py_int : String.string -> option Z)
    (lines : list String.string) (metrics : Metrics) :
  (forall line k, In line lines -> In k metric_labels -> py_in k line = false) ->
  fold_left (parse_line py_float py_int) lines metrics = metrics.
Proof.
  revert metrics. induction lines as [|line lines IH]; intros metrics H;
    [reflexivity|].
  cbn [fold_left]. rewrite parse_line_without_labels.
  - apply IH. intros l k Hl. apply H. right. exact Hl.
  - intros k. apply H. left. reflexivity.
Qed.

Lemma parse_output_without_labels
    (py_float : String.string -> option Q) (py_int : String.string -> option Z)
    (raw_output : String.string) :
  (forall k, In k metric_labels -> py_in k raw_output = false) ->
  parse_output py_float py_int raw_output = [].
Proof.
  intros H. unfold parse_output. apply parse_lines_without_labels.
  intros line k Hline Hk. eapply line_without; eauto.
Qed.

(** X18: a text in which none of the five labels occurs gives the empty
    dict, whatever else it holds. *)
Theorem text_without_labels_gives_no_metrics
    (py_float : String.string -> option Q) (py_int : String.string -> option Z)
    (raw_output : String.string) :
  (forall k, In k metric_labels -> py_in k raw_output = false) ->
  parse_output py_float py_int raw_output = [].
Proof. apply parse_output_without_labels. Qed.

Lemma text_without_labels_gives_no_metrics_witness :
  parse_output (fun _ => Some 1%Q) (fun _ => Some 1)
    ("Achieved throughput: 12.50 B/s" ++ newline ++ "Total bytes sent: 40")
  = [].
Proof.
  apply text_without_labels_gives_no_metrics.
  intros k Hk. cbn in Hk.
  repeat (destruct Hk as [<-|Hk]; [vm_compute; reflexivity|]).
  destruct Hk.
Defined.

(** ** Scanning a printed text for a label *)

Lemma append_assoc (a b c : String.string) :
  ((a ++ b) ++ c = a ++ b ++ c)%string.
Proof. induction a as [|x a IH]; [reflexivity|]. cbn. now rewrite IH. Qed.

Lemma clash_starts_with (k a b : String.string) :
  clash k a = true -> starts_with k (a ++ b) = false.
Proof.
  revert a. induction k as [|c k IH]; intros a H; [discriminate|].
  destruct a as [|d a]; [discriminate|].
  cbn in *. destruct (Ascii.eqb c d); [cbn; auto|reflexivity].
Qed.

(** A fixed text in which the label cannot begin is skipped. *)
Lemma scan_lit (k a b : String.string) :
  no_overlap k a = true -> py_in k (a ++ b) = py_in k b.
Proof.
  induction a as [|c a IH]; intros H; [reflexivity|].
  cbn [no_overlap] in H. apply andb_true_iff in H as [Hc H].
  change (String.String c a ++ b)%string with (String.String c (a ++ b)%string).
  rewrite py_in_unfold.
  change (String.String c (a ++ b)%string) with (String.String c a ++ b)%string.
  rewrite (clash_starts_with _ _ b Hc). cbn [orb]. auto.
Qed.

(** A text without capitals is skipped by a label that begins with
    one. *)
Lemma scan_hole (k v b : String.string) :
  starts_upper k = true -> no_upper v = true ->
  py_in k (v ++ b) = py_in k b.
Proof.
  intros Hk. induction v as [|d v IH]; intros H; [reflexivity|].
  cbn [no_upper] in H. apply andb_true_iff in H as [Hd H].
  change (String.String d v ++ b)%string with (String.String d (v ++ b)%string).
  rewrite py_in_unfold, (IH H).
  destruct k as [|c k]; [discriminate|]. cbn in Hk.
  cbn [starts_with]. destruct (Ascii.eqb_spec c d) as [->|_].
  - rewrite Hk in Hd. discriminate.
  - reflexivity.
Qed.

Lemma starts_with_before (c : Ascii.ascii) (k w b : String.string) :
  has_char c k = false ->
  starts_with k (w ++ String.String c b) = starts_with k w.
Proof.
  revert w. induction k as [|e k IH]; intros w H; [reflexivity|].
  cbn [has_char] in H. apply orb_false_iff in H as [Hce H].
  destruct w as [|d w]; cbn.
  - rewrite Ascii.eqb_sym, Hce. reflexivity.
  - rewrite (IH w H). reflexivity.
Qed.

(** A text without the label, closed by a newline, is skipped by a label
    of one line. *)
Lemma scan_line (k v b : String.string) :
  has_char "010"%char k = false -> py_in k v = false ->
  py_in k (v ++ newline ++ b) = py_in k b.
Proof.
  intros Hk. unfold newline. cbn [String.append].
  induction v as [|d v IH]; intros H.
  - destruct k as [|e k]; [discriminate|].
    cbn [has_char] in Hk. apply orb_false_iff in Hk as [Hk _].
    cbn [String.append]. rewrite py_in_unfold. cbn [starts_with].
    rewrite Ascii.eqb_sym, Hk. reflexivity.
  - rewrite py_in_unfold in H. apply orb_false_iff in H as [H1 H2].
    change (String.String d v ++ String.String "010"%char b)%string
      with (String.String d (v ++ String.String "010"%char b)%string).
    rewrite py_in_unfold, (IH H2).
    change (String.String d (v ++ String.String "010"%char b)%string)
      with (String.String d v ++ String.String "010"%char b)%string.
    rewrite starts_with_before by exact Hk. rewrite H1. reflexivity.
Qed.

Lemma no_upper_string_of_uint (d : Decimal.uint) :
  no_upper (DecimalString.NilEmpty.string_of_uint d) = true.
Proof. induction d; cbn; auto. Qed.

(** [str] of an int has no capital letter. *)
Lemma no_upper_str_int (n : Z) : no_upper (str_int n) = true.
Proof.
  unfold str_int. destruct (Z.to_int n) as [d|d]; cbn;
    destruct d; try reflexivity; apply (no_upper_string_of_uint (_ d)).
Qed.

Section Stdout.

Variable server_addr : String.string.
Variable port_number : Z.
Variable fmt_2f : Q -> String.string.
Variable fmt_pct : Q -> String.string.
Variable str_exn : exn -> String.string.

Hypothesis addr_no_upper : no_upper server_addr = true.
Hypothesis fmt_2f_no_upper : forall x, no_upper (fmt_2f x) = true.
Hypothesis fmt_pct_no_upper : forall x, no_upper (fmt_pct x) = true.
Hypothesis str_exn_no_label :
  forall e k, In k metric_labels -> py_in k (str_exn e) = false.

Lemma label_cases (k : String.string) :
  In k metric_labels ->
  starts_upper k = true /\ has_char "010"%char k = false /\
  (k = "Throughput:" \/ k = "Goodput:" \/ k = "Packet loss rate:" \/
   k = "Bytes sent:" \/ k = "Packets sent:")%string.
Proof.
  intros Hk. cbn in Hk.
  repeat (destruct Hk as [<-|Hk]; [repeat split; tauto|]). destruct Hk.
Qed.

(** No label begins in what a [print] of the client writes. *)
Lemma label_skips_print (k : String.string) (m : message)
    (rest : String.string) :
  In k metric_labels ->
  match client_text server_addr port_number fmt_2f fmt_pct str_exn m with
  | Some t => py_in k (t ++ newline ++ rest) = py_in k rest
  | None => True
  end.
Proof.
  intros Hk.
  pose proof (fun e => @str_exn_no_label e k Hk) as Hexn.
  pose proof no_upper_str_int as Hint.
  apply label_cases in Hk. destruct Hk as (Hup & Hnl & Hk).
  destruct m as [| | |on|on|? ?|?|?| | | |];
    cbv beta iota delta [client_text]; try exact I; try destruct on;
    rewrite ?append_assoc;
    repeat first
      [ rewrite scan_hole by (solve [ exact Hup | auto ])
      | rewrite scan_line by (solve [ exact Hnl | auto ])
      | rewrite scan_lit
          by (decompose [or] Hk; subst k; reflexivity) ];
    reflexivity.
Qed.

(** None of the labels occurs in the standard output of a client. *)
Lemma no_label_in_client_stdout (tr : list event) (k : String.string) :
  In k metric_labels ->
  py_in k (client_stdout server_addr port_number fmt_2f fmt_pct str_exn tr)
  = false.
Proof.
  intros Hk. induction tr as [|e tr IH].
  - cbn in Hk. repeat (destruct Hk as [<-|Hk]; [reflexivity|]). destruct Hk.
  - destruct e; try exact IH.
    cbn [client_stdout].
    pose proof (@label_skips_print k m (client_stdout server_addr port_number fmt_2f fmt_pct str_exn tr) Hk) as Hm.
    destruct (client_text server_addr port_number fmt_2f fmt_pct str_exn m);
      [|exact IH].
    rewrite Hm. exact IH.
Qed.

End Stdout.

(** ** The controller and the client *)

(** X19. Whatever a run of [transmit_data] did and however it ended,
    [parse_output] reads no metric from what the run printed: the labels
    it looks for ("Throughput:", "Goodput:", "Packet loss rate:",
    "Bytes sent:", "Packets sent:") are not the ones the client prints
    ("Achieved throughput:", "Effective goodput:", "Packet loss:",
    "Total bytes sent:", "Packets transmitted:"), and the test is
    case-sensitive.  The formats of the numbers and the address are taken
    to have no capital letter, the text of an error to hold none of the
    labels. *)
Theorem controller_reads_no_metric_from_a_client_run
    (server_addr : String.string) (port_number : Z)
    (fmt_2f fmt_pct : Q -> String.string) (str_exn : exn -> String.string)
    (py_float : String.string -> option Q) (py_int : String.string -> option Z)
    (env : Env) (fuel : nat) (data_buffer : bytes) (rate duration : Z)
    (use_nagle use_delayed_ack : bool) (s s' : State ClientVars)
    (o : outcome Result) :
  no_upper server_addr = true ->
  (forall x, no_upper (fmt_2f x) = true) ->
  (forall x, no_upper (fmt_pct x) = true) ->
  (forall e k, In k metric_labels -> py_in k (str_exn e) = false) ->
  transmit_data env fuel data_buffer rate duration use_nagle use_delayed_ack s
  = (o, s') ->
  parse_output py_float py_int
    (client_stdout server_addr port_number fmt_2f fmt_pct str_exn
       (trace (io s')))
  = [].
Proof.
  intros Ha Hf Hp He _. apply parse_output_without_labels.
  intros k Hk. apply no_label_in_client_stdout; assumption.
Qed.

Lemma controller_reads_no_metric_from_a_client_run_witness :
  parse_output (fun _ => Some 1%Q) (fun _ => Some 1)
    (client_stdout "10.0.0.2" 5000 (fun _ => "12.50"%string)
       (fun _ => "0.00%"%string) (fun _ => "timed out"%string)
       (trace (io (snd (transmit_data env_acked 10 sample_buffer 40 3
                          true true (fresh unbound_client))))))
  = [].
Proof.
  apply (@controller_reads_no_metric_from_a_client_run
           "10.0.0.2" 5000 (fun _ => "12.50"%string)
           (fun _ => "0.00%"%string) (fun _ => "timed out"%string)
           (fun _ => Some 1%Q) (fun _ => Some 1)
           env_acked 10 sample_buffer 40 3 true true (fresh unbound_client)
           (snd (transmit_data env_acked 10 sample_buffer 40 3
                   true true (fresh unbound_client)))
           (fst (transmit_data env_acked 10 sample_buffer 40 3
                   true true (fresh unbound_client)))).
  - reflexivity.
  - intros x. reflexivity.
  - intros x. reflexivity.
  - intros e k Hk. cbn in Hk.
    repeat (destruct Hk as [<-|Hk]; [reflexivity|]). destruct Hk.
  - apply surjective_pairing.
Defined.

(** X20. When the four outputs the controller collects are what clients
    printed, every configuration gets the empty dict, and the report is
    the same whatever the runs measured: all four averages are zero, both
    options are said to decrease the throughput (by nothing), and the
    first configuration is named the best. *)
Theorem experiment_report_is_blind_to_the_runs
    (server_addr : String.string) (port_number : Z)
    (fmt_2f fmt_pct : Q -> String.string) (str_exn : exn -> String.string)
    (py_float : String.string -> option Q) (py_int : String.string -> option Z)
    (output : Config -> String.string) :
  no_upper server_addr = true ->
  (forall x, no_upper (fmt_2f x) = true) ->
  (forall x, no_upper (fmt_pct x) = true) ->
  (forall e k, In k metric_labels -> py_in k (str_exn e) = false) ->
  (forall conf, In conf config_list ->
     exists tr,
       output conf
       = client_stdout server_addr port_number fmt_2f fmt_pct str_exn tr) ->
  compiled_results py_float py_int output
  = map (fun conf => (name conf, [])) config_list
  /\ exists r,
       execute_experiment py_float py_int output = Ret r
       /\ (avg_on (nagle_effect r) == 0)%Q
       /\ (avg_off (nagle_effect r) == 0)%Q
       /\ increases (nagle_effect r) = false
       /\ (difference (nagle_effect r) == 0)%Q
       /\ (avg_on (delack_effect r) == 0)%Q
       /\ (avg_off (delack_effect r) == 0)%Q
       /\ increases (delack_effect r) = false
       /\ (difference (delack_effect r) == 0)%Q
       /\ best_config r = ("nagle_on_delack_on"%string, []).
Proof.
  intros Ha Hf Hp He Hout.
  assert (E : forall conf, In conf config_list ->
                run_single_config py_float py_int output conf = []).
  { intros conf Hc. unfold run_single_config.
    destruct (Hout conf Hc) as [tr ->]. apply parse_output_without_labels.
    intros k Hk. apply no_label_in_client_stdout; assumption. }
  assert (C : compiled_results py_float py_int output
              = map (fun conf => (name conf, [])) config_list).
  { unfold compiled_results, config_list. cbn [fold_left map name].
    rewrite !E by (cbn; tauto). reflexivity. }
  split; [exact C|].
  unfold execute_experiment. rewrite C.
  eexists. split; [vm_compute; reflexivity|].
  repeat split.
Qed.

Lemma experiment_report_is_blind_to_the_runs_witness :
  let stdout :=
    client_stdout "10.0.0.2" 5000 (fun _ => "12.50"%string)
      (fun _ => "0.00%"%string) (fun _ => "timed out"%string) in
  let output (conf : Config) :=
    stdout (trace (io (snd (transmit_data env_acked 10 sample_buffer 40 3
                              (0 <? nagle conf) (0 <? delayed_ack conf)
                              (fresh unbound_client))))) in
  compiled_results (fun _ => Some 1%Q) (fun _ => Some 1) output
  = map (fun conf => (name conf, [])) config_list
  /\ exists r,
       execute_experiment (fun _ => Some 1%Q) (fun _ => Some 1) output = Ret r
       /\ (avg_on (nagle_effect r) == 0)%Q
       /\ (avg_off (nagle_effect r) == 0)%Q
       /\ increases (nagle_effect r) = false
       /\ (difference (nagle_effect r) == 0)%Q
       /\ (avg_on (delack_effect r) == 0)%Q
       /\ (avg_off (delack_effect r) == 0)%Q
       /\ increases (delack_effect r) = false
       /\ (difference (delack_effect r) == 0)%Q
       /\ best_config r = ("nagle_on_delack_on"%string, []).
Proof.
  intros stdout output.
  apply (@experiment_report_is_blind_to_the_runs
           "10.0.0.2" 5000 (fun _ => "12.50"%string)
           (fun _ => "0.00%"%string) (fun _ => "timed out"%string)).
  - reflexivity.
  - intros x. reflexivity.
  - intros x. reflexivity.
  - intros e k Hk. cbn in Hk.
    repeat (destruct Hk as [<-|Hk]; [reflexivity|]). destruct Hk.
  - intros conf _. eexists. reflexivity.
Defined.

(** * The figures of the report *)

Lemma max2_positive (a : Q) : Qeq_bool (max2 a (1 # 1000)) 0 = false.
Proof.
  unfold max2. destruct (Qltb a (1 # 1000)) eqn:E; [reflexivity|].
  apply Qltb_nlt in E. apply Qnot_lt_le in E.
  destruct (Qeq_bool a 0) eqn:Z; [|reflexivity].
  apply Qeq_bool_iff in Z. rewrite Z in E. exfalso.
  apply (Qlt_not_le 0 (1 # 1000)); [reflexivity|exact E].
Qed.

Lemma fits_float_zero (x : Q) : (x == 0)%Q -> fits_float x = true.
Proof.
  intros H. unfold fits_float. apply Qltb_lt. rewrite H. reflexivity.
Qed.

Lemma overflow_or_ret_and_then {A B} (o : outcome A) (k : A -> outcome B) :
  overflow_or_ret o -> (forall a, overflow_or_ret (k a)) ->
  overflow_or_ret (and_then o k).
Proof. destruct o; cbn; auto. Qed.

Lemma and_then_fold_raise {B} (f : B -> outcome unit) (l : list B)
    (e : exn) :
  fold_left (fun done x => and_then done (fun _ : unit => f x)) l (Raise e)
  = Raise e.
Proof. induction l as [|x l IH]; [reflexivity|]. exact IH. Qed.

Lemma as_float_overflow (v : value) : overflow_or_ret (as_float v).
Proof.
  destruct v as [x|n]; cbn; [exact I|].
  destruct (fits_float (inject_Z n)); cbn; auto.
Qed.

Lemma as_float_returns (v : value) :
  float_or_zero v = true -> exists x, as_float v = Ret x.
Proof.
  destruct v as [x|n]; cbn; intros H; [eexists; reflexivity|].
  apply Z.eqb_eq in H. subst n. exists 0%Q. reflexivity.
Qed.

Lemma py_add_overflow (a b : value) : overflow_or_ret (py_add a b).
Proof.
  destruct a as [x|m], b as [y|n]; cbn; try exact I;
    repeat match goal with
           | |- context [fits_float ?q] => destruct (fits_float q); cbn
           end; auto.
Qed.

Lemma py_add_returns (a b : value) :
  float_or_zero a = true -> float_or_zero b = true ->
  exists c, py_add a b = Ret c /\ float_or_zero c = true.
Proof.
  destruct a as [x|m], b as [y|n]; cbn; intros Ha Hb;
    try apply Z.eqb_eq in Ha; try apply Z.eqb_eq in Hb; subst;
    eexists; (split; [reflexivity|reflexivity]).
Qed.

Lemma py_sum_from_overflow (vs : list value) (start : outcome value) :
  overflow_or_ret start ->
  overflow_or_ret
    (fold_left (fun total v => and_then total (fun t => py_add t v)) vs
               start).
Proof.
  revert start. induction vs as [|v vs IH]; intros start H; [exact H|].
  cbn [fold_left]. apply IH. apply overflow_or_ret_and_then; [exact H|].
  intros a. apply py_add_overflow.
Qed.

Lemma py_sum_from_returns (vs : list value) (start : value) :
  float_or_zero start = true -> forallb float_or_zero vs = true ->
  exists total,
    fold_left (fun total v => and_then total (fun t => py_add t v)) vs
              (Ret start) = Ret total
    /\ float_or_zero total = true.
Proof.
  revert start. induction vs as [|v vs IH]; intros start Hs Hvs.
  - exists start. split; [reflexivity|exact Hs].
  - cbn [forallb] in Hvs. apply andb_true_iff in Hvs as [Hv Hvs].
    destruct (py_add_returns start v Hs Hv) as (c & Hc & Hfz).
    cbn [fold_left and_then]. rewrite Hc. apply IH; assumption.
Qed.

Lemma length_positive {A} (x : A) (l : list A) :
  (Z.of_nat (length (x :: l)) =? 0) = false.
Proof. apply Z.eqb_neq. cbn [length]. lia. Qed.

Lemma length_not_zero {A} (x : A) (l : list A) :
  Qeq_bool (inject_Z (Z.of_nat (length (x :: l)))) 0 = false.
Proof.
  destruct (Qeq_bool _ 0) eqn:E; [|reflexivity].
  apply Qeq_bool_iff in E. unfold Qeq in E. cbn in E. lia.
Qed.

Lemma avg_throughput_overflow (selection : dict Metrics) :
  overflow_or_ret (avg_throughput selection).
Proof.
  destruct selection as [|kv selection]; [exact I|].
  unfold avg_throughput. apply overflow_or_ret_and_then.
  - apply py_sum_from_overflow. exact I.
  - intros [x|m].
    + unfold truediv. rewrite length_not_zero. exact I.
    + unfold div_by_int. rewrite length_positive.
      destruct (fits_float _); cbn; auto.
Qed.

Lemma floats_only_throughput (stats : Metrics) :
  floats_only stats = true ->
  float_or_zero (dict_get "throughput" stats (PyInt 0)) = true.
Proof.
  unfold floats_only, formatted_keys. cbn [forallb].
  intros H. apply andb_true_iff in H as [H _]. exact H.
Qed.

Lemma avg_throughput_returns (selection : dict Metrics) :
  forallb floats_only (map snd selection) = true ->
  exists a, avg_throughput selection = Ret a.
Proof.
  intros Hsel.
  destruct selection as [|kv selection]; [exists 0%Q; reflexivity|].
  unfold avg_throughput.
  destruct (@py_sum_from_returns
              (map (fun kv => dict_get "throughput" (snd kv) (PyInt 0))
                   (kv :: selection)) (PyInt 0) eq_refl)
    as (total & Hsum & Hfz).
  { clear -Hsel. induction (kv :: selection) as [|x l IH]; [reflexivity|].
    cbn [map forallb] in *. apply andb_true_iff in Hsel as [Hx Hl].
    apply andb_true_iff. split; [apply floats_only_throughput; exact Hx|].
    auto. }
  unfold py_sum. rewrite Hsum. cbn [and_then].
  destruct total as [x|m].
  - unfold truediv. rewrite length_not_zero. eexists. reflexivity.
  - cbn in Hfz. apply Z.eqb_eq in Hfz. subst m.
    unfold div_by_int. rewrite length_positive.
    rewrite fits_float_zero; [eexists; reflexivity|].
    unfold Qdiv. apply Qmult_0_l.
Qed.

Lemma named_floats_only (part : String.string) (result_data : dict Metrics) :
  forallb floats_only (map snd result_data) = true ->
  forallb floats_only (map snd (named part result_data)) = true.
Proof.
  unfold named. induction result_data as [|kv l IH]; [reflexivity|].
  cbn [map forallb filter]. intros H. apply andb_true_iff in H as [Hx Hl].
  destruct (py_in part (fst kv)); cbn [map forallb]; auto.
  rewrite Hx. cbn. auto.
Qed.

Lemma effect_of_overflow (on off : String.string)
    (result_data : dict Metrics) :
  overflow_or_ret (effect_of on off result_data).
Proof.
  unfold effect_of.
  apply overflow_or_ret_and_then; [apply avg_throughput_overflow|].
  intros a_on.
  apply overflow_or_ret_and_then; [apply avg_throughput_overflow|].
  intros a_off. unfold truediv. rewrite max2_positive. exact I.
Qed.

Lemma effect_of_returns (on off : String.string)
    (result_data : dict Metrics) :
  forallb floats_only (map snd result_data) = true ->
  exists e, effect_of on off result_data = Ret e.
Proof.
  intros H. unfold effect_of.
  destruct (avg_throughput_returns _ (named_floats_only on _ H))
    as [a_on ->].
  destruct (avg_throughput_returns _ (named_floats_only off _ H))
    as [a_off ->].
  cbn [and_then]. unfold truediv. rewrite max2_positive. cbn [and_then].
  eexists. reflexivity.
Qed.

Lemma format_row_overflow (stats : Metrics) :
  overflow_or_ret (format_row stats).
Proof.
  unfold format_row, formatted_keys. cbn [fold_left and_then].
  repeat match goal with
         | |- context [as_float ?v] =>
             let H := fresh "H" in
             pose proof (as_float_overflow v) as H;
             destruct (as_float v); cbn [and_then]; cbn in H;
             try contradiction; subst; try reflexivity
         end.
Qed.

Lemma format_row_returns (stats : Metrics) :
  floats_only stats = true -> format_row stats = Ret tt.
Proof.
  unfold floats_only, format_row, formatted_keys.
  cbn [forallb fold_left and_then]. intros H.
  repeat (apply andb_true_iff in H as [?H H]).
  repeat match goal with
         | Hv : float_or_zero ?v = true |- _ =>
             destruct (as_float_returns _ Hv) as [? ->]; clear Hv
         end.
  reflexivity.
Qed.

Lemma format_rows_cons (kv : String.string * Metrics)
    (result_data : dict Metrics) :
  format_rows (kv :: result_data)
  = and_then (format_row (snd kv)) (fun _ => format_rows result_data).
Proof.
  unfold format_rows. cbn [fold_left and_then].
  destruct (format_row (snd kv)) as [[]|e|]; cbn [and_then];
    [reflexivity| |].
  - apply (and_then_fold_raise (fun kv => format_row (snd kv))).
  - induction result_data as [|x l IH]; [reflexivity|]. exact IH.
Qed.

Lemma format_rows_overflow (result_data : dict Metrics) :
  overflow_or_ret (format_rows result_data).
Proof.
  induction result_data as [|kv l IH]; [exact I|].
  rewrite format_rows_cons.
  apply overflow_or_ret_and_then; [apply format_row_overflow|].
  intros _. exact IH.
Qed.

Lemma format_rows_returns (result_data : dict Metrics) :
  forallb floats_only (map snd result_data) = true ->
  format_rows result_data = Ret tt.
Proof.
  induction result_data as [|kv l IH]; [reflexivity|].
  cbn [map forallb]. intros H. apply andb_true_iff in H as [Hx Hl].
  rewrite format_rows_cons, (format_row_returns _ Hx). cbn [and_then].
  auto.
Qed.

(** X21. [compile_report] fails only for want of results or of a float:
    with no configuration at all [max] raises [ValueError]; an
    [OverflowError] needs a metric that is an int other than 0, which
    [parse_output] never stores under the four formatted keys; in every
    other case the figures are computed.  No division (by the size of a
    selection, by the baseline average) is by zero. *)
Theorem report_fails_only_without_results (result_data : dict Metrics) :
  match compile_report result_data with
  | Ret _ => result_data <> []
  | Raise e =>
      (e = ValueError /\ result_data = [])
      \/ (e = OverflowError
          /\ forallb floats_only (map snd result_data) = false)
  | OutOfFuel => False
  end.
Proof.
  destruct (forallb floats_only (map snd result_data)) eqn:Hfl.
  - unfold compile_report.
    rewrite (format_rows_returns _ Hfl). cbn [and_then].
    destruct (effect_of_returns "nagle_on" "nagle_off" _ Hfl) as [e1 ->].
    destruct (effect_of_returns "delack_on" "delack_off" _ Hfl) as [e2 ->].
    cbn [and_then].
    destruct result_data as [|kv result_data]; cbn; [left; auto|].
    discriminate.
  - assert (Hne : result_data <> []) by (intros ->; discriminate).
    unfold compile_report.
    pose proof (format_rows_overflow result_data) as H0.
    destruct (format_rows result_data) as [[]|e|]; cbn [and_then];
      cbn in H0; [|right; auto|contradiction].
    pose proof (effect_of_overflow "nagle_on" "nagle_off" result_data) as H1.
    destruct (effect_of "nagle_on" "nagle_off" result_data) as [e1|e|];
      cbn [and_then]; cbn in H1; [|right; auto|contradiction].
    pose proof (effect_of_overflow "delack_on" "delack_off" result_data)
      as H2.
    destruct (effect_of "delack_on" "delack_off" result_data) as [e2|e|];
      cbn [and_then]; cbn in H2; [|right; auto|contradiction].
    destruct result_data as [|kv l]; [congruence|]. cbn. exact Hne.
Qed.









(** * What the parser reads *)

Lemma has_key_dict_set {V} (k k' : String.string) (v : V) (d : dict V) :
  has_key k (dict_set k' v d) = String.eqb k k' || has_key k d.
Proof.
  induction d as [|[k0 v0] d IH]; [reflexivity|].
  cbn [dict_set]. destruct (String.eqb k' k0) eqn:E.
  - apply String.eqb_eq in E. subst k0. cbn [has_key].
    now rewrite orb_assoc, orb_diag.
  - cbn [has_key]. rewrite IH.
    rewrite !orb_assoc. f_equal. apply orb_comm.
Qed.

Lemma parse_line_keys
    (py_float : String.string -> option Q) (py_int : String.string -> option Z)
    (metrics : Metrics) (line : String.string) :
  (forall k, has_key k metrics = true -> In k metric_keys) ->
  has_key "avg_packet_size" metrics = has_key "packets_sent" metrics ->
  (forall k, has_key k (parse_line py_float py_int metrics line) = true ->
             In k metric_keys)
  /\ has_key "avg_packet_size" (parse_line py_float py_int metrics line)
     = has_key "packets_sent" (parse_line py_float py_int metrics line).
Proof.
  intros Hkeys Hpair. unfold parse_line.
  repeat match goal with
         | |- context [if ?b then _ else _] => destruct b
         | |- context [match ?o with Some _ => _ | None => _ end] => destruct o
         | |- context [match ?o with Ret _ => _ | Raise _ => _
                                   | OutOfFuel => _ end] => destruct o
         end;
    (split;
     [ intros k; rewrite ?has_key_dict_set; intros Hk;
       repeat (apply orb_true_iff in Hk as [Hk|Hk];
               [apply String.eqb_eq in Hk; subst k; cbn; tauto|]);
       auto
     | rewrite ?has_key_dict_set; cbn; auto ]).
Qed.

Lemma parse_lines_keys
    (py_float : String.string -> option Q) (py_int : String.string -> option Z)
    (lines : list String.string) (metrics : Metrics) :
  (forall k, has_key k metrics = true -> In k metric_keys) ->
  has_key "avg_packet_size" metrics = has_key "packets_sent" metrics ->
  (forall k,
     has_key k (fold_left (parse_line py_float py_int) lines metrics) = true ->
     In k metric_keys)
  /\ has_key "avg_packet_size"
       (fold_left (parse_line py_float py_int) lines metrics)
     = has_key "packets_sent"
         (fold_left (parse_line py_float py_int) lines metrics).
Proof.
  revert metrics. induction lines as [|line lines IH]; intros metrics Hk Hp.
  - split; assumption.
  - cbn [fold_left].
    destruct (parse_line_keys py_float py_int metrics line Hk Hp).
    apply IH; assumption.
Qed.

(** X24. Whatever the text, the dict [parse_output] returns has no key
    but its six, and it has 'avg_packet_size' exactly when it has
    'packets_sent'. *)
Theorem parse_output_keys
    (py_float : String.string -> option Q) (py_int : String.string -> option Z)
    (raw_output : String.string) :
  (forall k, has_key k (parse_output py_float py_int raw_output) = true ->
             In k metric_keys)
  /\ has_key "avg_packet_size" (parse_output py_float py_int raw_output)
     = has_key "packets_sent" (parse_output py_float py_int raw_output).
Proof.
  unfold parse_output. apply parse_lines_keys.
  - intros k H. discriminate.
  - reflexivity.
Qed.

(** ** Lines in the format the parser expects *)

Lemma has_char_app (c : Ascii.ascii) (a b : String.string) :
  has_char c (a ++ b) = has_char c a || has_char c b.
Proof.
  induction a as [|d a IH]; [reflexivity|].
  cbn. rewrite IH. apply orb_assoc.
Qed.

Lemma append_empty (s : String.string) : (s ++ "")%string = s.
Proof. induction s as [|c s IH]; [reflexivity|]. cbn. now rewrite IH. Qed.

Lemma split_on_without (sep : Ascii.ascii) (s : String.string) :
  has_char sep s = false -> split_on sep s = [s].
Proof.
  induction s as [|c s IH]; intros H; [reflexivity|].
  cbn in H. apply orb_false_iff in H as [Hc H].
  cbn. rewrite Ascii.eqb_sym, Hc, (IH H). reflexivity.
Qed.

Lemma split_on_at (sep : Ascii.ascii) (a b : String.string) :
  has_char sep a = false ->
  split_on sep (a ++ String.String sep b) = a :: split_on sep b.
Proof.
  induction a as [|c a IH]; intros H.
  - cbn. rewrite Ascii.eqb_refl. reflexivity.
  - cbn in H. apply orb_false_iff in H as [Hc H].
    cbn. rewrite Ascii.eqb_sym, Hc, (IH H). reflexivity.
Qed.

Lemma after_colon_of (a b : String.string) :
  has_char ":"%char a = false -> has_char ":"%char b = false ->
  after_colon (a ++ String.String ":"%char b) = Some b.
Proof.
  intros Ha Hb. unfold after_colon.
  rewrite split_on_at by exact Ha. rewrite split_on_without by exact Hb.
  reflexivity.
Qed.

Lemma rstrip_by_last (drop : Ascii.ascii -> bool) (a : String.string)
    (c : Ascii.ascii) :
  drop c = false ->
  rstrip_by drop (a ++ String.String c String.EmptyString)
  = (a ++ String.String c String.EmptyString)%string.
Proof.
  intros Hc. induction a as [|d a IH]; cbn.
  - rewrite Hc. reflexivity.
  - rewrite IH. destruct a; reflexivity.
Qed.

Lemma rstrip_by_none (drop : Ascii.ascii -> bool) (w : String.string) :
  none_of drop w = true -> rstrip_by drop w = w.
Proof.
  induction w as [|c w IH]; intros H; [reflexivity|].
  cbn in H. apply andb_true_iff in H as [Hc H].
  apply negb_true_iff in Hc.
  cbn. rewrite (IH H), Hc, andb_false_r. reflexivity.
Qed.

Lemma rstrip_by_one (drop : Ascii.ascii -> bool) (w : String.string)
    (c : Ascii.ascii) :
  none_of drop w = true -> drop c = true ->
  rstrip_by drop (w ++ String.String c String.EmptyString) = w.
Proof.
  intros H Hc. induction w as [|d w IH]; cbn.
  - rewrite Hc. reflexivity.
  - cbn in H. apply andb_true_iff in H as [Hd H].
    apply negb_true_iff in Hd.
    rewrite (IH H), Hd, andb_false_r. reflexivity.
Qed.

Lemma none_of_eqb (c : Ascii.ascii) (w : String.string) :
  has_char c w = false -> none_of (Ascii.eqb c) w = true.
Proof.
  induction w as [|d w IH]; intros H; [reflexivity|].
  cbn in H. apply orb_false_iff in H as [Hd H].
  cbn. rewrite Hd, (IH H). reflexivity.
Qed.

Lemma lstrip_space_word (w rest : String.string) :
  w <> String.EmptyString -> none_of isspace w = true ->
  lstrip_by isspace (String.String " "%char (w ++ rest)) = (w ++ rest)%string.
Proof.
  intros Hne H. destruct w as [|x w]; [congruence|].
  cbn in H. apply andb_true_iff in H as [Hx _].
  apply negb_true_iff in Hx.
  change (lstrip_by isspace (String.String " "%char (String.String x w ++ rest)))
    with (lstrip_by isspace (String.String x (w ++ rest)%string)).
  cbn [lstrip_by String.append]. rewrite Hx. reflexivity.
Qed.

Lemma split_ws_inside (x y : Ascii.ascii) (s : String.string) :
  isspace x = false -> isspace y = false ->
  split_ws (String.String x (String.String y s))
  = match split_ws (String.String y s) with
    | word :: words => String.String x word :: words
    | [] => [String.String x String.EmptyString]
    end.
Proof.
  intros Hx Hy.
  change (split_ws (String.String x (String.String y s)))
    with (if isspace x then split_ws (String.String y s)
          else if isspace y
               then String.String x String.EmptyString
                    :: split_ws (String.String y s)
               else match split_ws (String.String y s) with
                    | word :: words => String.String x word :: words
                    | [] => [String.String x String.EmptyString]
                    end).
  rewrite Hx, Hy. reflexivity.
Qed.

Lemma split_ws_word (w rest : String.string) (c : Ascii.ascii) :
  w <> String.EmptyString -> none_of isspace w = true -> isspace c = true ->
  split_ws (w ++ String.String c rest) = w :: split_ws rest.
Proof.
  intros Hne H Hc. induction w as [|x w IH]; [congruence|].
  cbn [none_of] in H. apply andb_true_iff in H as [Hx H].
  apply negb_true_iff in Hx.
  destruct w as [|y w].
  - cbn. rewrite Hx, Hc. reflexivity.
  - assert (Hy : isspace y = false).
    { cbn [none_of] in H. apply andb_true_iff in H as [Hy _].
      now apply negb_true_iff in Hy. }
    change ((String.String x (String.String y w)) ++ String.String c rest)%string
      with (String.String x
              (String.String y (w ++ String.String c rest)%string)).
    rewrite split_ws_inside by assumption.
    change (String.String y (w ++ String.String c rest)%string)
      with (String.String y w ++ String.String c rest)%string.
    rewrite IH by (assumption || discriminate). reflexivity.
Qed.

Section Lines.

Variable py_float : String.string -> option Q.
Variable py_int : String.string -> option Z.
Variable w : String.string.
Hypothesis word : is_word w.

Lemma word_after_colon (label tail : String.string) :
  has_char ":"%char label = false -> has_char ":"%char tail = false ->
  after_colon (label ++ ": " ++ w ++ tail)
  = Some (String.String " "%char (w ++ tail)%string).
Proof.
  intros Hl Ht. destruct word as (_ & _ & Hc & _ & _).
  change (label ++ ": " ++ w ++ tail)%string
    with (label ++ String.String ":"%char
                     (String.String " "%char (w ++ tail)))%string.
  apply after_colon_of; [exact Hl|].
  cbn [has_char]. rewrite has_char_app, Hc, Ht. reflexivity.
Qed.

Lemma first_float_of_rate (label : String.string) :
  has_char ":"%char label = false ->
  first_float py_float (label ++ ": " ++ w ++ " B/s") = py_float w.
Proof.
  intros Hl. destruct word as (Hne & Hsp & _ & _ & _).
  unfold first_float. rewrite word_after_colon by (exact Hl || reflexivity).
  unfold strip. rewrite lstrip_space_word by assumption.
  replace (w ++ " B/s")%string
    with ((w ++ " B/") ++ String.String "s"%char String.EmptyString)%string
    by (rewrite append_assoc; reflexivity).
  rewrite rstrip_by_last by reflexivity.
  rewrite append_assoc.
  change (" B/" ++ String.String "s"%char String.EmptyString)%string
    with (String.String " "%char "B/s").
  rewrite split_ws_word by (assumption || reflexivity). reflexivity.
Qed.

Lemma percentage_of_rate (label : String.string) :
  has_char ":"%char label = false ->
  percentage py_float (label ++ ": " ++ w ++ "%")
  = match py_float w with Some x => Some (x / 100)%Q | None => None end.
Proof.
  intros Hl. destruct word as (Hne & Hsp & _ & Hpc & _).
  unfold percentage. rewrite word_after_colon by (exact Hl || reflexivity).
  unfold strip. rewrite lstrip_space_word by assumption.
  change (w ++ "%")%string
    with (w ++ String.String "%"%char String.EmptyString)%string.
  rewrite rstrip_by_last by reflexivity.
  unfold rstrip_char. rewrite rstrip_by_one
    by (try apply none_of_eqb; try assumption; reflexivity).
  reflexivity.
Qed.

Lemma whole_field_of_count (label : String.string) :
  has_char ":"%char label = false ->
  whole_field py_int (label ++ ": " ++ w) = py_int w.
Proof.
  intros Hl. destruct word as (Hne & Hsp & Hc & _ & _).
  unfold whole_field.
  rewrite <- (append_empty w) at 1.
  rewrite word_after_colon by (exact Hl || reflexivity).
  unfold strip. rewrite lstrip_space_word by assumption.
  rewrite append_empty, rstrip_by_none by assumption. reflexivity.
Qed.

End Lines.

Lemma label_not_in_line (k lit w tail : String.string) :
  starts_upper k = true -> no_overlap k lit = true -> no_upper w = true ->
  py_in k tail = false -> py_in k (lit ++ w ++ tail) = false.
Proof.
  intros Hk Hlit Hw Htail.
  rewrite scan_lit by exact Hlit. rewrite scan_hole by assumption.
  exact Htail.
Qed.

Lemma label_not_in_end (k lit w : String.string) :
  starts_upper k = true -> no_overlap k lit = true -> no_upper w = true ->
  py_in k (lit ++ w) = false.
Proof.
  intros Hk Hlit Hw. rewrite <- (append_empty w).
  apply label_not_in_line; try assumption.
  destruct k; [discriminate|reflexivity].
Qed.

(** X25. A line in the format the parser is written for is read as
    meant: from "Throughput: <w> B/s" and "Goodput: <w> B/s" it stores
    [float(w)], from "Packet loss rate: <w>%" a hundredth of [float(w)],
    from "Bytes sent: <w>" [int(w)], and zero when the conversion
    rejects [w]; the other keys stay as they were. *)
Theorem labelled_lines_are_read
    (py_float : String.string -> option Q) (py_int : String.string -> option Z)
    (metrics : Metrics) (w : String.string) :
  is_word w ->
  parse_line py_float py_int metrics ("Throughput: " ++ w ++ " B/s")
  = dict_set "throughput"
      (PyFloat match py_float w with Some x => x | None => 0 end) metrics
  /\ parse_line py_float py_int metrics ("Goodput: " ++ w ++ " B/s")
     = dict_set "goodput"
         (PyFloat match py_float w with Some x => x | None => 0 end) metrics
  /\ parse_line py_float py_int metrics ("Packet loss rate: " ++ w ++ "%")
     = dict_set "packet_loss_rate"
         (PyFloat match py_float w with Some x => x / 100 | None => 0 end)
         metrics
  /\ parse_line py_float py_int metrics ("Bytes sent: " ++ w)
     = dict_set "bytes_sent"
         (PyInt match py_int w with Some n => n | None => 0 end) metrics.
Proof.
  intros Hw. pose proof Hw as (_ & _ & _ & _ & Hup).
  repeat split; unfold parse_line.
  - replace (py_in "Throughput:" ("Throughput: " ++ w ++ " B/s")) with true
      by reflexivity.
    change ("Throughput: " ++ w ++ " B/s")%string
      with ("Throughput" ++ ": " ++ w ++ " B/s")%string.
    rewrite first_float_of_rate by (exact Hw || reflexivity).
    destruct (py_float w); reflexivity.
  - rewrite (@label_not_in_line "Throughput:" "Goodput: " w " B/s")
      by (exact Hup || reflexivity).
    replace (py_in "Goodput:" ("Goodput: " ++ w ++ " B/s")) with true
      by reflexivity.
    change ("Goodput: " ++ w ++ " B/s")%string
      with ("Goodput" ++ ": " ++ w ++ " B/s")%string.
    rewrite first_float_of_rate by (exact Hw || reflexivity).
    destruct (py_float w); reflexivity.
  - rewrite (@label_not_in_line "Throughput:" "Packet loss rate: " w "%")
      by (exact Hup || reflexivity).
    rewrite (@label_not_in_line "Goodput:" "Packet loss rate: " w "%")
      by (exact Hup || reflexivity).
    replace (py_in "Packet loss rate:" ("Packet loss rate: " ++ w ++ "%"))
      with true by reflexivity.
    change ("Packet loss rate: " ++ w ++ "%")%string
      with ("Packet loss rate" ++ ": " ++ w ++ "%")%string.
    rewrite percentage_of_rate by (exact Hw || reflexivity).
    destruct (py_float w); reflexivity.
  - rewrite (@label_not_in_end "Throughput:" "Bytes sent: " w)
      by (exact Hup || reflexivity).
    rewrite (@label_not_in_end "Goodput:" "Bytes sent: " w)
      by (exact Hup || reflexivity).
    rewrite (@label_not_in_end "Packet loss rate:" "Bytes sent: " w)
      by (exact Hup || reflexivity).
    replace (py_in "Bytes sent:" ("Bytes sent: " ++ w)) with true
      by reflexivity.
    change ("Bytes sent: " ++ w)%string with ("Bytes sent" ++ ": " ++ w)%string.
    rewrite whole_field_of_count by (exact Hw || reflexivity).
    destruct (py_int w); reflexivity.
Qed.

Lemma labelled_lines_are_read_witness :
  let py_float (s : String.string) :=
    if String.eqb s "12.50" then Some (25 # 2) else None in
  parse_line py_float (fun _ => None) [] "Throughput: 12.50 B/s"
  = [("throughput"%string, PyFloat (25 # 2))].
Proof.
  intros py_float.
  assert (W : is_word "12.50")
    by (repeat split; (discriminate || reflexivity)).
  destruct (@labelled_lines_are_read py_float (fun _ => None) [] "12.50" W)
    as [H _].
  exact H.
Defined.
